(** * pwn-request-scan: the organization-wide dependency scanner

    A shallow embedding of [check_dependence_by_org_generic.py] and the
    properties of its lister ([get_org_repos]), probe
    ([check_dep_in_repo]), coordinator and report ([main]), followed by
    the local checker [check_ag_grid_local.py].

    - Python strings are sequences of code points; they are modelled by
      [string], that is by code points below 256.
    - A computation is a function from the world (console, request log,
      output.txt) to a result and a world; it returns, raises, exits, or
      runs out of fuel where the Python loop would not end.
    - The network is a function of the requested URL: the remote state
      does not change during a run.  The answer to a listing request
      carries what [response.json()] gives, typed as the array of
      repository records of the GitHub API; the answer to a manifest
      request carries [response.text].
    - The organization file is given by its text after newline
      translation.
    - The pool runs every probe to its end; the order in which the
      futures complete is a parameter.
    - The request headers (with the optional token), the timeouts, the
      pool size (taken positive), [time.sleep] and the progress bar on
      stderr never influence the results and are left out.
    - [json.loads] returns a value or raises JSONDecodeError.  A text
      on which it raises anything else (RecursionError on deep nesting,
      ValueError on an integer literal beyond the digit limit) is
      outside the model, and so are an organization file that cannot be
      read as text and an output.txt that cannot be written.
    - The text of an HTTPError quotes the URL as the script built it. *)

From Stdlib Require Import List String Ascii ZArith Lia Bool Arith.
From Stdlib Require Import Permutation Sorted DecimalString Decimal.
Import ListNotations.
Open Scope string_scope.
Set Warnings "-register-all".

(** ** Python values *)

Module Py.

Definition nl : string := String "010" EmptyString.

(** [str(n)] for a non-negative [int]. *)
Definition str_of_nat (n : nat) : string :=
  NilZero.string_of_uint (Nat.to_uint n).

(** [str(z)] for an [int]. *)
Definition str_of_Z (z : Z) : string :=
  NilZero.string_of_int (Z.to_int z).

(** [key.startswith(p)]. *)
Definition startswith (key p : string) : bool := prefix p key.

(** [c.isspace()] on code points below 256: the characters removed by
    [str.strip()]. *)
Definition isspace (c : ascii) : bool :=
  let n := nat_of_ascii c in
  (((9 <=? n) && (n <=? 13)) || ((28 <=? n) && (n <=? 32))
   || (n =? 133) || (n =? 160))%nat.

Fixpoint lstrip (s : string) : string :=
  match s with
  | EmptyString => EmptyString
  | String c r => if isspace c then lstrip r else s
  end.

Fixpoint rstrip (s : string) : string :=
  match s with
  | EmptyString => EmptyString
  | String c r =>
      let r' := rstrip r in
      if isspace c && (r' =? EmptyString) then EmptyString else String c r'
  end.

(** [s.strip()]. *)
Definition strip (s : string) : string := rstrip (lstrip s).

(** Truth value of a [str]. *)
Definition truthy (s : string) : bool := negb (s =? EmptyString).

(** Iterating a text file: the lines of its (newline-translated) text,
    each with its terminating newline when it has one. *)
Fixpoint readlines (s : string) : list string :=
  match s with
  | EmptyString => []
  | String c r =>
      if Ascii.eqb c "010" then nl :: readlines r
      else match readlines r with
           | [] => [String c EmptyString]
           | l :: ls => String c l :: ls
           end
  end.

(** *** Insertion-ordered dictionaries with [str] keys *)

Definition dict (V : Type) : Type := list (string * V).

Fixpoint dict_get {V} (k : string) (d : dict V) : option V :=
  match d with
  | [] => None
  | (k', v) :: d' => if k' =? k then Some v else dict_get k d'
  end.

(** [d[k] = v]: a present key keeps its position, a new key goes last. *)
Fixpoint dict_set {V} (k : string) (v : V) (d : dict V) : dict V :=
  match d with
  | [] => [(k, v)]
  | (k', v') :: d' =>
      if k' =? k then (k, v) :: d' else (k', v') :: dict_set k v d'
  end.

Definition dict_keys {V} (d : dict V) : list string := map fst d.

(** [d.update(items)], also the meaning of a [**] unpacking. *)
Definition dict_update {V} (d : dict V) (items : list (string * V)) : dict V :=
  fold_left (fun acc kv => dict_set (fst kv) (snd kv) acc) items d.

(** A dict display [{k1: v1, ..., kn: vn}]. *)
Definition dict_of_list {V} (items : list (string * V)) : dict V :=
  dict_update [] items.

(** *** [sorted]: a stable sort by [<] *)

Section Sorted.
Context {A : Type} (lt : A -> A -> bool).

Fixpoint insert (x : A) (l : list A) : list A :=
  match l with
  | [] => [x]
  | y :: t => if lt y x then y :: insert x t else x :: y :: t
  end.

Definition sorted (l : list A) : list A := fold_right insert [] l.

(** [ordered a b]: [b] is not below [a]. *)
Definition ordered (a b : A) : Prop := lt b a = false.
End Sorted.

(** [<] on [str] and on pairs of [str] (tuples compare lexicographically). *)
Definition str_lt (a b : string) : bool := (a <? b)%string.

Definition pair_lt (a b : string * string) : bool :=
  if fst a =? fst b then str_lt (snd a) (snd b) else str_lt (fst a) (fst b).

(** *** Exceptions *)

Inductive ExnType : Type :=
| RequestException   (* requests: transport failures *)
| HTTPError          (* requests: raised by raise_for_status *)
| JSONDecodeError
| KeyError
| AttributeError
| TypeError.

(** [issubclass t cls] on the classes above. *)
Definition issubclass (t cls : ExnType) : bool :=
  match t, cls with
  | RequestException, RequestException
  | HTTPError, HTTPError
  | HTTPError, RequestException
  | JSONDecodeError, JSONDecodeError
  | KeyError, KeyError
  | AttributeError, AttributeError
  | TypeError, TypeError => true
  | _, _ => false
  end.

Record Exn : Type := mkExn { exn_type : ExnType; exn_str : string }.

(** *** The values [json.loads] builds *)

Inductive Value : Type :=
| VNone
| VBool (b : bool)
| VInt (z : Z)
| VFloat (literal : string)
| VStr (s : string)
| VList (l : list Value)
| VDict (d : list (string * Value)).

Definition type_name (v : Value) : string :=
  match v with
  | VNone => "NoneType"
  | VBool _ => "bool"
  | VInt _ => "int"
  | VFloat _ => "float"
  | VStr _ => "str"
  | VList _ => "list"
  | VDict _ => "dict"
  end.

End Py.
Import Py.

(** ** The world the script acts on, and its computations *)

Record World : Type := mkWorld {
  stdout : list string;              (* arguments of [print], oldest first *)
  requests : list string;            (* URLs requested, oldest first *)
  output_txt : option (list string)  (* chunks written to output.txt *)
}.

Definition world0 : World := mkWorld [] [] None.

Inductive Res (A : Type) : Type :=
| Val (a : A)
| Raised (e : Exn)
| SysExit (code : Z)
| OutOfFuel.
Arguments Val {A} a.
Arguments Raised {A} e.
Arguments SysExit {A} code.
Arguments OutOfFuel {A}.

Definition M (A : Type) : Type := World -> Res A * World.

Definition ret {A} (a : A) : M A := fun w => (Val a, w).

Definition bind {A B} (m : M A) (k : A -> M B) : M B :=
  fun w =>
    match m w with
    | (Val a, w') => k a w'
    | (Raised e, w') => (Raised e, w')
    | (SysExit c, w') => (SysExit c, w')
    | (OutOfFuel, w') => (OutOfFuel, w')
    end.

Declare Scope py_scope.
Delimit Scope py_scope with py.
Notation "x <- m ;; k" := (bind m (fun x => k))
  (at level 100, m at next level, right associativity) : py_scope.
Notation "m ;;; k" := (bind m (fun _ => k))
  (at level 100, right associativity) : py_scope.
Open Scope py_scope.

Definition raise {A} (t : ExnType) (msg : string) : M A :=
  fun w => (Raised (mkExn t msg), w).

Definition sys_exit {A} (code : Z) : M A := fun w => (SysExit code, w).

(** [try: body  except cls as e: handler e]. *)
Definition try_except {A} (body : M A) (cls : ExnType -> bool)
    (handler : Exn -> M A) : M A :=
  fun w =>
    match body w with
    | (Raised e, w') => if cls (exn_type e) then handler e w' else (Raised e, w')
    | r => r
    end.

Definition except_Exception : ExnType -> bool := fun _ => true.
Definition except_ (cls : ExnType) : ExnType -> bool := fun t => issubclass t cls.

Definition print (s : string) : M unit :=
  fun w => (Val tt, mkWorld (stdout w ++ [s]) (requests w) (output_txt w)).

(** What the console shows for a list of [print] arguments. *)
Definition console_text (lines : list string) : string :=
  String.concat EmptyString (map (fun line => line ++ nl) lines).

(** [open("output.txt", "w")] and [out.write(s)]. *)
Definition open_output : M unit :=
  fun w => (Val tt, mkWorld (stdout w) (requests w) (Some [])).

Definition out_write (s : string) : M unit :=
  fun w =>
    (Val tt, mkWorld (stdout w) (requests w)
               (Some (match output_txt w with Some l => (l ++ [s])%list | None => [s] end))).

Definition file_text (chunks : list string) : string := String.concat EmptyString chunks.

(** [for x in l: body x]. *)
Fixpoint for_each {A} (l : list A) (body : A -> M unit) : M unit :=
  match l with
  | [] => ret tt
  | x :: t => body x ;;; for_each t body
  end.

(** ** HTTP *)

Record Response : Type := mkResponse {
  status_code : Z;
  reason : string;
  text : string;                          (* response.text *)
  json : string + list (dict string)      (* response.json() of a listing:
                                             the error text when it raises,
                                             else the repository records *)
}.

Inductive HttpResult : Type :=
| Failed (msg : string)     (* requests.get raises a RequestException *)
| Returned (r : Response).

(** [response.raise_for_status()]. *)
Definition raise_for_status (url : string) (r : Response) : M unit :=
  let s := status_code r in
  if ((400 <=? s) && (s <? 500))%Z then
    raise HTTPError (str_of_Z s ++ " Client Error: " ++ reason r ++ " for url: " ++ url)
  else if ((500 <=? s) && (s <? 600))%Z then
    raise HTTPError (str_of_Z s ++ " Server Error: " ++ reason r ++ " for url: " ++ url)
  else ret tt.

Definition out_of_fuel {A} : M A := fun w => (OutOfFuel, w).

(** [for x in l: acc = body acc x]. *)
Fixpoint fold_M {A B} (body : B -> A -> M B) (l : list A) (acc : B) : M B :=
  match l with
  | [] => ret acc
  | x :: t => acc' <- body acc x ;; fold_M body t acc'
  end.

Fixpoint map_M {A B} (f : A -> M B) (l : list A) : M (list B) :=
  match l with
  | [] => ret []
  | x :: t => y <- f x ;; ys <- map_M f t ;; ret (y :: ys)
  end.

(** A future: [executor.submit] runs the task to its end and keeps how it
    ended; [future.result()] returns or raises accordingly. *)
Definition submit {A} (task : M A) : M (Res A) :=
  fun w => let (r, w') := task w in (Val r, w').

Definition future_result {A} (future : Res A) : M A := fun w => (future, w).

(** ** The script *)

Section Scanner.

(** The network: what [requests.get] does for a URL. *)
Variable remote : string -> HttpResult.

(** [json.loads]: the parsed value, or the text of its JSONDecodeError. *)
Variable json_parse : string -> string + Value.

(** The order in which the probes of the i-th organization complete. *)
Variable as_completed : nat -> list string -> list string.

Definition requests_get (url : string) : M Response :=
  fun w =>
    let w' := mkWorld (stdout w) (requests w ++ [url]) (output_txt w) in
    match remote url with
    | Failed msg => (Raised (mkExn RequestException msg), w')
    | Returned r => (Val r, w')
    end.

Definition json_loads (s : string) : M Value :=
  match json_parse s with
  | inl msg => raise JSONDecodeError msg
  | inr v => ret v
  end.

Definition response_json (r : Response) : M (list (dict string)) :=
  match json r with
  | inl msg => raise JSONDecodeError msg
  | inr data => ret data
  end.

(** *** get_org_repos *)

Definition listing_url (org : string) (page : nat) : string :=
  "https://api.github.com/orgs/" ++ org ++ "/repos?per_page=100&page="
    ++ str_of_nat page.

(** [for repo_data in data: repos.append(repo_data["full_name"])].
    [repos] is extended in place: the names appended before a KeyError
    stay in it. *)
Fixpoint append_full_names (data : list (dict string)) (repos : list string)
  : list string * option Exn :=
  match data with
  | [] => (repos, None)
  | repo_data :: rest =>
      match dict_get "full_name" repo_data with
      | Some name => append_full_names rest (repos ++ [name])%list
      | None => (repos, Some (mkExn KeyError "'full_name'"))
      end
  end.

Inductive Ctl : Type := Break | Continue.

(** The [while True] loop, from the state ([repos], [page]).  The
    [except Exception] clause sees [repos] as the [try] block left it. *)
Fixpoint get_org_repos_loop (fuel : nat) (org : string)
    (repos : list string) (page : nat) : M (list string) :=
  match fuel with
  | O => out_of_fuel
  | S fuel' =>
      let url := listing_url org page in
      let handler (repos : list string) (e : Exn) : M (Ctl * list string) :=
        print ("Error fetching repos for " ++ org ++ ": " ++ exn_str e) ;;;
        ret (Break, repos) in
      st <- try_except
              (response <- requests_get url ;;
               raise_for_status url response ;;;
               data <- response_json response ;;
               match data with
               | [] => ret (Break, repos)
               | _ =>
                   match append_full_names data repos with
                   | (repos', None) => ret (Continue, repos')
                   | (repos', Some e) => handler repos' e
                   end
               end)
              except_Exception (handler repos) ;;
      match st with
      | (Break, repos') => ret repos'
      | (Continue, repos') => get_org_repos_loop fuel' org repos' (S page)
      end
  end.

Definition get_org_repos (fuel : nat) (org : string) : M (list string) :=
  get_org_repos_loop fuel org [] 1.

(** *** check_dep_in_repo *)

Definition manifest_url (repo branch : string) : string :=
  "https://raw.githubusercontent.com/" ++ repo ++ "/" ++ branch
    ++ "/package.json".

(** [data.get(key, default)]: only a dict has the method. *)
Definition value_get (data : Value) (key : string) (default : Value) : M Value :=
  match data with
  | VDict d =>
      ret (match dict_get key d with Some v => v | None => default end)
  | _ =>
      raise AttributeError
        ("'" ++ type_name data ++ "' object has no attribute 'get'")
  end.

(** One [**v] of a dict display: [v] has to be a mapping. *)
Definition unpack_into (acc : dict Value) (v : Value) : M (dict Value) :=
  match v with
  | VDict d => ret (dict_update acc d)
  | _ => raise TypeError ("'" ++ type_name v ++ "' object is not a mapping")
  end.

(** Returns [Some (repo, status)], or [None] where the Python function
    ends without a return statement. *)
Definition check_dep_in_repo (repo dep_prefix branch : string)
  : M (option (string * string)) :=
  let url := manifest_url repo branch in
  try_except
    (response <- requests_get url ;;
     if (status_code response =? 404)%Z then
       ret (Some (repo, "No package.json"))
     else
       raise_for_status url response ;;;
       if (status_code response =? 200)%Z then
         try_except
           (data <- json_loads (text response) ;;
            deps <- value_get data "dependencies" (VDict []) ;;
            dev_deps <- value_get data "devDependencies" (VDict []) ;;
            all_deps <- (acc <- unpack_into [] deps ;; unpack_into acc dev_deps) ;;
            if existsb (fun key => startswith key dep_prefix) (dict_keys all_deps)
            then ret (Some (repo, "Has " ++ dep_prefix))
            else ret (Some (repo, "No " ++ dep_prefix)))
           (except_ JSONDecodeError)
           (fun _ => ret (Some (repo, "Error")))
       else ret None)
    (except_ RequestException)
    (fun _ => ret (Some (repo, "Error"))).

(** *** main *)

(** [repo, status = future.result(); org_results[repo] = status]. *)
Definition store_result (org_results : dict string)
    (future : Res (option (string * string))) : M (dict string) :=
  r <- future_result future ;;
  match r with
  | Some (repo, status) => ret (dict_set repo status org_results)
  | None => raise TypeError "cannot unpack non-iterable NoneType object"
  end.

(** Lines 111-117: one probe per repository on the pool, the results
    stored as the futures complete.  A probe depends on its repository
    only, so the futures are listed here in their order of completion. *)
Definition scan_org (i : nat) (repos : list string) (dep_prefix branch : string)
  : M (dict string) :=
  futures <- map_M (fun repo => submit (check_dep_in_repo repo dep_prefix branch))
               (as_completed i repos) ;;
  fold_M store_result futures [].

(** Lines 99-119: the loop over the organizations, the i-th first. *)
Fixpoint scan_orgs (fuel i : nat) (orgs : list string) (dep_prefix branch : string)
    (all_results : dict (dict string)) : M (dict (dict string)) :=
  match orgs with
  | [] => ret all_results
  | org :: rest =>
      print (nl ++ "Fetching repositories for organization: " ++ org) ;;;
      repos <- get_org_repos fuel org ;;
      match repos with
      | [] =>
          print ("No repositories found for " ++ org) ;;;
          scan_orgs fuel (S i) rest dep_prefix branch all_results
      | _ =>
          print ("Found " ++ str_of_nat (List.length repos)
                   ++ " repositories. Checking for '" ++ dep_prefix ++ "'...") ;;;
          org_results <- scan_org i repos dep_prefix branch ;;
          scan_orgs fuel (S i) rest dep_prefix branch
            (dict_set org org_results all_results)
      end
  end.

Definition empty_groups (dep_prefix : string) : dict (list string) :=
  dict_of_list [("Has " ++ dep_prefix, []); ("No " ++ dep_prefix, []);
                ("No package.json", []); ("Error", [])].

(** [status_groups[status].append(repo)]. *)
Definition group_item (status_groups : dict (list string)) (item : string * string)
  : M (dict (list string)) :=
  let '(repo, status) := item in
  match dict_get status status_groups with
  | Some l => ret (dict_set status (l ++ [repo])%list status_groups)
  | None => raise KeyError ("'" ++ status ++ "'")
  end.

(** [for repo, status in sorted(results.items()): ...] from the four
    empty groups. *)
Definition group_by_status (dep_prefix : string) (results : dict string)
  : M (dict (list string)) :=
  fold_M group_item (sorted pair_lt results) (empty_groups dep_prefix).

(** Lines 122-138. *)
Definition print_report (dep_prefix : string) (all_results : dict (dict string))
  : M unit :=
  print (nl ++ "Final Results for '" ++ dep_prefix
           ++ "' (grouped by organization and status):") ;;;
  for_each all_results (fun '(org, results) =>
    print (nl ++ "Organization: " ++ org) ;;;
    status_groups <- group_by_status dep_prefix results ;;
    for_each status_groups (fun '(status, repos) =>
      match repos with
      | [] => ret tt
      | _ =>
          print ("  " ++ status ++ ":") ;;;
          for_each (sorted str_lt repos) (fun repo => print ("    " ++ repo))
      end)).

(** Lines 141-158. *)
Definition save_report (dep_prefix : string) (all_results : dict (dict string))
  : M unit :=
  open_output ;;;
  out_write ("Final Results for '" ++ dep_prefix
               ++ "' (grouped by organization and status):" ++ nl) ;;;
  for_each all_results (fun '(org, results) =>
    out_write (nl ++ "Organization: " ++ org ++ nl) ;;;
    status_groups <- group_by_status dep_prefix results ;;
    for_each status_groups (fun '(status, repos) =>
      match repos with
      | [] => ret tt
      | _ =>
          out_write ("  " ++ status ++ ":" ++ nl) ;;;
          for_each (sorted str_lt repos)
            (fun repo => out_write ("    " ++ repo ++ nl))
      end)).

(** [txt] is the text of the file at [txt_file], [None] when there is
    no such file. *)
Definition main (fuel : nat) (txt_file : string) (txt : option string)
    (dep_prefix branch : string) : M unit :=
  match txt with
  | None => print ("File not found: " ++ txt_file) ;;; sys_exit 1
  | Some content =>
      let orgs := map strip (filter (fun line => truthy (strip line))
                               (readlines content)) in
      match orgs with
      | [] => print "No organizations found in the file." ;;; sys_exit 1
      | _ =>
          all_results <- scan_orgs fuel 0 orgs dep_prefix branch [] ;;
          print_report dep_prefix all_results ;;;
          save_report dep_prefix all_results ;;;
          print (nl ++ "Results saved to output.txt")
      end
  end.

End Scanner.

(** ** The local checker: check_ag_grid_local.py

    The second script looks for the dependency in a project directory.
    It shares no code with the scanner; it meets other exceptions, and
    none of its handlers looks at the text of one, so an exception is
    modelled here by its class alone.  The file system is a function of
    the path: what [open(path, 'r', encoding='utf-8')] followed by a
    read of the whole file does.  [rglob dir pattern] lists, as strings,
    the paths [Path(dir).resolve().rglob(pattern)] yields. *)

Module LocalScan.

Inductive ExnType : Type :=
| FileNotFoundError
| OSError             (* another OSError: PermissionError, IsADirectoryError *)
| UnicodeDecodeError
| JSONDecodeError
| AttributeError
| TypeError.

Definition exn_eqb (a b : ExnType) : bool :=
  match a, b with
  | FileNotFoundError, FileNotFoundError
  | OSError, OSError
  | UnicodeDecodeError, UnicodeDecodeError
  | JSONDecodeError, JSONDecodeError
  | AttributeError, AttributeError
  | TypeError, TypeError => true
  | _, _ => false
  end.

Inductive Outcome (A : Type) : Type :=
| Returns (a : A)
| Raises (t : ExnType).
Arguments Returns {A} a.
Arguments Raises {A} t.

Definition bind {A B} (m : Outcome A) (k : A -> Outcome B) : Outcome B :=
  match m with
  | Returns a => k a
  | Raises t => Raises t
  end.

Declare Scope outcome_scope.
Delimit Scope outcome_scope with outcome.
Notation "x <- m ;; k" := (bind m (fun x => k))
  (at level 100, m at next level, right associativity) : outcome_scope.
Local Open Scope outcome_scope.

(** [try: body  except (classes): handler].  The classes named by the
    script have no subclass among the exceptions above. *)
Definition try_except {A} (body : Outcome A) (classes : list ExnType)
    (handler : Outcome A) : Outcome A :=
  match body with
  | Raises t => if existsb (exn_eqb t) classes then handler else Raises t
  | r => r
  end.

(** [keyword in content] on [str]. *)
Fixpoint str_in (keyword content : string) : bool :=
  prefix keyword content
  || match content with
     | EmptyString => false
     | String _ rest => str_in keyword rest
     end.

(** What a path holds for a reader of UTF-8 text. *)
Inductive FileState : Type :=
| NoFile                    (* open raises FileNotFoundError *)
| Denied                    (* open raises another OSError *)
| NotUtf8                   (* the read raises UnicodeDecodeError *)
| Text (content : string).  (* the decoded text *)

(** A result of the scan: [(file, found, message)]. *)
Definition Result : Type := string * bool * string.

(** Standard output: the arguments of [print], oldest first. *)
Definition Console (A : Type) : Type := list string -> Outcome A * list string.

Definition cret {A} (a : A) : Console A := fun out => (Returns a, out).

Definition cbind {A B} (m : Console A) (k : A -> Console B) : Console B :=
  fun out =>
    match m out with
    | (Returns a, out') => k a out'
    | (Raises t, out') => (Raises t, out')
    end.

Definition print (s : string) : Console unit :=
  fun out => (Returns tt, (out ++ [s])%list).

Definition lift {A} (o : Outcome A) : Console A := fun out => (o, out).

Declare Scope console_scope.
Delimit Scope console_scope with console.
Notation "x <- m ;; k" := (cbind m (fun x => k))
  (at level 100, m at next level, right associativity) : console_scope.
Notation "m ;;; k" := (cbind m (fun _ => k))
  (at level 100, right associativity) : console_scope.

(** [for x in l: acc = body acc x] in each of the two. *)
Fixpoint fold_O {A B} (body : B -> A -> Outcome B) (l : list A) (acc : B)
  : Outcome B :=
  match l with
  | [] => Returns acc
  | x :: t => acc' <- body acc x ;; fold_O body t acc'
  end.

Fixpoint fold_C {A B} (body : B -> A -> Console B) (l : list A) (acc : B)
  : Console B :=
  match l with
  | [] => cret acc
  | x :: t => (acc' <- body acc x ;; fold_C body t acc')%console
  end.

Section Checker.

Variable fs : string -> FileState.
Variable json_parse : string -> string + Value.
Variable rglob : string -> string -> list string.

(** [os.path.exists]. *)
Variable path_exists : string -> bool.

(** [with open(file_path, 'r', encoding='utf-8') as f: f.read()]. *)
Definition read_text (file_path : string) : Outcome string :=
  match fs file_path with
  | NoFile => Raises FileNotFoundError
  | Denied => Raises OSError
  | NotUtf8 => Raises UnicodeDecodeError
  | Text content => Returns content
  end.

(** [json.load(f)]. *)
Definition json_load (file_path : string) : Outcome Value :=
  content <- read_text file_path ;;
  match json_parse content with
  | inl _ => Raises JSONDecodeError
  | inr v => Returns v
  end.

Definition value_get (data : Value) (key : string) (default : Value)
  : Outcome Value :=
  match data with
  | VDict d => Returns (match dict_get key d with Some v => v | None => default end)
  | _ => Raises AttributeError
  end.

Definition unpack_into (acc : dict Value) (v : Value) : Outcome (dict Value) :=
  match v with
  | VDict d => Returns (dict_update acc d)
  | _ => Raises TypeError
  end.

(** The dict display evaluates and unpacks its first item before it
    evaluates the second. *)
Definition check_package_json (file_path dep_prefix : string)
  : Outcome (bool * string) :=
  try_except
    (data <- json_load file_path ;;
     dependencies <- value_get data "dependencies" (VDict []) ;;
     acc <- unpack_into [] dependencies ;;
     dev_dependencies <- value_get data "devDependencies" (VDict []) ;;
     deps <- unpack_into acc dev_dependencies ;;
     match find (fun key => startswith key dep_prefix) (dict_keys deps) with
     | Some key => Returns (true, "Found " ++ key ++ " in " ++ file_path)
     | None => Returns (false, "No " ++ dep_prefix ++ " in " ++ file_path)
     end)
    [JSONDecodeError; FileNotFoundError]
    (Returns (false, "Invalid or missing " ++ file_path)).

Definition default_keywords : list string :=
  ["ag-grid-community"; "ag-grid-enterprise"].

Definition check_file_content (file_path : string) (keywords : list string)
  : Outcome (bool * string) :=
  try_except
    (content <- read_text file_path ;;
     match find (fun keyword => str_in keyword content) keywords with
     | Some keyword => Returns (true, "Found " ++ keyword ++ " in " ++ file_path)
     | None => Returns (false, "No ag-grid reference in " ++ file_path)
     end)
    [UnicodeDecodeError; FileNotFoundError]
    (Returns (false, "Could not read " ++ file_path)).

(** [found, message = check file; results.append((file, found, message))]. *)
Definition check_and_append (check : string -> Outcome (bool * string))
    (results : list Result) (file : string) : Outcome (list Result) :=
  r <- check file ;;
  Returns (results ++ [(file, fst r, snd r)])%list.

Definition extensions : list string := ["*.html"; "*.js"; "*.jsx"; "*.ts"; "*.tsx"].

(** The two loops; [rglob] resolves [project_dir] itself. *)
Definition scan_project_directory (project_dir dep_prefix : string)
  : Outcome (list Result) :=
  results <- fold_O (check_and_append (fun file => check_package_json file dep_prefix))
               (rglob project_dir "package.json") [] ;;
  fold_O (fun results ext =>
            fold_O (check_and_append (fun file => check_file_content file default_keywords))
              (rglob project_dir ext) results)
    extensions results.

Local Open Scope console_scope.

Definition main (project_dir dep_prefix : string) : Console unit :=
  if negb (path_exists project_dir) then
    print ("Error: Directory " ++ project_dir ++ " does not exist")
  else
    print ("Scanning " ++ project_dir ++ " for ag-grid usage...") ;;;
    results <- lift (scan_project_directory project_dir dep_prefix) ;;
    print (nl ++ "Results:") ;;;
    found_any <- fold_C (fun (found_any : bool) (result : Result) =>
                           let '(file_path, found, message) := result in
                           if found then print ("[FOUND] " ++ message) ;;; cret true
                           else print ("[NOT FOUND] " ++ message) ;;; cret found_any)
                   results false ;;
    if negb found_any then print (nl ++ "No ag-grid usage found in the project.")
    else print (nl ++ "Warning: ag-grid usage detected. Check for potential vulnerabilities (e.g., GHSL-2025-082).").

End Checker.

End LocalScan.

(** ** A reader of JSON text

    The properties below hold for every [json_parse].  To run the script
    on concrete manifests, [JsonText.loads] reads JSON text the way
    [json.loads] does: the grammar of RFC 8259 plus the three non-finite
    number names, objects built key by key so that a repeated key keeps
    its first position and its last value.  Number tokens other than
    integers are kept as text, and a [\u] escape must stay below 256.
    The text of the error is never looked at by the script; a short one
    stands for it. *)

Module JsonText.

Definition is_ws (c : ascii) : bool :=
  Ascii.eqb c " " || Ascii.eqb c "009" || Ascii.eqb c "010" || Ascii.eqb c "013".

Fixpoint skip_ws (s : string) : string :=
  match s with
  | String c r => if is_ws c then skip_ws r else s
  | EmptyString => EmptyString
  end.

Definition is_digit (c : ascii) : bool :=
  let n := nat_of_ascii c in ((48 <=? n) && (n <=? 57))%nat.

Fixpoint span (p : ascii -> bool) (s : string) : string * string :=
  match s with
  | String c r =>
      if p c then let (a, b) := span p r in (String c a, b)
      else (EmptyString, s)
  | EmptyString => (EmptyString, EmptyString)
  end.

Fixpoint strip_prefix (p s : string) : option string :=
  match p, s with
  | EmptyString, _ => Some s
  | String a p', String b s' => if Ascii.eqb a b then strip_prefix p' s' else None
  | _, _ => None
  end.

Definition hex_digit (c : ascii) : option nat :=
  let n := nat_of_ascii c in
  if ((48 <=? n) && (n <=? 57))%nat then Some (n - 48)
  else if ((65 <=? n) && (n <=? 70))%nat then Some (n - 55)
  else if ((97 <=? n) && (n <=? 102))%nat then Some (n - 87)
  else None.

Definition unescape (c : ascii) : option ascii :=
  if Ascii.eqb c "034" then Some "034"%char
  else if Ascii.eqb c "092" then Some "092"%char
  else if Ascii.eqb c "/" then Some "/"%char
  else if Ascii.eqb c "b" then Some "008"%char
  else if Ascii.eqb c "f" then Some "012"%char
  else if Ascii.eqb c "n" then Some "010"%char
  else if Ascii.eqb c "r" then Some "013"%char
  else if Ascii.eqb c "t" then Some "009"%char
  else None.

Definition cons_char (c : ascii) (r : option (string * string))
  : option (string * string) :=
  match r with
  | Some (a, b) => Some (String c a, b)
  | None => None
  end.

(** The characters after an opening quote, up to the closing one. *)
Fixpoint string_body (s : string) : option (string * string) :=
  match s with
  | EmptyString => None
  | String c r =>
      if Ascii.eqb c "034" then Some (EmptyString, r)
      else if Ascii.eqb c "092" then
        match r with
        | String e r1 =>
            match unescape e with
            | Some c' => cons_char c' (string_body r1)
            | None =>
                match r1 with
                | String h1 (String h2 (String h3 (String h4 r2))) =>
                    if Ascii.eqb e "u" then
                      match hex_digit h1, hex_digit h2, hex_digit h3, hex_digit h4 with
                      | Some 0, Some 0, Some a, Some b =>
                          cons_char (ascii_of_nat (16 * a + b)) (string_body r2)
                      | _, _, _, _ => None
                      end
                    else None
                | _ => None
                end
            end
        | EmptyString => None
        end
      else if (nat_of_ascii c <? 32)%nat then None
      else cons_char c (string_body r)
  end.

Definition digits_value (ds : string) : Z :=
  fold_left (fun z c => (10 * z + Z.of_nat (nat_of_ascii c - 48))%Z)
    (list_ascii_of_string ds) 0%Z.

(** A number token at the head of [s]. *)
Definition number (s : string) : option (Value * string) :=
  let (neg, s1) := match s with
                   | String "-" r => (true, r)
                   | _ => (false, s)
                   end in
  let (int_part, s2) :=
    match s1 with
    | String "0" r => ("0", r)
    | _ => span is_digit s1
    end in
  if int_part =? EmptyString then None else
  let (frac, s3) :=
    match s2 with
    | String "." r =>
        let (ds, r') := span is_digit r in
        if ds =? EmptyString then (EmptyString, s2) else ("." ++ ds, r')
    | _ => (EmptyString, s2)
    end in
  let (exp, s4) :=
    match s3 with
    | String e r =>
        if Ascii.eqb e "e" || Ascii.eqb e "E" then
          let (sign, r1) := match r with
                            | String "-" r1 => ("-", r1)
                            | String "+" r1 => ("+", r1)
                            | _ => (EmptyString, r)
                            end in
          let (ds, r2) := span is_digit r1 in
          if ds =? EmptyString then (EmptyString, s3) else (String e (sign ++ ds), r2)
        else (EmptyString, s3)
    | EmptyString => (EmptyString, s3)
    end in
  if (frac =? EmptyString) && (exp =? EmptyString) then
    Some (VInt (if neg then - digits_value int_part else digits_value int_part)%Z, s4)
  else
    Some (VFloat ((if neg then "-" else EmptyString) ++ int_part ++ frac ++ exp), s4).

Definition literal (s : string) : option (Value * string) :=
  match strip_prefix "null" s with Some r => Some (VNone, r) | None =>
  match strip_prefix "true" s with Some r => Some (VBool true, r) | None =>
  match strip_prefix "false" s with Some r => Some (VBool false, r) | None =>
  match strip_prefix "NaN" s with Some r => Some (VFloat "NaN", r) | None =>
  match strip_prefix "Infinity" s with Some r => Some (VFloat "Infinity", r) | None =>
  match strip_prefix "-Infinity" s with Some r => Some (VFloat "-Infinity", r) | None =>
  number s
  end end end end end end.

(** [value] reads a value at the head of [s]; [elements] and [members]
    read the rest of an array and of an object after their first
    bracket, [acc] holding what was read so far. *)
Fixpoint value (fuel : nat) (s : string) : option (Value * string) :=
  match fuel with
  | O => None
  | S fuel' =>
      match s with
      | String "[" r =>
          match skip_ws r with
          | String "]" r' => Some (VList [], r')
          | r' => elements fuel' r' []
          end
      | String "{" r =>
          match skip_ws r with
          | String "}" r' => Some (VDict [], r')
          | r' => members fuel' r' []
          end
      | String "034" r =>
          match string_body r with
          | Some (str, r') => Some (VStr str, r')
          | None => None
          end
      | _ => literal s
      end
  end
with elements (fuel : nat) (s : string) (acc : list Value)
  : option (Value * string) :=
  match fuel with
  | O => None
  | S fuel' =>
      match value fuel' s with
      | Some (v, r) =>
          match skip_ws r with
          | String "]" r' => Some (VList (acc ++ [v]), r')
          | String "," r' => elements fuel' (skip_ws r') (acc ++ [v])
          | _ => None
          end
      | None => None
      end
  end
with members (fuel : nat) (s : string) (acc : dict Value)
  : option (Value * string) :=
  match fuel with
  | O => None
  | S fuel' =>
      match s with
      | String "034" r =>
          match string_body r with
          | Some (key, r1) =>
              match skip_ws r1 with
              | String ":" r2 =>
                  match value fuel' (skip_ws r2) with
                  | Some (v, r3) =>
                      match skip_ws r3 with
                      | String "}" r' => Some (VDict (dict_set key v acc), r')
                      | String "," r' =>
                          members fuel' (skip_ws r') (dict_set key v acc)
                      | _ => None
                      end
                  | None => None
                  end
              | _ => None
              end
          | None => None
          end
      | _ => None
      end
  end.

Definition loads (s : string) : string + Value :=
  match value (2 * String.length s + 2) (skip_ws s) with
  | Some (v, r) =>
      if skip_ws r =? EmptyString then inr v else inl "Extra data"
  | None => inl "Expecting value"
  end.

End JsonText.

(** JSON text is written below with apostrophes for its double quotes. *)
Definition dq (s : string) : string :=
  string_of_list_ascii
    (map (fun c => if Ascii.eqb c "'" then "034"%char else c)
       (list_ascii_of_string s)).

(** ** Notions used in the statements *)

(** *** Worlds *)

(** The world after one more request, after one more [print], after
    more [print]s, and after output.txt was opened and written. *)
Definition logged (url : string) (w : World) : World :=
  mkWorld (stdout w) (requests w ++ [url]) (output_txt w).

Definition printed (line : string) (w : World) : World :=
  mkWorld (stdout w ++ [line]) (requests w) (output_txt w).

Definition shown (lines : list string) (w : World) : World :=
  mkWorld (stdout w ++ lines) (requests w) (output_txt w).

Definition saved (chunks : list string) (w : World) : World :=
  mkWorld (stdout w) (requests w) (Some chunks).

(** The world after the probes of [order] on [branch]. *)
Definition probed (branch : string) (order : list string) (w : World) : World :=
  mkWorld (stdout w)
    (requests w ++ map (fun repo => manifest_url repo branch) order)
    (output_txt w).

(** A computation that only appends [out] to the console and [reqs] to
    the request log, and ends with [r]. *)
Definition appends {A} (m : M A) (r : Res A) (out reqs : list string) : Prop :=
  forall w, m w = (r, mkWorld (stdout w ++ out) (requests w ++ reqs) (output_txt w)).

(** *** The probe *)

(** The four status strings a probe can report for a prefix. *)
Definition statuses (dep_prefix : string) : list string :=
  ["Has " ++ dep_prefix; "No " ++ dep_prefix; "No package.json"; "Error"].

(** How a probe ends, the request log aside. *)
Definition probe (remote : string -> HttpResult) (json_parse : string -> string + Value)
    (repo dep_prefix branch : string) : Res (option (string * string)) :=
  fst (check_dep_in_repo remote json_parse repo dep_prefix branch world0).

(** The status a probe returns, if it returns a pair. *)
Definition probe_status (remote : string -> HttpResult)
    (json_parse : string -> string + Value) (dep_prefix branch repo : string)
  : option string :=
  match probe remote json_parse repo dep_prefix branch with
  | Val (Some (_, status)) => Some status
  | _ => None
  end.

(** The same, with the empty string where there is none. *)
Definition status_of (remote : string -> HttpResult)
    (json_parse : string -> string + Value) (dep_prefix branch repo : string)
  : string :=
  match probe_status remote json_parse dep_prefix branch repo with
  | Some status => status
  | None => EmptyString
  end.

(** A repository whose probe returned a pair. *)
Definition has_status (remote : string -> HttpResult)
    (json_parse : string -> string + Value) (dep_prefix branch repo : string)
  : Prop :=
  probe_status remote json_parse dep_prefix branch repo <> None.

(** The name-to-version mapping a manifest object declares under [key]:
    empty when the key is absent, none when the entry is not an object. *)
Definition declared (manifest : dict Value) (key : string) : option (dict Value) :=
  match dict_get key manifest with
  | None => Some []
  | Some (VDict m) => Some m
  | Some _ => None
  end.

(** *** The lister *)

(** How a listing ends, the console and the request log aside. *)
Definition listing (remote : string -> HttpResult) (fuel : nat) (org : string)
  : Res (list string) :=
  fst (get_org_repos remote fuel org world0).

(** An organization whose listing returned at least one repository. *)
Definition has_repos (remote : string -> HttpResult) (fuel : nat) (org : string)
  : bool :=
  match listing remote fuel org with
  | Val (_ :: _) => true
  | _ => false
  end.

(** A listing answer that passes [raise_for_status] and decodes to [data]. *)
Definition page_ok (res : HttpResult) (data : list (dict string)) : Prop :=
  exists r, res = Returned r /\ ~ (400 <= status_code r < 600)%Z
            /\ json r = inr data.

(** A listing answer that makes the page fetch fail with the text [msg]:
    no answer, an error status, or a body that does not decode. *)
Definition page_failed (url : string) (res : HttpResult) (msg : string) : Prop :=
  res = Failed msg
  \/ (exists r, res = Returned r
                /\ forall w, raise_for_status url r w = (Raised (mkExn HTTPError msg), w))
  \/ (exists r, res = Returned r
                /\ (forall w, raise_for_status url r w = (Val tt, w))
                /\ json r = inl msg).

(** The line the lister prints when a page fetch fails. *)
Definition error_line (org line : string) : Prop :=
  exists msg, line = "Error fetching repos for " ++ org ++ ": " ++ msg.

(** *** The coordinator and the results *)

(** The dictionary the coordinator ends with when the probes complete in
    the order [order] and report [status_of]. *)
Definition collected (status_of : string -> string) (order : list string)
    (acc : dict string) : dict string :=
  fold_left (fun d repo => dict_set repo (status_of repo) d) order acc.

(** The items of a results dictionary that carry status [k]. *)
Definition with_status (k : string) (item : string * string) : bool := snd item =? k.

(** The keys of a dictionary after one more assignment, and after one
    assignment per element of a list, starting empty: the elements in
    the order of their first occurrence. *)
Definition add_key (ks : list string) (k : string) : list string :=
  if existsb (String.eqb k) ks then ks else (ks ++ [k])%list.

Definition first_seen (l : list string) : list string := fold_left add_key l [].

(** Results of two runs that agree up to the order of the entries of
    each organization. *)
Definition same_entries (a b : string * dict string) : Prop :=
  fst a = fst b /\ Permutation (snd a) (snd b).

(** Two scans that end alike: with such results, or both with an
    exception, the same exit code, or both out of fuel. *)
Definition scans_agree (r1 r2 : Res (dict (dict string))) : Prop :=
  match r1, r2 with
  | Val a1, Val a2 => Forall2 same_entries a1 a2
  | Raised _, Raised _ => True
  | SysExit c1, SysExit c2 => c1 = c2
  | OutOfFuel, OutOfFuel => True
  | _, _ => False
  end.

(** *** The report *)

(** The first line of the report, and the heading of an organization. *)
Definition header (dep_prefix : string) : string :=
  "Final Results for '" ++ dep_prefix ++ "' (grouped by organization and status):".

Definition heading (org : string) : string := nl ++ "Organization: " ++ org.

Definition not_heading (line : string) : Prop := forall org, line <> heading org.

(** A printed line as it is written to a file. *)
Definition with_nl (line : string) : string := line ++ nl.

(** The lines of the report after the first one: the heading of an
    organization of [orgs], or an indented line. *)
Definition body_line (orgs : list string) (line : string) : Prop :=
  (exists org, In org orgs /\ line = heading org)
  \/ exists rest, line = " " ++ rest.

(** A printed line that is the heading of an organization. *)
Definition is_heading (line : string) : bool :=
  startswith line (nl ++ "Organization: ").

(** [mirrors P p s]: what [p] prints, line by line, is what [s] appends
    to the open file, each line with its newline; every line satisfies
    [P], and both end the same way. *)
Definition mirrors (P : string -> Prop) (p s : M unit) : Prop :=
  exists r lines,
    Forall P lines
    /\ (forall w, p w = (r, shown lines w))
    /\ (forall w chunks, output_txt w = Some chunks ->
          s w = (r, saved (chunks ++ map with_nl lines) w)).

(** *** The run *)

(** The organizations a run scans: the lines of the file, stripped, the
    blank ones left out. *)
Definition org_names (content : string) : list string :=
  map strip (filter (fun line => truthy (strip line)) (readlines content)).

(** Results in which every repository has one of the four statuses. *)
Definition valid_results (dep_prefix : string) (all_results : dict (dict string)) : Prop :=
  forall org results repo status,
    In (org, results) all_results -> In (repo, status) results ->
    In status (statuses dep_prefix).

(** The exceptions a probe lets through. *)
Definition escapes (e : Exn) : Prop :=
  exn_type e = AttributeError \/ exn_type e = TypeError.

(** The lines of the report for one status of an organization, for an
    organization, and for all of them. *)
Definition group_lines (results : dict string) (status : string) : list string :=
  match map fst (filter (with_status status) results) with
  | [] => []
  | repos =>
      ("  " ++ status ++ ":") :: map (fun repo => "    " ++ repo) (sorted str_lt repos)
  end.

Definition org_lines (dep_prefix : string) (entry : string * dict string)
  : list string :=
  heading (fst entry)
    :: List.concat (map (group_lines (snd entry)) (first_seen (statuses dep_prefix))).

Definition report_body (dep_prefix : string) (all_results : dict (dict string))
  : list string :=
  List.concat (map (org_lines dep_prefix) all_results).

(** *** The local checker *)

(** A result that carries its file and what the check of it returned. *)
Definition entry_of (check : string -> LocalScan.Outcome (bool * string))
    (file : string) (result : LocalScan.Result) : Prop :=
  fst (fst result) = file
  /\ check file = LocalScan.Returns (snd (fst result), snd result).

(** The line the local checker prints for a result, and its last line. *)
Definition result_line (result : LocalScan.Result) : string :=
  if snd (fst result) then "[FOUND] " ++ snd result
  else "[NOT FOUND] " ++ snd result.

Definition summary_line (found_any : bool) : string :=
  if found_any then
    nl ++ "Warning: ag-grid usage detected. Check for potential vulnerabilities (e.g., GHSL-2025-082)."
  else nl ++ "No ag-grid usage found in the project.".

(** ** Remote states used as examples *)

(** Answers of the two hosts. *)
Definition page (data : list (dict string)) : HttpResult :=
  Returned (mkResponse 200 "OK" EmptyString (inr data)).

Definition raw (status : Z) (reason body : string) : HttpResult :=
  Returned (mkResponse status reason body (inl "Expecting value")).

Definition repo_record (name : string) : dict string := [("full_name", name)].

(** The scenario of the specification: organization acme with three
    repositories; a declares ag-grid-community, b has no manifest, the
    fetch of c's manifest times out.  No other organization can be
    listed. *)
Definition acme_remote (url : string) : HttpResult :=
  if url =? listing_url "acme" 1 then
    page [repo_record "acme/a"; repo_record "acme/b"; repo_record "acme/c"]
  else if url =? listing_url "acme" 2 then page []
  else if url =? manifest_url "acme/a" "main" then
    raw 200 "OK" (dq "{'dependencies':{'ag-grid-community':'1.0.0'}}")
  else if url =? manifest_url "acme/b" "main" then
    raw 404 "Not Found" "404: Not Found"
  else Failed "Read timed out.".

(** What the scan of acme collects. *)
Definition acme_results : dict (dict string) :=
  [("acme", [("acme/a", "Has ag-grid"); ("acme/b", "No package.json");
             ("acme/c", "Error")])].

(** Two completion orders. *)
Definition in_order (i : nat) (repos : list string) : list string := repos.
Definition reversed (i : nat) (repos : list string) : list string := List.rev repos.

(** An organization with 237 repositories, listed on pages of 100. *)
Definition big_names (first count : nat) : list string :=
  map (fun n => "big/repo" ++ str_of_nat n) (seq first count).

Definition big_pages : list (list string) :=
  [big_names 0 100; big_names 100 100; big_names 200 37].

Definition big_remote (url : string) : HttpResult :=
  if url =? listing_url "big" 1 then page (map repo_record (big_names 0 100))
  else if url =? listing_url "big" 2 then page (map repo_record (big_names 100 100))
  else if url =? listing_url "big" 3 then page (map repo_record (big_names 200 37))
  else if url =? listing_url "big" 4 then page []
  else Failed "Connection refused".

(** A manifest that is valid JSON but not an object, and an answer with
    a success status other than 200. *)
Definition array_manifest : HttpResult := raw 200 "OK" "[]".
Definition no_content : HttpResult := raw 204 "No Content" EmptyString.

(** Organization acme with one repository whose manifest is [[]], and
    the same with a status 204 for that manifest. *)
Definition array_remote (url : string) : HttpResult :=
  if url =? listing_url "acme" 1 then page [repo_record "acme/a"]
  else if url =? listing_url "acme" 2 then page []
  else if url =? manifest_url "acme/a" "main" then array_manifest
  else Failed "Read timed out.".

Definition no_content_remote (url : string) : HttpResult :=
  if url =? manifest_url "acme/a" "main" then no_content else array_remote url.

(** An organization whose second page cannot be fetched, and one whose
    second record has no full_name. *)
Definition flaky_remote (url : string) : HttpResult :=
  if url =? listing_url "acme" 1 then page [repo_record "acme/a"; repo_record "acme/b"]
  else raw 502 "Bad Gateway" EmptyString.

Definition nameless_remote (url : string) : HttpResult :=
  if url =? listing_url "acme" 1 then
    page [repo_record "acme/a"; [("name", "b")]; repo_record "acme/c"]
  else page [].

(** ** A project directory used as an example *)

(** A manifest that declares the dependency, a page without it, a
    script that is not UTF-8 and a module that imports the enterprise
    package. *)
Definition demo_fs (path : string) : LocalScan.FileState :=
  if path =? "/app/package.json" then
    LocalScan.Text
      (dq "{'dependencies':{'react':'18.2.0','ag-grid-react':'31.0.0'},'devDependencies':{'ag-grid-community':'31.0.0'}}")
  else if path =? "/app/index.html" then LocalScan.Text "<html></html>"
  else if path =? "/app/logo.js" then LocalScan.NotUtf8
  else if path =? "/app/src/grid.ts" then
    LocalScan.Text "import { Grid } from 'ag-grid-enterprise';"
  else LocalScan.NoFile.

Definition demo_rglob (project_dir pattern : string) : list string :=
  if project_dir =? "/app" then
    if pattern =? "package.json" then ["/app/package.json"]
    else if pattern =? "*.html" then ["/app/index.html"]
    else if pattern =? "*.js" then ["/app/logo.js"]
    else if pattern =? "*.ts" then ["/app/src/grid.ts"]
    else []
  else [].

(** * Properties *)

(** ** Reading JSON text *)

Example loads_manifest :
  JsonText.loads (dq "{'dependencies':{'ag-grid-community':'1.0.0'}}")
  = inr (VDict [("dependencies", VDict [("ag-grid-community", VStr "1.0.0")])]).
Proof. reflexivity. Qed.

Example loads_array : JsonText.loads "[]" = inr (VList []).
Proof. reflexivity. Qed.

Example loads_not_json : JsonText.loads "<html>" = inl "Expecting value".
Proof. reflexivity. Qed.

Example loads_repeated_key :
  JsonText.loads (dq " { 'a' : [1, -2.5e3, true, null, 'x'], 'b': {}, 'a': 0 } ")
  = inr (VDict [("a", VInt 0); ("b", VDict [])]).
Proof. reflexivity. Qed.

(** ** Strings and dictionaries *)

Lemma append_assoc (a b c : string) : (a ++ b) ++ c = a ++ (b ++ c).
Proof. induction a as [|x a IH]; simpl; [reflexivity | now rewrite IH]. Qed.

Lemma startswith_spec (key p : string) :
  startswith key p = true <-> exists rest, key = p ++ rest.
Proof.
  unfold startswith. revert key.
  induction p as [|c p IH]; intros key.
  - split; [intros _; now exists key | intros _; now destruct key].
  - destruct key as [|k key]; simpl.
    + split; [discriminate | intros [rest H]; discriminate].
    + destruct (ascii_dec c k) as [->|Hne].
      * rewrite IH. split; intros [rest H]; exists rest;
          [now rewrite H | now inversion H].
      * split; [discriminate | intros [rest H]; inversion H; congruence].
Qed.

Lemma dict_keys_set {V} (k : string) (v : V) (d : dict V) :
  forall x, In x (dict_keys (dict_set k v d)) <-> x = k \/ In x (dict_keys d).
Proof.
  induction d as [|[k' v'] d IH]; intros x; simpl.
  - intuition.
  - destruct (String.eqb_spec k' k) as [->|Hne]; simpl.
    + intuition.
    + rewrite IH. intuition.
Qed.

Lemma dict_keys_update {V} (items d : dict V) :
  forall x, In x (dict_keys (dict_update d items))
            <-> In x (dict_keys d) \/ In x (dict_keys items).
Proof.
  unfold dict_update. revert d.
  induction items as [|[k v] items IH]; intros d x; simpl.
  - intuition.
  - rewrite IH, dict_keys_set. intuition.
Qed.

(** ** The probe *)

Lemma raise_for_status_passes (url : string) (r : Response) (w : World) :
  ~ (400 <= status_code r < 600)%Z ->
  raise_for_status url r w = (Val tt, w).
Proof.
  intros Hs. unfold raise_for_status.
  destruct ((400 <=? status_code r) && (status_code r <? 500))%Z eqn:E1.
  { apply andb_true_iff in E1. lia. }
  destruct ((500 <=? status_code r) && (status_code r <? 600))%Z eqn:E2.
  { apply andb_true_iff in E2. lia. }
  reflexivity.
Qed.

Section ProbeFacts.

Variable remote : string -> HttpResult.
Variable json_parse : string -> string + Value.
Variables repo dep_prefix branch : string.

(** A transport failure is reported as Error. *)
Lemma probe_transport_failure (msg : string) (w : World) :
  remote (manifest_url repo branch) = Failed msg ->
  check_dep_in_repo remote json_parse repo dep_prefix branch w = (Val (Some (repo, "Error")), logged (manifest_url repo branch) w).
Proof.
  intros H. unfold check_dep_in_repo, try_except, bind, requests_get.
  rewrite H. reflexivity.
Qed.

(** A status from 400 to 599 other than 404 is reported as Error. *)
Lemma probe_http_error (r : Response) (w : World) :
  remote (manifest_url repo branch) = Returned r ->
  (400 <= status_code r < 600)%Z -> status_code r <> 404%Z ->
  check_dep_in_repo remote json_parse repo dep_prefix branch w = (Val (Some (repo, "Error")), logged (manifest_url repo branch) w).
Proof.
  intros H Hs Hn. unfold check_dep_in_repo, try_except, bind, requests_get.
  rewrite H.
  destruct (Z.eqb_spec (status_code r) 404) as [E|_]; [contradiction|].
  unfold raise_for_status.
  destruct ((400 <=? status_code r) && (status_code r <? 500))%Z eqn:E1;
    [reflexivity|].
  destruct ((500 <=? status_code r) && (status_code r <? 600))%Z eqn:E2;
    [reflexivity|].
  exfalso. apply andb_false_iff in E1, E2. lia.
Qed.

Lemma declared_get (manifest m : dict Value) (key : string) :
  declared manifest key = Some m ->
  match dict_get key manifest with Some v => v | None => VDict [] end = VDict m.
Proof.
  unfold declared. destruct (dict_get key manifest) as [v|]; [|congruence].
  destruct v; congruence.
Qed.

(** A returned pair carries the probed repository and one of the four
    status strings. *)
Lemma probe_returns_status (w w' : World) (repo' status : string) :
  check_dep_in_repo remote json_parse repo dep_prefix branch w = (Val (Some (repo', status)), w') ->
  repo' = repo /\ In status (statuses dep_prefix).
Proof.
  assert (T : forall st, In st (statuses dep_prefix) ->
              (Val (Some (repo, st)), logged (manifest_url repo branch) w)
              = (Val (Some (repo', status)), w') ->
              repo' = repo /\ In status (statuses dep_prefix)).
  { intros st Hin H. inversion H; subst. auto. }
  assert (S1 : In ("Has " ++ dep_prefix) (statuses dep_prefix)) by (simpl; auto).
  assert (S2 : In ("No " ++ dep_prefix) (statuses dep_prefix)) by (simpl; auto).
  assert (S3 : In "No package.json" (statuses dep_prefix)) by (simpl; auto).
  assert (S4 : In "Error" (statuses dep_prefix)) by (simpl; auto 6).
  unfold check_dep_in_repo, try_except, bind, requests_get.
  fold (logged (manifest_url repo branch) w).
  destruct (remote (manifest_url repo branch)) as [msg|r]; simpl.
  - now apply T.
  - destruct (status_code r =? 404)%Z; [now apply T|].
    unfold raise_for_status.
    destruct ((400 <=? status_code r) && (status_code r <? 500))%Z;
      [now apply T|].
    destruct ((500 <=? status_code r) && (status_code r <? 600))%Z;
      [now apply T|].
    simpl. destruct (status_code r =? 200)%Z; [|discriminate].
    unfold json_loads. destruct (json_parse (text r)) as [msg|data]; simpl.
    + now apply T.
    + destruct data; simpl; try discriminate.
      destruct (match dict_get "dependencies" d with
                | Some v => v | None => VDict [] end); simpl; try discriminate.
      destruct (match dict_get "devDependencies" d with
                | Some v => v | None => VDict [] end); simpl; try discriminate.
      match goal with |- context [existsb ?f ?l] => destruct (existsb f l) end;
        now apply T.
Qed.

(** C3: a manifest fetch answered with status 404 is classified as
    "No package.json" whatever the body is, and the rule comes first:
    [raise_for_status], which turns the other statuses from 400 to 599
    into Error, would raise for this response too. *)
Theorem probe_404_no_manifest (r : Response) (w : World) :
  remote (manifest_url repo branch) = Returned r ->
  status_code r = 404%Z ->
  check_dep_in_repo remote json_parse repo dep_prefix branch w
  = (Val (Some (repo, "No package.json")), logged (manifest_url repo branch) w)
  /\ exists e, fst (raise_for_status (manifest_url repo branch) r w) = Raised e
               /\ issubclass (exn_type e) RequestException = true.
Proof.
  intros H Hs. split.
  - unfold check_dep_in_repo, try_except, bind, requests_get.
    rewrite H, Hs. reflexivity.
  - unfold raise_for_status. rewrite Hs. simpl. eexists. split; reflexivity.
Qed.

(** C4: a manifest fetch answered with status 200 and a body that
    [json.loads] rejects is classified as Error, which is never the
    status "No <prefix>". *)
Theorem probe_200_invalid_json (r : Response) (msg : string) (w : World) :
  remote (manifest_url repo branch) = Returned r ->
  status_code r = 200%Z ->
  json_parse (text r) = inl msg ->
  check_dep_in_repo remote json_parse repo dep_prefix branch w
  = (Val (Some (repo, "Error")), logged (manifest_url repo branch) w)
  /\ "Error" <> "No " ++ dep_prefix.
Proof.
  intros H Hs Hj. split; [|discriminate].
  unfold check_dep_in_repo, try_except, bind, requests_get, json_loads.
  rewrite H, Hs. cbn [Z.eqb Pos.eqb]. cbv beta iota.
  rewrite raise_for_status_passes, Hj by lia. reflexivity.
Qed.

(** The prefix rule of C5, where the probe keeps it: for a status-200
    body that parses to an object whose "dependencies" and
    "devDependencies" entries, where present, are objects, the probe
    reports "Has <prefix>" exactly when some key of one of the two
    objects is the prefix followed by anything, and "No <prefix>"
    otherwise; values play no part.  The test is [startswith]: it
    accepts ag-grid-community and ag-gridx for ag-grid and rejects
    AG-GRID. *)
Theorem probe_prefix_match (r : Response) (manifest deps dev_deps : dict Value)
    (w : World) :
  remote (manifest_url repo branch) = Returned r ->
  status_code r = 200%Z ->
  json_parse (text r) = inr (VDict manifest) ->
  declared manifest "dependencies" = Some deps ->
  declared manifest "devDependencies" = Some dev_deps ->
  let matches := exists key rest,
      (In key (dict_keys deps) \/ In key (dict_keys dev_deps))
      /\ key = dep_prefix ++ rest in
  let result := check_dep_in_repo remote json_parse repo dep_prefix branch w in
  (matches ->
   result = (Val (Some (repo, "Has " ++ dep_prefix)), logged (manifest_url repo branch) w))
  /\ (~ matches ->
      result = (Val (Some (repo, "No " ++ dep_prefix)), logged (manifest_url repo branch) w))
  /\ (fst result = Val (Some (repo, "Has " ++ dep_prefix)) <-> matches)
  /\ startswith "ag-grid-community" "ag-grid" = true
  /\ startswith "AG-GRID" "ag-grid" = false
  /\ startswith "ag-gridx" "ag-grid" = true.
Proof.
  intros H Hs Hj Hd Hv matches result.
  assert (E : result
              = (Val (Some (repo,
                   if existsb (fun key => startswith key dep_prefix)
                        (dict_keys (dict_update (dict_update [] deps) dev_deps))
                   then "Has " ++ dep_prefix else "No " ++ dep_prefix)),
                 logged (manifest_url repo branch) w)).
  { unfold result, check_dep_in_repo, try_except, bind, requests_get, json_loads.
    rewrite H, Hs. cbn [Z.eqb Pos.eqb]. cbv beta iota.
    rewrite raise_for_status_passes, Hj by lia. simpl.
    rewrite (declared_get _ _ _ Hd), (declared_get _ _ _ Hv). simpl.
    match goal with |- context [existsb ?f ?l] => destruct (existsb f l) end;
      reflexivity. }
  assert (M : existsb (fun key => startswith key dep_prefix)
                (dict_keys (dict_update (dict_update [] deps) dev_deps)) = true
              <-> matches).
  { rewrite existsb_exists. unfold matches. split.
    - intros [key [Hin Hp]]. apply startswith_spec in Hp. destruct Hp as [rest ->].
      exists (dep_prefix ++ rest), rest. split; [|reflexivity].
      apply dict_keys_update in Hin. destruct Hin as [Hin|Hin]; [|now right].
      apply dict_keys_update in Hin. destruct Hin as [[]|Hin]. now left.
    - intros [key [rest [Hin ->]]]. exists (dep_prefix ++ rest). split.
      + apply dict_keys_update. destruct Hin as [Hin|Hin]; [left|now right].
        apply dict_keys_update. now right.
      + apply startswith_spec. now exists rest. }
  repeat split; try reflexivity.
  - intros Hm. apply M in Hm. rewrite E, Hm. reflexivity.
  - intros Hm. rewrite E.
    destruct (existsb _ _) eqn:Ex; [exfalso; apply Hm, M; reflexivity | reflexivity].
  - rewrite E. simpl. intros Hr.
    destruct (existsb _ _) eqn:Ex; [now apply M | discriminate].
  - intros Hm. apply M in Hm. rewrite E, Hm. reflexivity.
Qed.

End ProbeFacts.

Lemma probe_404_no_manifest_witness :
  check_dep_in_repo acme_remote JsonText.loads "acme/b" "ag-grid" "main" world0
  = (Val (Some ("acme/b", "No package.json")),
     logged (manifest_url "acme/b" "main") world0)
  /\ exists e,
      fst (raise_for_status (manifest_url "acme/b" "main")
             (mkResponse 404 "Not Found" "404: Not Found" (inl "Expecting value"))
             world0) = Raised e
      /\ issubclass (exn_type e) RequestException = true.
Proof.
  apply (probe_404_no_manifest acme_remote JsonText.loads "acme/b" "ag-grid" "main"
           (mkResponse 404 "Not Found" "404: Not Found" (inl "Expecting value"))
           world0); reflexivity.
Defined.

Lemma probe_200_invalid_json_witness :
  check_dep_in_repo (fun _ => raw 200 "OK" "<html>") JsonText.loads
    "acme/a" "ag-grid" "main" world0
  = (Val (Some ("acme/a", "Error")), logged (manifest_url "acme/a" "main") world0)
  /\ "Error" <> "No ag-grid".
Proof.
  apply (probe_200_invalid_json (fun _ => raw 200 "OK" "<html>") JsonText.loads
           "acme/a" "ag-grid" "main"
           (mkResponse 200 "OK" "<html>" (inl "Expecting value"))
           "Expecting value" world0); reflexivity.
Defined.

Lemma probe_prefix_match_witness :
  check_dep_in_repo acme_remote JsonText.loads "acme/a" "ag-grid" "main" world0
  = (Val (Some ("acme/a", "Has ag-grid")),
     logged (manifest_url "acme/a" "main") world0).
Proof.
  refine (proj1 (probe_prefix_match acme_remote JsonText.loads "acme/a" "ag-grid" "main"
                   (mkResponse 200 "OK"
                      (dq "{'dependencies':{'ag-grid-community':'1.0.0'}}")
                      (inl "Expecting value"))
                   [("dependencies", VDict [("ag-grid-community", VStr "1.0.0")])]
                   [("ag-grid-community", VStr "1.0.0")] [] world0
                   eq_refl eq_refl eq_refl eq_refl eq_refl) _).
  exists "ag-grid-community", "-community". split; [left; simpl; auto | reflexivity].
Defined.

(** C5: a parsed body for which the probe gives neither status.  The
    body [[]] is parsed by [json.loads], yet the probe reports neither
    "Has ag-grid" nor "No ag-grid": it raises an AttributeError, against
    its docstring and unlike the sibling path of a body that is not
    JSON, which reports "Error". *)
Lemma probe_prefix_match_counterexample :
  JsonText.loads "[]" = inr (VList [])
  /\ probe (fun _ => array_manifest) JsonText.loads "acme/a" "ag-grid" "main"
     = Raised (mkExn AttributeError "'list' object has no attribute 'get'")
  /\ probe (fun _ => array_manifest) JsonText.loads "acme/a" "ag-grid" "main"
     <> Val (Some ("acme/a", "Has ag-grid"))
  /\ probe (fun _ => array_manifest) JsonText.loads "acme/a" "ag-grid" "main"
     <> Val (Some ("acme/a", "No ag-grid")).
Proof. repeat split; try reflexivity; discriminate. Qed.

(** C1: the probe is not total into the four statuses.  For a status-200
    body that is JSON but not an object it raises AttributeError, which
    neither [except] clause catches; for a success status other than 200
    it ends without a return statement and yields None.  Either way no
    pair (repo, status) is returned. *)
Theorem probe_not_total :
  probe (fun _ => array_manifest) JsonText.loads "acme/a" "ag-grid" "main"
  = Raised (mkExn AttributeError "'list' object has no attribute 'get'")
  /\ probe (fun _ => raw 200 "OK" (dq "{'dependencies': null}")) JsonText.loads
       "acme/a" "ag-grid" "main"
     = Raised (mkExn TypeError "'NoneType' object is not a mapping")
  /\ probe (fun _ => no_content) JsonText.loads "acme/a" "ag-grid" "main"
     = Val None.
Proof. repeat split. Qed.

(** ** The lister *)

Lemma append_full_names_all (data : list (dict string)) (names repos : list string) :
  map (dict_get "full_name") data = map Some names ->
  append_full_names data repos = (repos ++ names, None)%list.
Proof.
  revert names repos.
  induction data as [|rd data IH]; intros [|n names] repos H; try discriminate.
  - now rewrite app_nil_r.
  - simpl in H. injection H as Hn Ht. simpl. rewrite Hn, (IH names) by assumption.
    now rewrite <- app_assoc.
Qed.

(** Whatever a page holds, the names collected before it are kept. *)
Lemma append_full_names_extends (data : list (dict string)) (repos : list string) :
  exists more, fst (append_full_names data repos) = (repos ++ more)%list.
Proof.
  revert repos. induction data as [|rd data IH]; intros repos; simpl.
  - exists []. now rewrite app_nil_r.
  - destruct (dict_get "full_name" rd) as [n|].
    + destruct (IH (repos ++ [n])%list) as [more E]. exists (n :: more).
      now rewrite E, <- app_assoc.
    + exists []. now rewrite app_nil_r.
Qed.

Section ListerFacts.

Variable remote : string -> HttpResult.
Variable org : string.

(** A non-empty page of named records: the loop goes on to the next page. *)
Lemma loop_next_page (fuel page : nat) (repos names : list string)
    (data : list (dict string)) (w : World) :
  page_ok (remote (listing_url org page)) data ->
  names <> [] ->
  map (dict_get "full_name") data = map Some names ->
  get_org_repos_loop remote (S fuel) org repos page w
  = get_org_repos_loop remote fuel org (repos ++ names) (S page)
      (logged (listing_url org page) w).
Proof.
  intros [r [Hr [Hs Hj]]] Hn Hd.
  cbn [get_org_repos_loop]. unfold bind at 1, try_except, bind, requests_get.
  rewrite Hr. cbv beta iota.
  rewrite raise_for_status_passes by assumption.
  unfold response_json. rewrite Hj.
  destruct data as [|rd data]; [destruct names; [congruence | discriminate]|].
  cbv beta iota. unfold ret at 1. cbv beta iota.
  rewrite (append_full_names_all _ _ _ Hd). reflexivity.
Qed.

(** An empty page ends the listing. *)
Lemma loop_empty_page (fuel page : nat) (repos : list string) (w : World) :
  page_ok (remote (listing_url org page)) [] ->
  get_org_repos_loop remote (S fuel) org repos page w
  = (Val repos, logged (listing_url org page) w).
Proof.
  intros [r [Hr [Hs Hj]]].
  cbn [get_org_repos_loop]. unfold bind at 1, try_except, bind, requests_get.
  rewrite Hr. cbv beta iota.
  rewrite raise_for_status_passes by assumption.
  unfold response_json. rewrite Hj. reflexivity.
Qed.

(** A failed page fetch ends the listing with what was collected. *)
Lemma loop_failed_page (fuel page : nat) (repos : list string) (msg : string)
    (w : World) :
  page_failed (listing_url org page) (remote (listing_url org page)) msg ->
  get_org_repos_loop remote (S fuel) org repos page w
  = (Val repos,
     printed ("Error fetching repos for " ++ org ++ ": " ++ msg)
       (logged (listing_url org page) w)).
Proof.
  intros [Hr|[[r [Hr Hs]]|[r [Hr [Hs Hj]]]]];
    cbn [get_org_repos_loop]; unfold bind at 1, try_except, bind at 1, requests_get;
    rewrite Hr; [reflexivity| |]; cbv beta iota; unfold bind at 1; rewrite Hs;
    [reflexivity|].
  cbv beta iota. unfold bind at 1, response_json. rewrite Hj. reflexivity.
Qed.

Lemma loop_good_pages (pages : list (list string)) :
  forall (fuel page : nat) (repos : list string) (w : World),
    (forall i names, nth_error pages i = Some names ->
       names <> [] /\
       exists data, page_ok (remote (listing_url org (page + i))) data
                    /\ map (dict_get "full_name") data = map Some names) ->
    get_org_repos_loop remote (List.length pages + fuel) org repos page w
    = get_org_repos_loop remote fuel org (repos ++ List.concat pages)
        (page + List.length pages)
        (mkWorld (stdout w)
           (requests w ++ map (listing_url org) (seq page (List.length pages)))
           (output_txt w)).
Proof.
  induction pages as [|names pages IH]; intros fuel page repos w Hp.
  - simpl. rewrite Nat.add_0_r, !app_nil_r. now destruct w.
  - destruct (Hp 0 names eq_refl) as [Hn [data [Hok Hd]]].
    rewrite Nat.add_0_r in Hok. cbn [List.length Nat.add].
    rewrite (loop_next_page _ _ _ names data) by assumption.
    rewrite IH.
    + unfold logged. cbn [stdout requests output_txt List.concat seq map].
      now rewrite <- !app_assoc, Nat.add_succ_r.
    + intros i names' Hi. specialize (Hp (S i) names' Hi).
      now rewrite Nat.add_succ_r in Hp.
Qed.

Lemma loop_pages (pages : list (list string)) (fuel page : nat)
    (repos : list string) (w : World) :
  (forall i names, nth_error pages i = Some names ->
     names <> [] /\
     exists data, page_ok (remote (listing_url org (page + i))) data
                  /\ map (dict_get "full_name") data = map Some names) ->
  page_ok (remote (listing_url org (page + List.length pages))) [] ->
  List.length pages < fuel ->
  get_org_repos_loop remote fuel org repos page w
  = (Val (repos ++ List.concat pages)%list,
     mkWorld (stdout w)
       (requests w ++ map (listing_url org) (seq page (S (List.length pages))))
       (output_txt w)).
Proof.
  intros Hp He Hf.
  replace fuel with (List.length pages + S (fuel - S (List.length pages))) by lia.
  rewrite loop_good_pages by assumption.
  rewrite loop_empty_page by assumption.
  unfold logged. cbn [stdout requests output_txt].
  now rewrite seq_S, map_app, <- app_assoc.
Qed.

(** After some good pages a failed fetch ends the listing early: the
    names of the good pages are returned and one error line is printed. *)
Lemma get_org_repos_partial (pages : list (list string)) (fuel : nat)
    (msg : string) (w : World) :
  (forall i names, nth_error pages i = Some names ->
     names <> [] /\
     exists data, page_ok (remote (listing_url org (S i))) data
                  /\ map (dict_get "full_name") data = map Some names) ->
  page_failed (listing_url org (S (List.length pages)))
    (remote (listing_url org (S (List.length pages)))) msg ->
  List.length pages < fuel ->
  get_org_repos remote fuel org w
  = (Val (List.concat pages),
     mkWorld (stdout w ++ ["Error fetching repos for " ++ org ++ ": " ++ msg])
       (requests w ++ map (listing_url org) (seq 1 (S (List.length pages))))
       (output_txt w)).
Proof.
  intros Hp He Hf. unfold get_org_repos.
  replace fuel with (List.length pages + S (fuel - S (List.length pages))) by lia.
  rewrite loop_good_pages by assumption.
  rewrite (loop_failed_page _ _ _ msg) by assumption.
  unfold printed, logged. cbn [stdout requests output_txt app].
  now rewrite seq_S, map_app, <- app_assoc.
Qed.

(** C6: the lister requests page 1, 2, ... with per_page=100, goes on
    after every non-empty page and stops at the first empty one, having
    made one request per page and collected the names of all of them in
    order; for pages of sizes 100, 100, 37 and 0 that is 4 requests and
    237 names. *)
Theorem get_org_repos_pagination (pages : list (list string)) (fuel : nat)
    (w : World) :
  (forall i names, nth_error pages i = Some names ->
     names <> [] /\
     exists data, page_ok (remote (listing_url org (S i))) data
                  /\ map (dict_get "full_name") data = map Some names) ->
  page_ok (remote (listing_url org (S (List.length pages)))) [] ->
  List.length pages < fuel ->
  exists repos urls,
    get_org_repos remote fuel org w
    = (Val repos, mkWorld (stdout w) (requests w ++ urls) (output_txt w))
    /\ repos = List.concat pages
    /\ urls = map (fun page => "https://api.github.com/orgs/" ++ org
                               ++ "/repos?per_page=100&page=" ++ str_of_nat page)
                (seq 1 (S (List.length pages)))
    /\ (map (@List.length string) pages = [100; 100; 37] ->
        List.length repos = 237 /\ List.length urls = 4).
Proof.
  intros Hp He Hf.
  exists (List.concat pages), (map (listing_url org) (seq 1 (S (List.length pages)))).
  split; [|split; [reflexivity|split; [reflexivity|]]].
  - unfold get_org_repos. rewrite (loop_pages pages); auto.
  - intros Hl. rewrite length_map, length_seq, length_concat, Hl.
    rewrite <- (length_map (@List.length string)), Hl. split; reflexivity.
Qed.

End ListerFacts.

Lemma repo_records_named (names : list string) :
  map (dict_get "full_name") (map repo_record names) = map Some names.
Proof. induction names as [|n names IH]; simpl; [reflexivity | now rewrite IH]. Qed.

Lemma get_org_repos_pagination_witness :
  exists repos urls,
    get_org_repos big_remote 10 "big" world0
    = (Val repos, mkWorld (stdout world0) (requests world0 ++ urls) (output_txt world0))
    /\ repos = List.concat big_pages
    /\ urls = map (fun page => "https://api.github.com/orgs/" ++ "big"
                               ++ "/repos?per_page=100&page=" ++ str_of_nat page)
                (seq 1 (S (List.length big_pages)))
    /\ (map (@List.length string) big_pages = [100; 100; 37] ->
        List.length repos = 237 /\ List.length urls = 4).
Proof.
  apply (get_org_repos_pagination big_remote "big" big_pages 10 world0).
  - intros i names H.
    destruct i as [|[|[|i]]]; simpl in H;
      [| | | destruct i; discriminate];
      injection H as <-;
      (split; [discriminate|]);
      eexists; (split; [|apply repo_records_named]);
      eexists; (split; [vm_compute; reflexivity|]);
      (split; [simpl; lia | reflexivity]).
  - eexists. split; [vm_compute; reflexivity|]. split; [simpl; lia | reflexivity].
  - simpl. lia.
Defined.

(** ** [sorted] *)

Section SortedFacts.

Context {A : Type} (lt : A -> A -> bool).
Hypothesis lt_irrefl : forall a, lt a a = false.
Hypothesis lt_trans : forall a b c, lt a b = true -> lt b c = true -> lt a c = true.
Hypothesis lt_total : forall a b, lt a b = false -> lt b a = false -> a = b.

Lemma ordered_trans (a b c : A) : ordered lt a b -> ordered lt b c -> ordered lt a c.
Proof.
  unfold ordered. intros Hab Hbc.
  destruct (lt c a) eqn:Hca; [|reflexivity].
  destruct (lt a b) eqn:Hlt.
  - rewrite (lt_trans c a b Hca Hlt) in Hbc. discriminate.
  - rewrite (lt_total a b Hlt Hab) in Hca. congruence.
Qed.

Lemma lt_ordered (a b : A) : lt a b = true -> ordered lt a b.
Proof.
  unfold ordered. intros H. destruct (lt b a) eqn:Hba; [|reflexivity].
  pose proof (lt_trans a b a H Hba) as E. rewrite lt_irrefl in E. discriminate.
Qed.

Lemma insert_perm (x : A) (l : list A) : Permutation (x :: l) (insert lt x l).
Proof.
  induction l as [|y t IH]; simpl; [reflexivity|].
  destruct (lt y x); [|reflexivity].
  rewrite perm_swap. now apply perm_skip.
Qed.

Lemma sorted_perm (l : list A) : Permutation l (sorted lt l).
Proof.
  induction l as [|x l IH]; simpl; [reflexivity|].
  rewrite <- insert_perm. now apply perm_skip.
Qed.

Lemma insert_sorted (x : A) (l : list A) :
  StronglySorted (ordered lt) l -> StronglySorted (ordered lt) (insert lt x l).
Proof.
  induction 1 as [|y t Hs IH Hall]; simpl.
  - repeat constructor.
  - destruct (lt y x) eqn:Hyx.
    + constructor; [assumption|].
      apply (Permutation_Forall (insert_perm x t)).
      constructor; [now apply lt_ordered | assumption].
    + constructor; [now constructor|].
      constructor; [exact Hyx|].
      eapply Forall_impl; [|exact Hall].
      intros z Hz. eapply ordered_trans; [exact Hyx | exact Hz].
Qed.

Lemma sorted_sorted (l : list A) : StronglySorted (ordered lt) (sorted lt l).
Proof.
  induction l as [|x l IH]; simpl; [constructor | now apply insert_sorted].
Qed.

Lemma sorted_unique (l1 l2 : list A) :
  StronglySorted (ordered lt) l1 -> StronglySorted (ordered lt) l2 -> Permutation l1 l2 -> l1 = l2.
Proof.
  intros H1. revert l2.
  induction H1 as [|a l1 Hs1 IH Ha]; intros l2 H2 Hp.
  - now apply Permutation_nil in Hp.
  - destruct H2 as [|b l2 Hs2 Hb].
    + symmetry in Hp. now apply Permutation_nil in Hp.
    + assert (E : a = b).
      { assert (Ia : In a (b :: l2)) by (apply (Permutation_in _ Hp); now left).
        assert (Ib : In b (a :: l1))
          by (apply (Permutation_in _ (Permutation_sym Hp)); now left).
        destruct Ia as [->|Ia]; [reflexivity|].
        destruct Ib as [->|Ib]; [reflexivity|].
        rewrite Forall_forall in Ha, Hb.
        apply lt_total; [apply (Hb a Ia) | apply (Ha b Ib)]. }
      subst b. f_equal. apply IH; [assumption|].
      now apply Permutation_cons_inv in Hp.
Qed.

(** The result of [sorted] depends on the elements only, not on the
    order in which they are given. *)
Lemma sorted_of_perm (l1 l2 : list A) :
  Permutation l1 l2 -> sorted lt l1 = sorted lt l2.
Proof.
  intros Hp. apply sorted_unique; try apply sorted_sorted.
  rewrite <- !sorted_perm. exact Hp.
Qed.

End SortedFacts.

Lemma ascii_compare_refl (c : ascii) : Ascii.compare c c = Eq.
Proof. unfold Ascii.compare. apply N.compare_refl. Qed.

Lemma ascii_compare_lt_trans (a b c : ascii) :
  Ascii.compare a b = Lt -> Ascii.compare b c = Lt -> Ascii.compare a c = Lt.
Proof.
  unfold Ascii.compare. rewrite !N.compare_lt_iff. apply N.lt_trans.
Qed.

Lemma str_compare_lt_trans (a : string) :
  forall b c, String.compare a b = Lt -> String.compare b c = Lt ->
              String.compare a c = Lt.
Proof.
  induction a as [|x a IH]; intros [|y b] [|z c]; simpl; try congruence.
  destruct (Ascii.compare x y) eqn:Exy; try discriminate;
    destruct (Ascii.compare y z) eqn:Eyz; try discriminate; intros H1 H2.
  - apply Ascii.compare_eq_iff in Exy, Eyz. subst.
    rewrite ascii_compare_refl. now apply (IH b).
  - apply Ascii.compare_eq_iff in Exy. subst. now rewrite Eyz.
  - apply Ascii.compare_eq_iff in Eyz. subst. now rewrite Exy.
  - now rewrite (ascii_compare_lt_trans x y z).
Qed.

Lemma str_lt_irrefl (a : string) : str_lt a a = false.
Proof.
  unfold str_lt, String.ltb.
  pose proof (String.compare_antisym a a) as H.
  destruct (String.compare a a); simpl in H; congruence.
Qed.

Lemma str_lt_trans (a b c : string) :
  str_lt a b = true -> str_lt b c = true -> str_lt a c = true.
Proof.
  unfold str_lt, String.ltb. intros H1 H2.
  destruct (String.compare a b) eqn:E1; try discriminate.
  destruct (String.compare b c) eqn:E2; try discriminate.
  now rewrite (str_compare_lt_trans a b c).
Qed.

Lemma str_lt_total (a b : string) :
  str_lt a b = false -> str_lt b a = false -> a = b.
Proof.
  unfold str_lt, String.ltb. rewrite (String.compare_antisym b a).
  destruct (String.compare a b) eqn:E; simpl; try discriminate.
  intros _ _. now apply String.compare_eq_iff.
Qed.

Lemma pair_lt_irrefl (a : string * string) : pair_lt a a = false.
Proof. unfold pair_lt. rewrite String.eqb_refl. apply str_lt_irrefl. Qed.

Lemma pair_lt_trans (a b c : string * string) :
  pair_lt a b = true -> pair_lt b c = true -> pair_lt a c = true.
Proof.
  destruct a as [a1 a2], b as [b1 b2], c as [c1 c2]. unfold pair_lt. simpl.
  destruct (String.eqb_spec a1 b1), (String.eqb_spec b1 c1),
    (String.eqb_spec a1 c1); subst; intros H1 H2;
    try congruence; eauto using str_lt_trans.
  pose proof (str_lt_trans _ _ _ H1 H2) as H.
  rewrite str_lt_irrefl in H. discriminate.
Qed.

Lemma pair_lt_total (a b : string * string) :
  pair_lt a b = false -> pair_lt b a = false -> a = b.
Proof.
  destruct a as [a1 a2], b as [b1 b2]. unfold pair_lt. simpl.
  rewrite (String.eqb_sym b1 a1).
  destruct (String.eqb_spec a1 b1) as [->|N]; intros H1 H2.
  - f_equal. now apply str_lt_total.
  - exfalso. apply N. now apply str_lt_total.
Qed.

(** ** More on dictionaries *)

Section DictFacts.

Context {V : Type}.
Implicit Types (d : dict V) (k : string) (v : V).

Lemma dict_get_set_same k v d : dict_get k (dict_set k v d) = Some v.
Proof.
  induction d as [|[k' v'] d IH]; simpl.
  - now rewrite String.eqb_refl.
  - destruct (String.eqb_spec k' k) as [->|N]; simpl.
    + now rewrite String.eqb_refl.
    + destruct (String.eqb_spec k' k); [contradiction | exact IH].
Qed.

Lemma dict_get_set_other k k' v d :
  k' <> k -> dict_get k' (dict_set k v d) = dict_get k' d.
Proof.
  intros N. induction d as [|[k0 v0] d IH]; simpl.
  - destruct (String.eqb_spec k k'); [congruence | reflexivity].
  - destruct (String.eqb_spec k0 k) as [->|N0]; simpl.
    + destruct (String.eqb_spec k k'); [congruence | reflexivity].
    + destruct (String.eqb_spec k0 k'); [reflexivity | exact IH].
Qed.

Lemma dict_get_in_keys k d :
  In k (dict_keys d) -> exists v, dict_get k d = Some v.
Proof.
  induction d as [|[k' v'] d IH]; simpl; [intros []|].
  intros [->|H].
  - rewrite String.eqb_refl. now exists v'.
  - destruct (String.eqb_spec k' k); [now exists v' | now apply IH].
Qed.

Lemma dict_get_in k v d : dict_get k d = Some v -> In (k, v) d.
Proof.
  induction d as [|[k' v'] d IH]; simpl; [discriminate|].
  destruct (String.eqb_spec k' k) as [->|N].
  - intros H; injection H as ->. now left.
  - intros H. right. now apply IH.
Qed.


Lemma dict_keys_set_present k v v0 d :
  dict_get k d = Some v0 -> dict_keys (dict_set k v d) = dict_keys d.
Proof.
  induction d as [|[k' v'] d IH]; simpl; [discriminate|].
  destruct (String.eqb_spec k' k) as [->|N]; simpl; [reflexivity|].
  intros H. now rewrite IH.
Qed.

Lemma dict_set_nodup k v d :
  NoDup (dict_keys d) -> NoDup (dict_keys (dict_set k v d)).
Proof.
  induction d as [|[k' v'] d IH]; simpl; intros Hn.
  - constructor; [intros [] | constructor].
  - inversion Hn as [|? ? Hk Hn']; subst.
    destruct (String.eqb_spec k' k) as [->|N]; simpl.
    + now constructor.
    + constructor; [|now apply IH].
      intros H. apply dict_keys_set in H. destruct H as [->|H]; auto.
Qed.

Lemma dict_update_nodup (items : list (string * V)) d :
  NoDup (dict_keys d) -> NoDup (dict_keys (dict_update d items)).
Proof.
  unfold dict_update. revert d.
  induction items as [|[k v] items IH]; intros d Hn; simpl; [assumption|].
  apply IH. now apply dict_set_nodup.
Qed.

Lemma dict_set_in k v k' v' d :
  In (k', v') (dict_set k v d) -> (k', v') = (k, v) \/ In (k', v') d.
Proof.
  induction d as [|[k0 v0] d IH]; simpl.
  - intros [E|[]]. left. now symmetry.
  - destruct (String.eqb_spec k0 k) as [->|N]; simpl.
    + intros [E|H]; [left; now symmetry | right; now right].
    + intros [E|H]; [right; now left|].
      destruct (IH H) as [E|H']; [now left | right; now right].
Qed.

Lemma dict_update_in (items : list (string * V)) d k v :
  In (k, v) (dict_update d items) -> In (k, v) d \/ In (k, v) items.
Proof.
  unfold dict_update. revert d.
  induction items as [|[k0 v0] items IH]; intros d; simpl; [now left|].
  intros H. destruct (IH _ H) as [H'|H']; [|right; now right].
  destruct (dict_set_in _ _ _ _ _ H') as [E|H'']; [right; left; now symmetry | now left].
Qed.

Lemma nodup_keys_nodup d : NoDup (dict_keys d) -> NoDup d.
Proof. apply NoDup_map_inv. Qed.

(** A dictionary is determined by its keys and what it holds for them. *)
Lemma dict_by_keys (f : string -> V) d :
  NoDup (dict_keys d) ->
  (forall k, In k (dict_keys d) -> dict_get k d = Some (f k)) ->
  d = map (fun k => (k, f k)) (dict_keys d).
Proof.
  induction d as [|[k v] d IH]; simpl; [reflexivity|].
  intros Hn H. inversion Hn as [|? ? Hk Hn']; subst.
  pose proof (H k (or_introl eq_refl)) as Hv.
  rewrite String.eqb_refl in Hv. injection Hv as ->.
  f_equal. apply IH; [assumption|].
  intros k' Hk'. specialize (H k' (or_intror Hk')).
  destruct (String.eqb_spec k k') as [->|N]; [contradiction | exact H].
Qed.

End DictFacts.

Lemma dict_keys_set_add {V} (k : string) (v : V) (d : dict V) :
  dict_keys (dict_set k v d) = add_key (dict_keys d) k.
Proof.
  unfold add_key. induction d as [|[k' v'] d IH]; simpl; [reflexivity|].
  rewrite (String.eqb_sym k k').
  destruct (String.eqb_spec k' k) as [->|N]; simpl; [reflexivity|].
  rewrite IH. now destruct (existsb (String.eqb k) (dict_keys d)).
Qed.

Lemma in_fold_add_key (l : list string) :
  forall ks x, In x (fold_left add_key l ks) -> In x ks \/ In x l.
Proof.
  induction l as [|k l IH]; intros ks x H; simpl in *; [now left|].
  destruct (IH _ _ H) as [H'|H']; [|right; now right].
  unfold add_key in H'. destruct (existsb (String.eqb k) ks); [now left|].
  apply in_app_or in H'. destruct H' as [H'|[->|[]]]; [now left | right; now left].
Qed.

(** ** Grouping by status *)





Lemma group_fold (items : list (string * string)) :
  forall (groups0 : dict (list string)) (w : World),
    (forall item, In item items -> In (snd item) (dict_keys groups0)) ->
    exists groups,
      fold_M group_item items groups0 w = (Val groups, w)
      /\ dict_keys groups = dict_keys groups0
      /\ forall k b0, dict_get k groups0 = Some b0 ->
           dict_get k groups
           = Some (b0 ++ map fst (filter (with_status k) items))%list.
Proof.
  induction items as [|[repo status] items IH]; intros groups0 w Hin.
  - exists groups0. repeat split. intros k b0 H. now rewrite app_nil_r.
  - destruct (dict_get_in_keys status groups0) as [l Hl].
    { apply (Hin (repo, status)). now left. }
    destruct (IH (dict_set status (l ++ [repo])%list groups0) w) as [groups [E [K G]]].
    { intros item Hi. rewrite (dict_keys_set_present _ _ _ _ Hl).
      apply Hin. now right. }
    exists groups. split; [|split].
    + cbn [fold_M]. unfold bind, group_item. rewrite Hl. exact E.
    + rewrite K. apply (dict_keys_set_present _ _ _ _ Hl).
    + intros k b0 Hk. unfold with_status at 1. cbn [filter snd].
      destruct (String.eqb_spec status k) as [->|N].
      * rewrite Hl in Hk. injection Hk as ->.
        rewrite (G k (b0 ++ [repo])%list) by apply dict_get_set_same.
        simpl. now rewrite <- app_assoc.
      * apply G. rewrite dict_get_set_other by congruence. exact Hk.
Qed.

Lemma empty_groups_keys (dep_prefix k : string) :
  In k (dict_keys (empty_groups dep_prefix)) <-> In k (statuses dep_prefix).
Proof.
  unfold empty_groups, dict_of_list. rewrite dict_keys_update. simpl. tauto.
Qed.


Example empty_groups_package_json :
  dict_keys (empty_groups "package.json")
  = ["Has package.json"; "No package.json"; "Error"].
Proof. reflexivity. Qed.

Lemma empty_groups_nodup (dep_prefix : string) :
  NoDup (dict_keys (empty_groups dep_prefix)).
Proof. apply dict_update_nodup. constructor. Qed.

Lemma empty_groups_get (dep_prefix k : string) :
  In k (dict_keys (empty_groups dep_prefix)) ->
  dict_get k (empty_groups dep_prefix) = Some [].
Proof.
  intros H. destruct (dict_get_in_keys _ _ H) as [b Hb]. rewrite Hb.
  apply dict_get_in, dict_update_in in Hb. simpl in Hb.
  destruct Hb as [[]|Hb].
  repeat (destruct Hb as [Hb|Hb]; [now inversion Hb|]). destruct Hb.
Qed.

(** What [group_by_status] builds when every status is one of the four:
    the four groups, each holding in sorted order the repositories with
    its status. *)
Lemma group_by_status_spec (dep_prefix : string) (results : dict string) (w : World) :
  (forall repo status, In (repo, status) results -> In status (statuses dep_prefix)) ->
  group_by_status dep_prefix results w
  = (Val (map (fun k => (k, map fst (filter (with_status k) (sorted pair_lt results))))
            (dict_keys (empty_groups dep_prefix))), w).
Proof.
  intros Hs. unfold group_by_status.
  destruct (group_fold (sorted pair_lt results) (empty_groups dep_prefix) w)
    as [groups [E [K G]]].
  - intros [repo status] Hi. apply empty_groups_keys. apply (Hs repo).
    apply (Permutation_in _ (Permutation_sym (sorted_perm pair_lt results))). exact Hi.
  - rewrite E. f_equal. f_equal. rewrite <- K. apply dict_by_keys.
    + rewrite K. apply empty_groups_nodup.
    + intros k Hk. rewrite K in Hk.
      rewrite (G k []) by now apply empty_groups_get. reflexivity.
Qed.

(** ** Results dictionaries *)

Lemma collected_spec (f : string -> string) (order : list string) :
  forall acc : dict string,
    NoDup (dict_keys acc) ->
    (forall k v, In (k, v) acc -> v = f k) ->
    NoDup (dict_keys (collected f order acc))
    /\ (forall k, In k (dict_keys (collected f order acc))
                  <-> In k (dict_keys acc) \/ In k order)
    /\ (forall k v, In (k, v) (collected f order acc) -> v = f k).
Proof.
  unfold collected.
  induction order as [|repo order IH]; intros acc Hn Hv; simpl.
  - repeat split; auto. intros [H|[]]. exact H.
  - destruct (IH (dict_set repo (f repo) acc)) as [N [K F]].
    + now apply dict_set_nodup.
    + intros k v H. destruct (dict_set_in _ _ _ _ _ H) as [E|H']; [|now apply Hv].
      now injection E as -> ->.
    + repeat split; auto.
      * intros H. apply K in H. rewrite dict_keys_set in H. intuition.
      * intros H. apply K. rewrite dict_keys_set. intuition.
Qed.

Lemma collected_keys (f : string -> string) (order : list string) (k : string) :
  In k (dict_keys (collected f order [])) <-> In k order.
Proof.
  destruct (collected_spec f order []) as [_ [K _]];
    [constructor | intros ? ? [] |].
  rewrite K. simpl. tauto.
Qed.

Lemma collected_nodup (f : string -> string) (order : list string) :
  NoDup (dict_keys (collected f order [])).
Proof.
  destruct (collected_spec f order []) as [N _];
    [constructor | intros ? ? [] | exact N].
Qed.

Lemma collected_values (f : string -> string) (order : list string) (k v : string) :
  In (k, v) (collected f order []) -> v = f k.
Proof.
  destruct (collected_spec f order []) as [_ [_ F]];
    [constructor | intros ? ? [] | apply F].
Qed.

Lemma collected_incl (f : string -> string) (order1 order2 : list string) :
  Permutation order1 order2 ->
  forall item, In item (collected f order1 []) -> In item (collected f order2 []).
Proof.
  intros Hp [k v] H.
  pose proof (collected_values _ _ _ _ H) as ->.
  assert (Hk : In k (dict_keys (collected f order2 []))).
  { apply collected_keys, (Permutation_in _ Hp), (collected_keys f).
    apply (in_map fst) in H. exact H. }
  apply in_map_iff in Hk. destruct Hk as [[k' v'] [E H']]. simpl in E. subst k'.
  now rewrite <- (collected_values _ _ _ _ H').
Qed.

(** Two completion orders of the same probes give the same results, up
    to the order of the entries. *)
Lemma collected_perm (f : string -> string) (order1 order2 : list string) :
  Permutation order1 order2 ->
  Permutation (collected f order1 []) (collected f order2 []).
Proof.
  intros Hp.
  apply NoDup_Permutation;
    try (apply nodup_keys_nodup, collected_nodup).
  intros item. split; apply collected_incl; auto using Permutation_sym.
Qed.

(** ** The coordinator *)

Section ScanFacts.

Variable remote : string -> HttpResult.
Variable json_parse : string -> string + Value.
Variables dep_prefix branch : string.

(** A probe leaves one request in the log and ends the same way in
    every world. *)
Lemma probe_frame (repo : string) (w : World) :
  check_dep_in_repo remote json_parse repo dep_prefix branch w
  = (probe remote json_parse repo dep_prefix branch,
     logged (manifest_url repo branch) w).
Proof.
  unfold probe, check_dep_in_repo, try_except, bind, requests_get.
  fold (logged (manifest_url repo branch) w).
  fold (logged (manifest_url repo branch) world0).
  destruct (remote (manifest_url repo branch)) as [msg|r]; [reflexivity|].
  cbv beta iota.
  destruct (status_code r =? 404)%Z; [reflexivity|].
  unfold raise_for_status.
  destruct ((400 <=? status_code r) && (status_code r <? 500))%Z; [reflexivity|].
  destruct ((500 <=? status_code r) && (status_code r <? 600))%Z; [reflexivity|].
  cbv beta iota. unfold ret at 1 3. cbv beta iota.
  destruct (status_code r =? 200)%Z; [|reflexivity].
  unfold json_loads. destruct (json_parse (text r)) as [msg|data]; [reflexivity|].
  destruct data; try reflexivity. simpl.
  destruct (match dict_get "dependencies" d with
            | Some v => v | None => VDict [] end); try reflexivity.
  destruct (match dict_get "devDependencies" d with
            | Some v => v | None => VDict [] end); try reflexivity.
  simpl. match goal with |- context [existsb ?f ?l] => destruct (existsb f l) end;
    reflexivity.
Qed.

(** A probe returns or raises; what it returns is [None] or its
    repository with one of the four statuses. *)
Lemma probe_cases (repo : string) :
  (exists status, probe remote json_parse repo dep_prefix branch = Val (Some (repo, status))
                  /\ In status (statuses dep_prefix))
  \/ probe remote json_parse repo dep_prefix branch = Val None
  \/ exists e, probe remote json_parse repo dep_prefix branch = Raised e.
Proof.
  pose proof (probe_frame repo world0) as F.
  destruct (probe remote json_parse repo dep_prefix branch)
    as [[[repo' status]|]|e|c|] eqn:E;
    [left | right; now left | right; right; eauto | exfalso | exfalso].
  { destruct (probe_returns_status _ _ _ _ _ _ _ _ _ F) as [-> Hs]. eauto. }
  all: revert E; unfold probe, check_dep_in_repo, try_except, bind, requests_get;
    destruct (remote (manifest_url repo branch)) as [msg|r]; [discriminate|];
    cbv beta iota; destruct (status_code r =? 404)%Z; [discriminate|];
    unfold raise_for_status;
    destruct ((400 <=? status_code r) && (status_code r <? 500))%Z; [discriminate|];
    destruct ((500 <=? status_code r) && (status_code r <? 600))%Z; [discriminate|];
    cbv beta iota; unfold ret at 1; cbv beta iota;
    destruct (status_code r =? 200)%Z; [|discriminate];
    unfold json_loads; destruct (json_parse (text r)) as [msg|data]; [discriminate|];
    destruct data; try discriminate; simpl;
    destruct (match dict_get "dependencies" d with
              | Some v => v | None => VDict [] end); try discriminate;
    destruct (match dict_get "devDependencies" d with
              | Some v => v | None => VDict [] end); try discriminate;
    simpl;
    match goal with |- context [existsb ?f ?l] => destruct (existsb f l) end;
    discriminate.
Qed.

Lemma world_eta (w : World) :
  mkWorld (stdout w) (requests w ++ []) (output_txt w) = w.
Proof. destruct w. simpl. now rewrite app_nil_r. Qed.

Lemma submit_probes (order : list string) (w : World) :
  map_M (fun repo => submit (check_dep_in_repo remote json_parse repo dep_prefix branch))
    order w
  = (Val (map (fun repo => probe remote json_parse repo dep_prefix branch) order),
     mkWorld (stdout w)
       (requests w ++ map (fun repo => manifest_url repo branch) order)
       (output_txt w)).
Proof.
  revert w. induction order as [|repo order IH]; intros w.
  - simpl. unfold ret. now rewrite world_eta.
  - cbn [map_M map]. unfold bind at 1, submit at 1. rewrite probe_frame.
    unfold bind at 1. rewrite IH. unfold ret, logged. simpl.
    now rewrite <- app_assoc.
Qed.

Lemma probe_status_some (repo status : string) :
  probe_status remote json_parse dep_prefix branch repo = Some status ->
  probe remote json_parse repo dep_prefix branch = Val (Some (repo, status))
  /\ In status (statuses dep_prefix).
Proof.
  unfold probe_status.
  destruct (probe_cases repo) as [[st [E Hs]]|[E|[e E]]]; rewrite E;
    try discriminate.
  intros H; injection H as <-. auto.
Qed.

Lemma probe_status_none (repo : string) :
  probe_status remote json_parse dep_prefix branch repo = None ->
  probe remote json_parse repo dep_prefix branch = Val None
  \/ exists e, probe remote json_parse repo dep_prefix branch = Raised e.
Proof.
  unfold probe_status.
  destruct (probe_cases repo) as [[st [E Hs]]|[E|[e E]]]; rewrite E;
    [discriminate | now left | right; eauto].
Qed.

(** Storing the results: all of them when every probe returned a pair,
    an exception at the first future that did not. *)
Lemma store_results (order : list string) :
  forall acc : dict string,
    let futures := map (fun repo => probe remote json_parse repo dep_prefix branch) order in
    (Forall (fun repo => probe_status remote json_parse dep_prefix branch repo <> None) order
     /\ forall w, fold_M store_result futures acc w
                  = (Val (collected (status_of remote json_parse dep_prefix branch) order acc), w))
    \/ (Exists (fun repo => probe_status remote json_parse dep_prefix branch repo = None) order
        /\ exists e, forall w, fold_M store_result futures acc w = (Raised e, w)).
Proof.
  induction order as [|repo order IH]; intros acc futures.
  - left. split; [constructor | reflexivity].
  - subst futures. cbn [map fold_M].
    destruct (probe_status remote json_parse dep_prefix branch repo) as [status|] eqn:Es.
    + destruct (probe_status_some _ _ Es) as [E _].
      assert (Est : status_of remote json_parse dep_prefix branch repo = status)
        by (unfold status_of; now rewrite Es).
      destruct (IH (dict_set repo status acc)) as [[Hall Hf]|[Hex [e Hf]]].
      * left. split; [constructor; [congruence | exact Hall]|].
        intros w. unfold bind at 1, store_result at 1, bind at 1, future_result at 1.
        rewrite E. unfold ret at 1. cbv beta iota. cbn [map] in Hf. rewrite Hf.
        unfold collected. simpl. now rewrite Est.
      * right. split; [now apply Exists_cons_tl|]. exists e.
        intros w. unfold bind at 1, store_result at 1, bind at 1, future_result at 1.
        rewrite E. unfold ret at 1. cbv beta iota. apply Hf.
    + right. split; [now apply Exists_cons_hd|].
      destruct (probe_status_none _ Es) as [E|[e E]]; rewrite E; eexists; reflexivity.
Qed.

End ScanFacts.

Section CoordinatorFacts.

Variable remote : string -> HttpResult.
Variable json_parse : string -> string + Value.
Variable as_completed : nat -> list string -> list string.
Variables dep_prefix branch : string.

Lemma scan_org_cases (i : nat) (repos : list string) :
  let order := as_completed i repos in
  (Forall (has_status remote json_parse dep_prefix branch) order
   /\ forall w, scan_org remote json_parse as_completed i repos dep_prefix branch w
      = (Val (collected (status_of remote json_parse dep_prefix branch) order []),
         probed branch order w))
  \/ (Exists (fun repo => ~ has_status remote json_parse dep_prefix branch repo) order
      /\ exists e, forall w,
          scan_org remote json_parse as_completed i repos dep_prefix branch w
          = (Raised e, probed branch order w)).
Proof.
  intros order.
  destruct (store_results remote json_parse dep_prefix branch order [])
    as [[Hall E]|[Hex [e E]]].
  - left. split; [exact Hall|]. intros w.
    unfold scan_org, bind. rewrite submit_probes. apply E.
  - right. split.
    + eapply Exists_impl; [|exact Hex]. unfold has_status. intros repo H. now rewrite H.
    + exists e. intros w. unfold scan_org, bind. rewrite submit_probes. apply E.
Qed.

Lemma collected_statuses (order : list string) (repo status : string) :
  Forall (has_status remote json_parse dep_prefix branch) order ->
  In (repo, status) (collected (status_of remote json_parse dep_prefix branch) order []) ->
  probe remote json_parse repo dep_prefix branch = Val (Some (repo, status))
  /\ In status (statuses dep_prefix).
Proof.
  intros Hall H. pose proof (collected_values _ _ _ _ H) as E.
  apply (in_map fst), collected_keys in H. simpl in H.
  rewrite Forall_forall in Hall. specialize (Hall repo H). unfold has_status in Hall.
  unfold status_of in E.
  destruct (probe_status remote json_parse dep_prefix branch repo) as [st|] eqn:Es;
    [|congruence].
  subst status. now apply probe_status_some.
Qed.


End CoordinatorFacts.


(** ** The report *)

Lemma concat_cons (x : string) (xs : list string) :
  String.concat EmptyString (x :: xs) = x ++ String.concat EmptyString xs.
Proof.
  destruct xs as [|y ys]; simpl; [|reflexivity].
  induction x as [|c x IH]; simpl; [reflexivity | now rewrite <- IH].
Qed.

Lemma shown_nil (w : World) : shown [] w = w.
Proof. destruct w. unfold shown. simpl. now rewrite app_nil_r. Qed.

Lemma shown_app (l1 l2 : list string) (w : World) :
  shown l2 (shown l1 w) = shown (l1 ++ l2) w.
Proof. unfold shown. simpl. now rewrite app_assoc. Qed.

Section Mirrors.

Variable P : string -> Prop.

Lemma mirrors_ret : mirrors P (ret tt) (ret tt).
Proof.
  exists (Val tt), []. split; [constructor|]. split.
  - intros w. unfold ret. now rewrite shown_nil.
  - intros [o q f] chunks H. simpl in H. subst f.
    unfold ret, saved. simpl. now rewrite app_nil_r.
Qed.

Lemma mirrors_print (line chunk : string) :
  P line -> chunk = line ++ nl -> mirrors P (print line) (out_write chunk).
Proof.
  intros HP ->. exists (Val tt), [line]. split; [now constructor|]. split.
  - reflexivity.
  - intros w chunks H. unfold out_write, saved, with_nl. now rewrite H.
Qed.

Lemma mirrors_seq (p1 s1 p2 s2 : M unit) :
  mirrors P p1 s1 -> mirrors P p2 s2 -> mirrors P (p1 ;;; p2) (s1 ;;; s2).
Proof.
  intros [r1 [l1 [F1 [Hp1 Hs1]]]] [r2 [l2 [F2 [Hp2 Hs2]]]].
  destruct r1 as [[]|e|c|].
  - exists r2, (l1 ++ l2)%list. split; [now apply Forall_app|]. split.
    + intros w. unfold bind. rewrite Hp1, Hp2. now rewrite shown_app.
    + intros w chunks H. unfold bind. rewrite (Hs1 w chunks H).
      rewrite (Hs2 (saved (chunks ++ map with_nl l1) w)
                 (chunks ++ map with_nl l1)%list eq_refl).
      unfold saved. simpl. now rewrite map_app, app_assoc.
  - exists (Raised e), l1. split; [assumption|]. split.
    + intros w. unfold bind. now rewrite Hp1.
    + intros w chunks H. unfold bind. now rewrite (Hs1 w chunks H).
  - exists (SysExit c), l1. split; [assumption|]. split.
    + intros w. unfold bind. now rewrite Hp1.
    + intros w chunks H. unfold bind. now rewrite (Hs1 w chunks H).
  - exists OutOfFuel, l1. split; [assumption|]. split.
    + intros w. unfold bind. now rewrite Hp1.
    + intros w chunks H. unfold bind. now rewrite (Hs1 w chunks H).
Qed.

Lemma mirrors_for_each {A} (l : list A) (p s : A -> M unit) :
  (forall x, In x l -> mirrors P (p x) (s x)) ->
  mirrors P (for_each l p) (for_each l s).
Proof.
  induction l as [|x l IH]; intros H; simpl.
  - apply mirrors_ret.
  - apply mirrors_seq; [apply H; now left | apply IH; intros y Hy; apply H; now right].
Qed.

(** A computation that leaves the world alone may come first. *)
Lemma mirrors_after_pure {A} (m : M A) (p s : A -> M unit) :
  (exists r, forall w, m w = (r, w)) ->
  (forall a, mirrors P (p a) (s a)) ->
  mirrors P (bind m p) (bind m s).
Proof.
  intros [r Hm] H. destruct r as [a|e|c|].
  - destruct (H a) as [r [lines [F [Hp Hs]]]]. exists r, lines.
    split; [assumption|]. split.
    + intros w. unfold bind. rewrite Hm. apply Hp.
    + intros w chunks Hc. unfold bind. rewrite Hm. now apply Hs.
  - exists (Raised e), []. split; [constructor|]. split.
    + intros w. unfold bind. now rewrite Hm, shown_nil.
    + intros [o q f] chunks Hc. simpl in Hc. subst f. unfold bind. rewrite Hm.
      unfold saved. simpl. now rewrite app_nil_r.
  - exists (SysExit c), []. split; [constructor|]. split.
    + intros w. unfold bind. now rewrite Hm, shown_nil.
    + intros [o q f] chunks Hc. simpl in Hc. subst f. unfold bind. rewrite Hm.
      unfold saved. simpl. now rewrite app_nil_r.
  - exists OutOfFuel, []. split; [constructor|]. split.
    + intros w. unfold bind. now rewrite Hm, shown_nil.
    + intros [o q f] chunks Hc. simpl in Hc. subst f. unfold bind. rewrite Hm.
      unfold saved. simpl. now rewrite app_nil_r.
Qed.

End Mirrors.

Lemma fold_M_pure {A B} (body : B -> A -> M B) (l : list A) :
  (forall acc x, exists r, forall w, body acc x w = (r, w)) ->
  forall acc, exists r, forall w, fold_M body l acc w = (r, w).
Proof.
  intros H. induction l as [|x l IH]; intros acc; simpl.
  - now exists (Val acc).
  - destruct (H acc x) as [r Hr]. destruct r as [acc'|e|c|].
    + destruct (IH acc') as [r' Hr']. exists r'. intros w.
      unfold bind. now rewrite Hr.
    + exists (Raised e). intros w. unfold bind. now rewrite Hr.
    + exists (SysExit c). intros w. unfold bind. now rewrite Hr.
    + exists OutOfFuel. intros w. unfold bind. now rewrite Hr.
Qed.

Lemma group_by_status_pure (dep_prefix : string) (results : dict string) :
  exists r, forall w, group_by_status dep_prefix results w = (r, w).
Proof.
  apply fold_M_pure. intros acc [repo status]. unfold group_item.
  destruct (dict_get status acc); eexists; reflexivity.
Qed.

(** Both sinks, from the same results: after the first line the console
    shows what the file receives, line by line. *)
Lemma render_both (dep_prefix : string) (all_results : dict (dict string)) :
  exists r body,
    Forall (body_line (dict_keys all_results)) body
    /\ (forall w, print_report dep_prefix all_results w
                  = (r, shown ((nl ++ header dep_prefix) :: body) w))
    /\ (forall w, save_report dep_prefix all_results w
                  = (r, saved ((header dep_prefix ++ nl) :: map with_nl body) w)).
Proof.
  unfold print_report, save_report.
  lazymatch goal with
  | |- exists r body, _
         /\ (forall w1, (print _ ;;; for_each _ ?p) w1 = _)
         /\ (forall w2, (open_output ;;; out_write _ ;;; for_each _ ?s) w2 = _) =>
      assert (Hb : mirrors (body_line (dict_keys all_results))
                     (for_each all_results p) (for_each all_results s))
  end.
  { apply mirrors_for_each. intros [org results] Hin. cbv beta iota.
    apply mirrors_seq.
    - apply mirrors_print; [|now rewrite !append_assoc].
      left. exists org. split; [|reflexivity]. apply (in_map fst) in Hin. exact Hin.
    - apply mirrors_after_pure; [apply group_by_status_pure|].
      intros groups. apply mirrors_for_each. intros [status repos] _.
      destruct repos as [|repo repos]; [apply mirrors_ret|].
      apply mirrors_seq.
      + apply mirrors_print; [|now rewrite !append_assoc].
        right. exists (" " ++ status ++ ":"). reflexivity.
      + apply mirrors_for_each. intros x _.
        apply mirrors_print; [|now rewrite !append_assoc].
        right. exists ("   " ++ x). reflexivity. }
  destruct Hb as [r [body [F [Hp Hs]]]]. exists r, body.
  split; [exact F|]. split.
  - intros w. unfold bind at 1, print at 1. cbv beta iota. rewrite Hp.
    unfold shown. cbn [stdout requests output_txt]. now rewrite <- app_assoc.
  - intros w. unfold bind at 1, open_output at 1. cbv beta iota.
    unfold bind at 1, out_write at 1. cbv beta iota.
    cbn [output_txt stdout requests].
    erewrite Hs by reflexivity.
    unfold saved, header. cbn [output_txt stdout requests app].
    now rewrite !append_assoc.
Qed.

(** C7 (amended): for the same results both sinks end the same way, and
    the console shows the text written to output.txt preceded by one
    newline: after that the header, the organization headings, the
    status groups and the sorted repository lines are the same, line by
    line. *)
Theorem console_report_is_file_report_after_newline
    (dep_prefix : string) (all_results : dict (dict string)) (w1 w2 : World) :
  exists r lines chunks,
    print_report dep_prefix all_results w1 = (r, shown lines w1)
    /\ save_report dep_prefix all_results w2 = (r, saved chunks w2)
    /\ (exists body, lines = (nl ++ header dep_prefix) :: body
                     /\ chunks = with_nl (header dep_prefix) :: map with_nl body)
    /\ console_text lines = nl ++ file_text chunks.
Proof.
  destruct (render_both dep_prefix all_results) as [r [body [_ [Hp Hs]]]].
  exists r, ((nl ++ header dep_prefix) :: body),
    (with_nl (header dep_prefix) :: map with_nl body).
  split; [apply Hp|]. split; [apply Hs|]. split; [now exists body|].
  unfold console_text, file_text. cbn [map]. rewrite !concat_cons.
  unfold with_nl at 1 2. fold with_nl.
  now rewrite !append_assoc.
Qed.

(** C7, as stated, fails: for the results of the acme scenario the text
    on the console and the text in output.txt differ (in the leading
    newline). *)
Lemma renderings_differ :
  fst (scan_orgs acme_remote JsonText.loads in_order 10 0 ["acme"] "ag-grid" "main" []
         world0) = Val acme_results
  /\ exists lines chunks,
      print_report "ag-grid" acme_results world0 = (Val tt, shown lines world0)
      /\ save_report "ag-grid" acme_results world0 = (Val tt, saved chunks world0)
      /\ console_text lines <> file_text chunks.
Proof.
  split; [vm_compute; reflexivity|].
  eexists. eexists. split; [vm_compute; reflexivity|].
  split; [vm_compute; reflexivity|]. vm_compute. discriminate.
Qed.

(** ** Runs of the lister in any world *)

Lemma appends_world (out reqs out' reqs' : list string) (w : World) :
  mkWorld (stdout (mkWorld (stdout w ++ out) (requests w ++ reqs) (output_txt w)) ++ out')
    (requests (mkWorld (stdout w ++ out) (requests w ++ reqs) (output_txt w)) ++ reqs')
    (output_txt (mkWorld (stdout w ++ out) (requests w ++ reqs) (output_txt w)))
  = mkWorld (stdout w ++ (out ++ out')) (requests w ++ (reqs ++ reqs')) (output_txt w).
Proof. simpl. now rewrite !app_assoc. Qed.

Lemma appends_nothing (w : World) :
  mkWorld (stdout w ++ []) (requests w ++ []) (output_txt w) = w.
Proof. destruct w. simpl. now rewrite !app_nil_r. Qed.

Lemma raise_for_status_cases (url : string) (r : Response) :
  (exists msg, forall w, raise_for_status url r w = (Raised (mkExn HTTPError msg), w))
  \/ (forall w, raise_for_status url r w = (Val tt, w)).
Proof.
  unfold raise_for_status.
  destruct ((400 <=? status_code r) && (status_code r <? 500))%Z;
    [left; eexists; reflexivity|].
  destruct ((500 <=? status_code r) && (status_code r <? 600))%Z;
    [left; eexists; reflexivity|].
  now right.
Qed.

Section ListerRuns.

Variable remote : string -> HttpResult.
Variable org : string.

(** The lister never raises: it runs out of fuel or returns the names it
    had, possibly with more; it prints nothing but error lines. *)
Lemma get_org_repos_loop_runs (fuel : nat) :
  forall (repos : list string) (page : nat),
  exists r out reqs,
    appends (get_org_repos_loop remote fuel org repos page) r out reqs
    /\ Forall (error_line org) out
    /\ (r = OutOfFuel \/ exists more, r = Val (repos ++ more)%list).
Proof.
  induction fuel as [|fuel IH]; intros repos page.
  { exists OutOfFuel, [], []. split; [|split; [constructor | now left]].
    intros w. unfold get_org_repos_loop, out_of_fuel. now rewrite appends_nothing. }
  set (url := listing_url org page).
  assert (Stop : forall msg,
            page_failed url (remote url) msg ->
            exists r out reqs,
              appends (get_org_repos_loop remote (S fuel) org repos page) r out reqs
              /\ Forall (error_line org) out
              /\ (r = OutOfFuel \/ exists more, r = Val (repos ++ more)%list)).
  { intros msg Hf.
    exists (Val repos), ["Error fetching repos for " ++ org ++ ": " ++ msg], [url].
    split; [|split].
    - intros w. now rewrite (loop_failed_page remote org fuel page repos msg w Hf).
    - constructor; [now exists msg | constructor].
    - right. exists []. now rewrite app_nil_r. }
  destruct (remote url) as [msg|r] eqn:Hr; [apply (Stop msg); now left|].
  destruct (raise_for_status_cases url r) as [[msg Hs]|Hs];
    [apply (Stop msg); right; left; eauto|].
  destruct (json r) as [msg|data] eqn:Hj;
    [apply (Stop msg); right; right; eauto|].
  clear Stop.
  assert (Fetch : forall (k : list (dict string) -> M (Ctl * list string))
                         (h : Exn -> M (Ctl * list string)) w,
             try_except
               (response <- requests_get remote url ;;
                raise_for_status url response ;;;
                data <- response_json response ;; k data)
               except_Exception h w
             = try_except (k data) except_Exception h (logged url w)).
  { intros k h w. unfold try_except, bind at 1, requests_get. rewrite Hr.
    cbv beta iota. unfold bind at 1. rewrite Hs. cbv beta iota.
    unfold bind at 1, response_json. now rewrite Hj. }
  cbn [get_org_repos_loop]. fold url.
  destruct data as [|rd data].
  { exists (Val repos), [], [url]. split; [|split].
    - intros w. unfold bind at 1. rewrite Fetch. unfold try_except, ret, logged.
      cbn [stdout requests output_txt]. now rewrite app_nil_r.
    - constructor.
    - right. exists []. now rewrite app_nil_r. }
  destruct (append_full_names_extends (rd :: data) repos) as [more Hmore].
  destruct (append_full_names (rd :: data) repos) as [repos' [e|]] eqn:Ha;
    simpl in Hmore; subst repos'.
  - exists (Val (repos ++ more)%list),
      ["Error fetching repos for " ++ org ++ ": " ++ exn_str e], [url].
    split; [|split].
    + intros w. unfold bind at 1. rewrite Fetch. cbv beta iota. now rewrite Ha.
    + constructor; [now exists (exn_str e) | constructor].
    + right. now exists more.
  - destruct (IH (repos ++ more)%list (S page)) as [r' [out [reqs [Happ [Hout Hres]]]]].
    exists r', out, (url :: reqs). split; [|split].
    + intros w. unfold bind at 1. rewrite Fetch. cbv beta iota. rewrite Ha.
      unfold try_except, ret at 1. cbv beta iota. rewrite Happ.
      unfold logged. cbn [stdout requests output_txt]. now rewrite <- app_assoc.
    + exact Hout.
    + destruct Hres as [->|[more' ->]]; [now left|].
      right. exists (more ++ more')%list. now rewrite app_assoc.
Qed.

End ListerRuns.

(** ** Composing runs *)

Section Appends.

Context {A B : Type}.

Lemma appends_ret (a : A) : appends (ret a) (Val a) [] [].
Proof. intros w. unfold ret. now rewrite appends_nothing. Qed.

Lemma appends_bind_val (m : M A) (k : A -> M B) (a : A) (r : Res B)
    (o1 q1 o2 q2 : list string) :
  appends m (Val a) o1 q1 -> appends (k a) r o2 q2 ->
  appends (bind m k) r (o1 ++ o2) (q1 ++ q2).
Proof.
  intros H1 H2 w. unfold bind. rewrite H1, H2. now rewrite appends_world.
Qed.

Lemma appends_bind_raised (m : M A) (k : A -> M B) (e : Exn) (o q : list string) :
  appends m (Raised e) o q -> appends (bind m k) (Raised e) o q.
Proof. intros H w. unfold bind. now rewrite H. Qed.

Lemma appends_bind_out_of_fuel (m : M A) (k : A -> M B) (o q : list string) :
  appends m OutOfFuel o q -> appends (bind m k) OutOfFuel o q.
Proof. intros H w. unfold bind. now rewrite H. Qed.

End Appends.

Lemma appends_print (line : string) : appends (print line) (Val tt) [line] [].
Proof.
  intros w. unfold print. f_equal. destruct w. simpl. now rewrite app_nil_r.
Qed.

Lemma appends_probed {A} (m : M A) (r : Res A) (branch : string) (order : list string) :
  (forall w, m w = (r, probed branch order w)) ->
  appends m r [] (map (fun repo => manifest_url repo branch) order).
Proof.
  intros H w. rewrite H. unfold probed. f_equal. destruct w. simpl.
  now rewrite app_nil_r.
Qed.

Lemma same_entries_set (org : string) (d1 d2 : dict string)
    (a1 a2 : dict (dict string)) :
  Permutation d1 d2 -> Forall2 same_entries a1 a2 ->
  Forall2 same_entries (dict_set org d1 a1) (dict_set org d2 a2).
Proof.
  intros Hd. induction 1 as [|[o1 e1] [o2 e2] a1 a2 [Ho He] Hr IH]; simpl.
  - constructor; [split; [reflexivity | exact Hd] | constructor].
  - simpl in Ho. subst o2. destruct (o1 =? org).
    + constructor; [split; [reflexivity | exact Hd] | exact Hr].
    + constructor; [split; [reflexivity | exact He] | exact IH].
Qed.

Lemma not_heading_starting (c : ascii) (rest : string) :
  c <> "010"%char -> not_heading (String c rest).
Proof. intros H org E. unfold heading in E. simpl in E. congruence. Qed.

Lemma not_heading_second (c : ascii) (rest : string) :
  c <> "O"%char -> not_heading (nl ++ String c rest).
Proof. intros H org E. unfold heading in E. simpl in E. congruence. Qed.

(** ** Runs of the loop over the organizations *)

Ltac after_print := eapply appends_bind_val; [apply appends_print|].
Ltac after_run H := eapply appends_bind_val; [exact H|].

Lemma listing_runs (remote : string -> HttpResult) (fuel : nat) (org : string) :
  exists out reqs,
    appends (get_org_repos remote fuel org) (listing remote fuel org) out reqs
    /\ Forall not_heading out
    /\ (listing remote fuel org = OutOfFuel
        \/ exists repos, listing remote fuel org = Val repos).
Proof.
  destruct (get_org_repos_loop_runs remote org fuel [] 1)
    as [r [out [reqs [Ha [Ho Hr]]]]].
  assert (E : listing remote fuel org = r).
  { unfold listing, get_org_repos. now rewrite Ha. }
  exists out, reqs. rewrite E. split; [exact Ha|]. split.
  - eapply Forall_impl; [|exact Ho]. intros line [msg ->].
    apply not_heading_starting. discriminate.
  - destruct Hr as [->|[more ->]]; [now left | right; eauto].
Qed.

Section ScanRuns.

Variable remote : string -> HttpResult.
Variable json_parse : string -> string + Value.
Variables s1 s2 : nat -> list string -> list string.
Variable fuel : nat.
Variables dep_prefix branch : string.

Hypothesis same_probes : forall i repos, Permutation (s1 i repos) (s2 i repos).

(** Two scans whose probes complete in different orders print the same
    lines, none of them a heading, and end alike; an organization gets
    an entry only if its listing is not empty. *)
Lemma scan_orgs_runs (orgs : list string) :
  forall (i : nat) (acc1 acc2 : dict (dict string)),
    Forall2 same_entries acc1 acc2 ->
    exists r1 r2 out reqs1 reqs2,
      appends (scan_orgs remote json_parse s1 fuel i orgs dep_prefix branch acc1)
        r1 out reqs1
      /\ appends (scan_orgs remote json_parse s2 fuel i orgs dep_prefix branch acc2)
           r2 out reqs2
      /\ scans_agree r1 r2
      /\ Forall not_heading out
      /\ (forall res, r1 = Val res ->
          dict_keys res
          = fold_left add_key (filter (has_repos remote fuel) orgs) (dict_keys acc1)).
Proof.
  induction orgs as [|org rest IH]; intros i acc1 acc2 Hacc.
  { exists (Val acc1), (Val acc2), [], [], [].
    split; [apply appends_ret|]. split; [apply appends_ret|].
    split; [exact Hacc|]. split; [constructor|].
    intros res E. now injection E as <-. }
  destruct (listing_runs remote fuel org) as [lout [lreqs [Hl [Hlo Hlr]]]].
  cbn [scan_orgs].
  set (fetching := nl ++ "Fetching repositories for organization: " ++ org).
  assert (Hfetching : not_heading fetching)
    by (apply not_heading_second; discriminate).
  destruct Hlr as [Ef|[repos Ev]].
  { rewrite Ef in Hl.
    exists OutOfFuel, OutOfFuel, ([fetching] ++ lout)%list, ([] ++ lreqs)%list,
      ([] ++ lreqs)%list.
    split; [|split; [|split; [exact I|split]]].
    - after_print.
      now apply appends_bind_out_of_fuel.
    - after_print.
      now apply appends_bind_out_of_fuel.
    - now constructor.
    - intros res E. discriminate. }
  rewrite Ev in Hl. destruct repos as [|repo repos].
  { destruct (IH (S i) acc1 acc2 Hacc)
      as [r1 [r2 [out [q1 [q2 [H1 [H2 [Hag [Ho Hk]]]]]]]]].
    set (none := "No repositories found for " ++ org).
    exists r1, r2, ([fetching] ++ lout ++ [none] ++ out)%list,
      ([] ++ lreqs ++ [] ++ q1)%list, ([] ++ lreqs ++ [] ++ q2)%list.
    assert (Hempty : has_repos remote fuel org = false)
      by (unfold has_repos; now rewrite Ev).
    split; [|split; [|split; [exact Hag|split]]].
    4:{ intros res E. cbn [filter]. rewrite Hempty. now apply Hk. }
    - after_print. after_run Hl. after_print. exact H1.
    - after_print. after_run Hl. after_print. exact H2.
    - constructor; [exact Hfetching|]. apply Forall_app. split; [exact Hlo|].
      constructor; [apply not_heading_starting; discriminate | exact Ho]. }
  set (found := "Found " ++ str_of_nat (List.length (repo :: repos))
                  ++ " repositories. Checking for '" ++ dep_prefix ++ "'...").
  assert (Hfound : not_heading found)
    by (apply not_heading_starting; discriminate).
  set (f := status_of remote json_parse dep_prefix branch).
  destruct (scan_org_cases remote json_parse s1 dep_prefix branch i (repo :: repos))
    as [[Hall1 E1]|[Hex1 [e1 E1]]];
    destruct (scan_org_cases remote json_parse s2 dep_prefix branch i (repo :: repos))
    as [[Hall2 E2]|[Hex2 [e2 E2]]].
  - destruct (IH (S i)
                (dict_set org (collected f (s1 i (repo :: repos)) []) acc1)
                (dict_set org (collected f (s2 i (repo :: repos)) []) acc2))
      as [r1 [r2 [out [q1 [q2 [H1 [H2 [Hag [Ho Hk]]]]]]]]].
    { apply same_entries_set; [|exact Hacc]. apply collected_perm, same_probes. }
    exists r1, r2, ([fetching] ++ lout ++ [found] ++ [] ++ out)%list,
      ([] ++ lreqs ++ []
         ++ map (fun r => manifest_url r branch) (s1 i (repo :: repos)) ++ q1)%list,
      ([] ++ lreqs ++ []
         ++ map (fun r => manifest_url r branch) (s2 i (repo :: repos)) ++ q2)%list.
    split; [|split; [|split; [exact Hag|split]]].
    + after_print. after_run Hl. after_print.
      after_run (appends_probed _ _ _ _ E1). exact H1.
    + after_print. after_run Hl. after_print.
      after_run (appends_probed _ _ _ _ E2). exact H2.
    + constructor; [exact Hfetching|]. apply Forall_app. split; [exact Hlo|].
      constructor; [exact Hfound | exact Ho].
    + intros res E. cbn [filter].
      assert (Hsome : has_repos remote fuel org = true)
        by (unfold has_repos; now rewrite Ev).
      rewrite Hsome. cbn [fold_left]. rewrite (Hk res E). now rewrite dict_keys_set_add.
  - exfalso. apply Exists_exists in Hex2. destruct Hex2 as [x [Hin Hx]].
    rewrite Forall_forall in Hall1. apply Hx, Hall1.
    apply (Permutation_in _ (Permutation_sym (same_probes i (repo :: repos)))), Hin.
  - exfalso. apply Exists_exists in Hex1. destruct Hex1 as [x [Hin Hx]].
    rewrite Forall_forall in Hall2. apply Hx, Hall2.
    apply (Permutation_in _ (same_probes i (repo :: repos))), Hin.
  - exists (Raised e1), (Raised e2), ([fetching] ++ lout ++ [found] ++ [])%list,
      ([] ++ lreqs ++ []
         ++ map (fun r => manifest_url r branch) (s1 i (repo :: repos)))%list,
      ([] ++ lreqs ++ []
         ++ map (fun r => manifest_url r branch) (s2 i (repo :: repos)))%list.
    split; [|split; [|split; [exact I|split]]].
    + after_print. after_run Hl. after_print.
      apply appends_bind_raised. apply appends_probed, E1.
    + after_print. after_run Hl. after_print.
      apply appends_bind_raised. apply appends_probed, E2.
    + constructor; [exact Hfetching|]. apply Forall_app. split; [exact Hlo|].
      constructor; [exact Hfound | constructor].
    + intros res E. discriminate.
Qed.

End ScanRuns.

(** ** The whole run *)

Lemma group_by_status_perm (dep_prefix : string) (d1 d2 : dict string) :
  Permutation d1 d2 -> group_by_status dep_prefix d1 = group_by_status dep_prefix d2.
Proof.
  intros H. unfold group_by_status.
  now rewrite (sorted_of_perm pair_lt pair_lt_irrefl pair_lt_trans pair_lt_total d1 d2 H).
Qed.

Lemma for_each_same_entries (f : string * dict string -> M unit)
    (a1 a2 : dict (dict string)) :
  (forall (org : string) (d1 d2 : dict string),
     Permutation d1 d2 -> f (org, d1) = f (org, d2)) ->
  Forall2 same_entries a1 a2 -> for_each a1 f = for_each a2 f.
Proof.
  intros Hf. induction 1 as [|[o1 d1] [o2 d2] a1 a2 [Ho Hd] _ IH]; [reflexivity|].
  simpl in Ho, Hd. subst o2. cbn [for_each]. now rewrite IH, (Hf o1 d1 d2 Hd).
Qed.

(** The report reads the results of an organization through [sorted]
    only: the order of their entries does not show. *)
Lemma report_respects (dep_prefix : string) (a1 a2 : dict (dict string)) :
  Forall2 same_entries a1 a2 ->
  print_report dep_prefix a1 = print_report dep_prefix a2
  /\ save_report dep_prefix a1 = save_report dep_prefix a2.
Proof.
  intros H. unfold print_report, save_report. split.
  - f_equal.
    lazymatch goal with
    | |- (fun _ => for_each _ ?f) = _ => rewrite (for_each_same_entries f a1 a2)
    end; [reflexivity | | exact H].
    intros org d1 d2 Hd. cbv beta iota. now rewrite (group_by_status_perm _ d1 d2 Hd).
  - f_equal.
    lazymatch goal with
    | |- (fun _ => _ ;;; for_each _ ?f) = _ => rewrite (for_each_same_entries f a1 a2)
    end; [reflexivity | | exact H].
    intros org d1 d2 Hd. cbv beta iota. now rewrite (group_by_status_perm _ d1 d2 Hd).
Qed.

(** The end of main: the report on the console, then in the file, then
    the closing line; nothing is written when the report fails. *)
Lemma report_and_save (dep_prefix : string) (all_results : dict (dict string)) :
  exists r body,
    Forall (body_line (dict_keys all_results)) body
    /\ forall w,
        (print_report dep_prefix all_results ;;;
         save_report dep_prefix all_results ;;;
         print (nl ++ "Results saved to output.txt")) w
        = match r with
          | Val _ =>
              (Val tt,
               mkWorld (stdout w ++ (nl ++ header dep_prefix) :: body
                          ++ [nl ++ "Results saved to output.txt"])
                 (requests w)
                 (Some (with_nl (header dep_prefix) :: map with_nl body)))
          | _ => (r, shown ((nl ++ header dep_prefix) :: body) w)
          end.
Proof.
  destruct (render_both dep_prefix all_results) as [r [body [F [Hp Hs]]]].
  exists r, body. split; [exact F|]. intros w.
  unfold bind at 1. rewrite Hp. destruct r as [[]|e|c|]; try reflexivity.
  unfold bind at 1. rewrite Hs. unfold print, saved, shown.
  cbn [stdout requests output_txt]. now rewrite <- app_assoc.
Qed.

Lemma heading_inj (org org' : string) : heading org = heading org' -> org = org'.
Proof. unfold heading. simpl. intros H. now injection H. Qed.

Lemma with_nl_inj (a : string) : forall b, with_nl a = with_nl b -> a = b.
Proof.
  unfold with_nl, nl.
  induction a as [|x a IH]; intros [|y b]; simpl; intros H; try reflexivity.
  - injection H as _ H. destruct b; discriminate.
  - injection H as _ H. destruct a; discriminate.
  - injection H as -> H. f_equal. now apply IH.
Qed.

(** A body line is the heading of [org] only if [org] is among the
    reported organizations. *)
Lemma body_line_heading (orgs : list string) (org : string) :
  body_line orgs (heading org) -> In org orgs.
Proof.
  intros [[org' [Hin E]]|[rest E]].
  - apply heading_inj in E. now subst.
  - unfold heading in E. simpl in E. discriminate.
Qed.

Lemma bind_run {A B} (m : M A) (k : A -> M B) (w : World) :
  bind m k w
  = match m w with
    | (Val a, w') => k a w'
    | (Raised e, w') => (Raised e, w')
    | (SysExit c, w') => (SysExit c, w')
    | (OutOfFuel, w') => (OutOfFuel, w')
    end.
Proof. reflexivity. Qed.

Section Runs.

Variable remote : string -> HttpResult.
Variable json_parse : string -> string + Value.
Variable fuel : nat.
Variables txt_file dep_prefix branch : string.

(** Without the file, or without an organization in it, main prints its
    message and exits with code 1; nothing was requested. *)
Lemma main_missing_file (as_completed : nat -> list string -> list string) (w : World) :
  main remote json_parse as_completed fuel txt_file None dep_prefix branch w
  = (SysExit 1, printed ("File not found: " ++ txt_file) w).
Proof. reflexivity. Qed.

Lemma main_no_organization (as_completed : nat -> list string -> list string)
    (content : string) (w : World) :
  Forall (fun line => strip line = EmptyString) (readlines content) ->
  main remote json_parse as_completed fuel txt_file (Some content) dep_prefix branch w
  = (SysExit 1, printed "No organizations found in the file." w).
Proof.
  intros H. unfold main.
  assert (E : filter (fun line => truthy (strip line)) (readlines content) = []).
  { induction (readlines content) as [|line lines IH]; [reflexivity|].
    inversion H as [|? ? Hl Hr]; subst. simpl. rewrite Hl. simpl. now apply IH. }
  rewrite E. reflexivity.
Qed.

(** Two runs whose probes complete in different orders show the same
    console lines, leave the same output.txt and end alike. *)
Lemma main_runs_agree
    (s1 s2 : nat -> list string -> list string) (txt : option string) (w : World) :
  (forall i repos, Permutation (s1 i repos) repos) ->
  (forall i repos, Permutation (s2 i repos) repos) ->
  let run1 := main remote json_parse s1 fuel txt_file txt dep_prefix branch w in
  let run2 := main remote json_parse s2 fuel txt_file txt dep_prefix branch w in
  stdout (snd run1) = stdout (snd run2)
  /\ output_txt (snd run1) = output_txt (snd run2)
  /\ (fst run1 = Val tt <-> fst run2 = Val tt).
Proof.
  intros P1 P2 run1 run2. subst run1 run2. unfold main.
  destruct txt as [content|]; [|repeat split; auto].
  destruct (map strip (filter (fun line => truthy (strip line)) (readlines content)))
    as [|org orgs]; [repeat split; auto|].
  assert (P : forall i repos, Permutation (s1 i repos) (s2 i repos)).
  { intros i repos. rewrite P1. symmetry. apply P2. }
  destruct (scan_orgs_runs remote json_parse s1 s2 fuel dep_prefix branch P
              (org :: orgs) 0 [] [])
    as [r1 [r2 [out [q1 [q2 [H1 [H2 [Hag _]]]]]]]]; [constructor|].
  rewrite !bind_run, H1, H2.
  destruct r1 as [a1|e1|c1|], r2 as [a2|e2|c2|]; simpl in Hag; try contradiction;
    try (repeat split; intros; discriminate).
  destruct (report_respects dep_prefix a1 a2 Hag) as [-> ->].
  destruct (report_and_save dep_prefix a2) as [r [body [_ Ht]]].
  rewrite !Ht. destruct r; repeat split; auto.
Qed.

(** The organizations of the results are those with a non-empty listing,
    in the order of their first occurrence in the input. *)
Lemma scan_orgs_keys (as_completed : nat -> list string -> list string)
    (orgs : list string) (all_results : dict (dict string)) (w : World) :
  fst (scan_orgs remote json_parse as_completed fuel 0 orgs dep_prefix branch [] w)
  = Val all_results ->
  dict_keys all_results = first_seen (filter (has_repos remote fuel) orgs).
Proof.
  destruct (scan_orgs_runs remote json_parse as_completed as_completed fuel
              dep_prefix branch (fun _ _ => Permutation_refl _) orgs 0 [] [])
    as [r1 [r2 [out [q1 [q2 [H1 [_ [_ [_ Hk]]]]]]]]]; [constructor|].
  rewrite H1. cbn [fst]. intros ->. now apply Hk.
Qed.

(** C10: an organization whose listing is empty has no heading on the
    console of the run, and none in the output.txt the run writes. *)
Theorem empty_listing_not_reported
    (as_completed : nat -> list string -> list string) (txt : option string)
    (w : World) (org : string) :
  listing remote fuel org = Val [] ->
  let run := main remote json_parse as_completed fuel txt_file txt dep_prefix branch w in
  exists out,
    stdout (snd run) = (stdout w ++ out)%list
    /\ ~ In (nl ++ "Organization: " ++ org) out
    /\ (output_txt (snd run) = output_txt w
        \/ exists chunks, output_txt (snd run) = Some chunks
                          /\ ~ In (nl ++ "Organization: " ++ org ++ nl) chunks).
Proof.
  intros Hempty run. subst run. unfold main.
  destruct txt as [content|].
  2:{ exists ["File not found: " ++ txt_file]. split; [reflexivity|].
      split; [|now left]. intros [E|[]]. discriminate. }
  destruct (map strip (filter (fun line => truthy (strip line)) (readlines content)))
    as [|o orgs].
  { exists ["No organizations found in the file."]. split; [reflexivity|].
    split; [|now left]. intros [E|[]]. discriminate. }
  destruct (scan_orgs_runs remote json_parse as_completed as_completed fuel
              dep_prefix branch (fun _ _ => Permutation_refl _) (o :: orgs) 0 [] [])
    as [r1 [r2 [out [q1 [q2 [H1 [_ [_ [Ho Hk]]]]]]]]]; [constructor|].
  assert (Hout : ~ In (heading org) out).
  { intros Hin. rewrite Forall_forall in Ho. exact (Ho _ Hin org eq_refl). }
  rewrite bind_run, H1.
  destruct r1 as [a|e|c|]; try (exists out; split; [reflexivity|]; split;
                                [exact Hout | now left]).
  assert (Hnot : ~ In org (dict_keys a)).
  { intros Hin. rewrite (Hk a eq_refl) in Hin.
    apply in_fold_add_key in Hin. destruct Hin as [[]|Hin].
    apply filter_In in Hin. destruct Hin as [_ Hin].
    unfold has_repos in Hin. rewrite Hempty in Hin. discriminate. }
  destruct (report_and_save dep_prefix a) as [r [body [Hb Ht]]].
  rewrite Ht. rewrite Forall_forall in Hb.
  assert (Hbody : ~ In (heading org) body).
  { intros Hin. apply Hnot, body_line_heading, Hb, Hin. }
  assert (Hheader : heading org <> nl ++ header dep_prefix) by discriminate.
  set (first := nl ++ header dep_prefix) in *.
  set (last := nl ++ "Results saved to output.txt") in *.
  destruct r as [[]|e|c|].
  - exists (out ++ first :: body ++ [last])%list.
    split; [cbn [snd stdout]; now rewrite app_assoc|]. split.
    + intros Hin. apply in_app_or in Hin. destruct Hin as [Hin|[E|Hin]]; auto.
      apply in_app_or in Hin. destruct Hin as [Hin|[E|[]]]; auto. discriminate.
    + right. eexists. split; [reflexivity|].
      change (nl ++ "Organization: " ++ org ++ nl) with (with_nl (heading org)).
      intros [E|Hin].
      * apply with_nl_inj in E. discriminate.
      * apply in_map_iff in Hin. destruct Hin as [line [E Hin]].
        apply with_nl_inj in E. subst line. exact (Hbody Hin).
  - exists (out ++ first :: body)%list.
    split; [cbn [snd stdout shown]; now rewrite app_assoc|]. split; [|now left].
    intros Hin. apply in_app_or in Hin. destruct Hin as [Hin|[E|Hin]]; auto.
  - exists (out ++ first :: body)%list.
    split; [cbn [snd stdout shown]; now rewrite app_assoc|]. split; [|now left].
    intros Hin. apply in_app_or in Hin. destruct Hin as [Hin|[E|Hin]]; auto.
  - exists (out ++ first :: body)%list.
    split; [cbn [snd stdout shown]; now rewrite app_assoc|]. split; [|now left].
    intros Hin. apply in_app_or in Hin. destruct Hin as [Hin|[E|Hin]]; auto.
Qed.

End Runs.

Lemma empty_listing_not_reported_witness :
  let run := main acme_remote JsonText.loads in_order 10 "orgs.txt"
               (Some ("acme" ++ nl ++ "empty")) "ag-grid" "main" world0 in
  exists out,
    stdout (snd run) = (stdout world0 ++ out)%list
    /\ ~ In (nl ++ "Organization: " ++ "empty") out
    /\ (output_txt (snd run) = output_txt world0
        \/ exists chunks, output_txt (snd run) = Some chunks
                          /\ ~ In (nl ++ "Organization: " ++ "empty" ++ nl) chunks).
Proof.
  apply (empty_listing_not_reported acme_remote JsonText.loads 10 "orgs.txt"
           "ag-grid" "main" in_order (Some ("acme" ++ nl ++ "empty")) world0 "empty").
  vm_compute. reflexivity.
Defined.

(** C9: a probe that fails outside the two handled exceptions ends the
    run.  With one repository whose manifest is the JSON text [[]], main
    stops with the AttributeError of the probe, re-raised by
    [future.result()], after the two progress lines: no report is
    printed and output.txt is not written.  A status 204 does the same
    through the TypeError of unpacking None. *)
Theorem probe_failure_ends_run :
  main array_remote JsonText.loads in_order 10 "orgs.txt" (Some "acme")
    "ag-grid" "main" world0
  = (Raised (mkExn AttributeError "'list' object has no attribute 'get'"),
     mkWorld
       [nl ++ "Fetching repositories for organization: acme";
        "Found 1 repositories. Checking for 'ag-grid'..."]
       [listing_url "acme" 1; listing_url "acme" 2; manifest_url "acme/a" "main"]
       None)
  /\ fst (main no_content_remote JsonText.loads in_order 10 "orgs.txt" (Some "acme")
            "ag-grid" "main" world0)
     = Raised (mkExn TypeError "cannot unpack non-iterable NoneType object").
Proof. split; vm_compute; reflexivity. Qed.

(** * The two scripts in general *)

(** ** The lister, page by page *)

Section ListerTrace.

Variable remote : string -> HttpResult.
Variable org : string.

Lemma get_org_repos_loop_trace (fuel : nat) :
  forall (repos : list string) (page : nat),
  exists r out k,
    appends (get_org_repos_loop remote fuel org repos page) r out
      (map (listing_url org) (seq page k))
    /\ k <= fuel
    /\ ((r = OutOfFuel /\ out = [] /\ k = fuel)
        \/ (exists more, r = Val (repos ++ more)%list) /\ 1 <= k
           /\ (out = [] \/ exists msg, out = ["Error fetching repos for " ++ org ++ ": " ++ msg])).
Proof.
  induction fuel as [|fuel IH]; intros repos page.
  { exists OutOfFuel, [], 0. split; [|split; [lia | now left]].
    intros w. unfold get_org_repos_loop, out_of_fuel. simpl. now rewrite appends_nothing. }
  set (url := listing_url org page).
  assert (Stop : forall msg,
            page_failed url (remote url) msg ->
            exists r out k,
              appends (get_org_repos_loop remote (S fuel) org repos page) r out
                (map (listing_url org) (seq page k))
              /\ k <= S fuel
              /\ ((r = OutOfFuel /\ out = [] /\ k = S fuel)
                  \/ (exists more, r = Val (repos ++ more)%list) /\ 1 <= k
                     /\ (out = [] \/ exists msg, out = ["Error fetching repos for " ++ org ++ ": " ++ msg]))).
  { intros msg Hf.
    exists (Val repos), ["Error fetching repos for " ++ org ++ ": " ++ msg], 1.
    split; [|split; [lia|right; split; [|split; [lia|right; now exists msg]]]].
    - intros w. now rewrite (loop_failed_page remote org fuel page repos msg w Hf).
    - exists []. now rewrite app_nil_r. }
  destruct (remote url) as [msg|r] eqn:Hr; [apply (Stop msg); now left|].
  destruct (raise_for_status_cases url r) as [[msg Hs]|Hs];
    [apply (Stop msg); right; left; eauto|].
  destruct (json r) as [msg|data] eqn:Hj;
    [apply (Stop msg); right; right; eauto|].
  clear Stop.
  assert (Fetch : forall (k : list (dict string) -> M (Ctl * list string))
                         (h : Exn -> M (Ctl * list string)) w,
             try_except
               (response <- requests_get remote url ;;
                raise_for_status url response ;;;
                data <- response_json response ;; k data)
               except_Exception h w
             = try_except (k data) except_Exception h (logged url w)).
  { intros k h w. unfold try_except, bind at 1, requests_get. rewrite Hr.
    cbv beta iota. unfold bind at 1. rewrite Hs. cbv beta iota.
    unfold bind at 1, response_json. now rewrite Hj. }
  cbn [get_org_repos_loop]. fold url.
  destruct data as [|rd data].
  { exists (Val repos), [], 1.
    split; [|split; [lia|right; split; [|split; [lia|now left]]]].
    - intros w. unfold bind at 1. rewrite Fetch. unfold try_except, ret, logged.
      cbn [stdout requests output_txt seq map]. now rewrite app_nil_r.
    - exists []. now rewrite app_nil_r. }
  destruct (append_full_names_extends (rd :: data) repos) as [more Hmore].
  destruct (append_full_names (rd :: data) repos) as [repos' [e|]] eqn:Ha;
    simpl in Hmore; subst repos'.
  - exists (Val (repos ++ more)%list),
      ["Error fetching repos for " ++ org ++ ": " ++ exn_str e], 1.
    split; [|split; [lia|right; split; [|split; [lia|right; now exists (exn_str e)]]]].
    + intros w. unfold bind at 1. rewrite Fetch. cbv beta iota. now rewrite Ha.
    + now exists more.
  - destruct (IH (repos ++ more)%list (S page)) as [r' [out [k [Happ [Hk Hres]]]]].
    exists r', out, (S k). split; [|split; [lia|]].
    + intros w. unfold bind at 1. rewrite Fetch. cbv beta iota. rewrite Ha.
      unfold try_except, ret at 1. cbv beta iota. rewrite Happ.
      unfold logged. cbn [stdout requests output_txt seq map]. fold url.
      now rewrite <- app_assoc.
    + destruct Hres as [[-> [-> ->]]|[[more' ->] [Hk1 Hout]]]; [now left|].
      right. split; [|split; [lia|exact Hout]].
      exists (more ++ more')%list. now rewrite app_assoc.
Qed.

(** X1: the lister never raises and never exits.  It requests the pages
    1, 2, ..., k of the organization, one request each, returns a list
    unless the loop is still running after [fuel] pages, prints at most
    one line, its error line, and leaves output.txt alone. *)
Theorem lister_never_raises (fuel : nat) :
  exists r out k,
    (forall w, get_org_repos remote fuel org w
               = (r, mkWorld (stdout w ++ out)
                       (requests w ++ map (listing_url org) (seq 1 k))
                       (output_txt w)))
    /\ k <= fuel
    /\ ((r = OutOfFuel /\ out = [] /\ k = fuel)
        \/ (exists repos, r = Val repos) /\ 1 <= k
           /\ (out = []
               \/ exists msg, out = ["Error fetching repos for " ++ org ++ ": " ++ msg])).
Proof.
  destruct (get_org_repos_loop_trace fuel [] 1) as [r [out [k [Ha [Hk Hr]]]]].
  exists r, out, k. split; [exact Ha|]. split; [exact Hk|].
  destruct Hr as [Hr|[[more ->] Hr]]; [now left|].
  right. split; [now exists more | exact Hr].
Qed.

Lemma append_full_names_nameless (good rest : list (dict string)) (bad : dict string)
    (names : list string) :
  map (dict_get "full_name") good = map Some names ->
  dict_get "full_name" bad = None ->
  forall repos,
    append_full_names (good ++ bad :: rest) repos
    = ((repos ++ names)%list, Some (mkExn KeyError "'full_name'")).
Proof.
  intros Hgood Hbad. revert names Hgood.
  induction good as [|rd good IH]; intros names Hgood repos.
  - destruct names; [|discriminate]. simpl. rewrite Hbad. now rewrite app_nil_r.
  - destruct names as [|name names]; [discriminate|]. simpl in Hgood.
    injection Hgood as Hname Hgood. simpl. rewrite Hname.
    rewrite (IH names Hgood). now rewrite <- app_assoc.
Qed.

Lemma loop_nameless_record (fuel page : nat) (repos names : list string)
    (good rest : list (dict string)) (bad : dict string) (w : World) :
  page_ok (remote (listing_url org page)) (good ++ bad :: rest) ->
  map (dict_get "full_name") good = map Some names ->
  dict_get "full_name" bad = None ->
  get_org_repos_loop remote (S fuel) org repos page w
  = (Val (repos ++ names)%list,
     printed ("Error fetching repos for " ++ org ++ ": 'full_name'")
       (logged (listing_url org page) w)).
Proof.
  intros [r [Hr [Hs Hj]]] Hgood Hbad.
  cbn [get_org_repos_loop]. unfold bind at 1, try_except, bind at 1, requests_get.
  rewrite Hr. cbv beta iota. unfold bind at 1.
  rewrite raise_for_status_passes by exact Hs. cbv beta iota.
  unfold bind at 1, response_json. rewrite Hj. unfold ret at 1. cbv beta iota.
  rewrite (append_full_names_nameless good rest bad names Hgood Hbad).
  destruct (good ++ bad :: rest)%list eqn:E; [now destruct good|].
  reflexivity.
Qed.

(** X2: a page that cannot be fetched ends the listing with what was
    collected.  After k pages of names, a request that fails, an error
    status or a body that does not decode on page k+1 makes the lister
    print one error line and return the names of the k pages. *)
Theorem lister_keeps_pages_before_failure (pages : list (list string)) (fuel : nat)
    (msg : string) (w : World) :
  (forall i names, nth_error pages i = Some names ->
     names <> [] /\
     exists data, page_ok (remote (listing_url org (S i))) data
                  /\ map (dict_get "full_name") data = map Some names) ->
  page_failed (listing_url org (S (List.length pages)))
    (remote (listing_url org (S (List.length pages)))) msg ->
  List.length pages < fuel ->
  get_org_repos remote fuel org w
  = (Val (List.concat pages),
     mkWorld (stdout w ++ ["Error fetching repos for " ++ org ++ ": " ++ msg])
       (requests w ++ map (listing_url org) (seq 1 (S (List.length pages))))
       (output_txt w)).
Proof.
  intros Hpages Hfail Hfuel. unfold get_org_repos.
  replace fuel with (List.length pages + S (fuel - S (List.length pages))) by lia.
  rewrite loop_good_pages by exact Hpages.
  rewrite (loop_failed_page _ _ _ _ _ msg) by exact Hfail.
  unfold printed, logged. cbn [stdout requests output_txt app].
  now rewrite seq_S, map_app, <- app_assoc.
Qed.

(** X3: a repository record without a full_name ends the listing in the
    middle of its page: the names of the earlier pages and of the
    records before it are returned, the rest of the page is dropped, and
    the error line shows the missing key. *)
Theorem lister_stops_at_nameless_record (pages : list (list string)) (fuel : nat)
    (good rest : list (dict string)) (bad : dict string) (names : list string)
    (w : World) :
  (forall i names, nth_error pages i = Some names ->
     names <> [] /\
     exists data, page_ok (remote (listing_url org (S i))) data
                  /\ map (dict_get "full_name") data = map Some names) ->
  page_ok (remote (listing_url org (S (List.length pages)))) (good ++ bad :: rest) ->
  map (dict_get "full_name") good = map Some names ->
  dict_get "full_name" bad = None ->
  List.length pages < fuel ->
  get_org_repos remote fuel org w
  = (Val (List.concat pages ++ names)%list,
     mkWorld (stdout w ++ ["Error fetching repos for " ++ org ++ ": 'full_name'"])
       (requests w ++ map (listing_url org) (seq 1 (S (List.length pages))))
       (output_txt w)).
Proof.
  intros Hpages Hpage Hgood Hbad Hfuel. unfold get_org_repos.
  replace fuel with (List.length pages + S (fuel - S (List.length pages))) by lia.
  rewrite loop_good_pages by exact Hpages.
  rewrite (loop_nameless_record _ _ _ names good rest bad) by assumption.
  unfold printed, logged. cbn [stdout requests output_txt app].
  now rewrite seq_S, map_app, <- (app_assoc (requests w)).
Qed.

End ListerTrace.

Lemma lister_keeps_pages_before_failure_witness :
  get_org_repos flaky_remote 10 "acme" world0
  = (Val ["acme/a"; "acme/b"],
     mkWorld
       ["Error fetching repos for acme: 502 Server Error: Bad Gateway for url: https://api.github.com/orgs/acme/repos?per_page=100&page=2"]
       [listing_url "acme" 1; listing_url "acme" 2]
       None).
Proof.
  apply (lister_keeps_pages_before_failure flaky_remote "acme"
           [["acme/a"; "acme/b"]] 10
           "502 Server Error: Bad Gateway for url: https://api.github.com/orgs/acme/repos?per_page=100&page=2"
           world0).
  - intros i names H.
    destruct i as [|i]; simpl in H; [|destruct i; discriminate].
    injection H as <-. split; [discriminate|].
    eexists. split; [|apply repo_records_named].
    eexists. split; [vm_compute; reflexivity|]. split; [simpl; lia | reflexivity].
  - right. left. eexists. split; [vm_compute; reflexivity|]. intros w. reflexivity.
  - simpl. lia.
Defined.

Lemma lister_stops_at_nameless_record_witness :
  get_org_repos nameless_remote 10 "acme" world0
  = (Val ["acme/a"],
     mkWorld ["Error fetching repos for acme: 'full_name'"] [listing_url "acme" 1] None).
Proof.
  apply (lister_stops_at_nameless_record nameless_remote "acme" [] 10
           [repo_record "acme/a"] [repo_record "acme/c"] [("name", "b")] ["acme/a"]
           world0).
  - intros i names H. destruct i; discriminate.
  - eexists. split; [vm_compute; reflexivity|]. split; [simpl; lia | reflexivity].
  - reflexivity.
  - reflexivity.
  - simpl. lia.
Defined.

(** ** Every way a probe can end *)

Ltac bools_to_Z :=
  repeat match goal with
         | H : (_ && _)%bool = true |- _ => apply andb_true_iff in H; destruct H
         | H : (_ && _)%bool = false |- _ => apply andb_false_iff in H
         | H : (_ <=? _)%Z = true |- _ => apply Z.leb_le in H
         | H : (_ <=? _)%Z = false |- _ => apply Z.leb_gt in H
         | H : (_ <? _)%Z = true |- _ => apply Z.ltb_lt in H
         | H : (_ <? _)%Z = false |- _ => apply Z.ltb_ge in H
         | H : (_ =? _)%Z = true |- _ => apply Z.eqb_eq in H
         | H : (_ =? _)%Z = false |- _ => apply Z.eqb_neq in H
         end.

Lemma existsb_same_elements {A} (f : A -> bool) (l1 l2 : list A) :
  (forall x, In x l1 <-> In x l2) -> existsb f l1 = existsb f l2.
Proof.
  intros H. apply eq_true_iff_eq. rewrite !existsb_exists.
  split; intros [x [Hin Hf]]; exists x; (split; [now apply H | exact Hf]).
Qed.

Lemma merged_keys {V} (deps dev : dict V) (x : string) :
  In x (dict_keys (dict_update (dict_update [] deps) dev))
  <-> In x (dict_keys deps ++ dict_keys dev)%list.
Proof.
  rewrite in_app_iff, dict_keys_update, dict_keys_update. simpl. tauto.
Qed.

Section ProbeOutcomes.

Variable remote : string -> HttpResult.
Variable json_parse : string -> string + Value.
Variables repo dep_prefix branch : string.

(** Every way a probe can end, with the answer that leads to it. *)
Lemma probe_outcome :
  let result := probe remote json_parse repo dep_prefix branch in
  (exists msg, remote (manifest_url repo branch) = Failed msg
               /\ result = Val (Some (repo, "Error")))
  \/ exists r, remote (manifest_url repo branch) = Returned r /\
       ((status_code r = 404%Z /\ result = Val (Some (repo, "No package.json")))
        \/ ((400 <= status_code r < 600)%Z /\ status_code r <> 404%Z
            /\ result = Val (Some (repo, "Error")))
        \/ (~ (400 <= status_code r < 600)%Z /\ status_code r <> 200%Z
            /\ result = Val None)
        \/ (status_code r = 200%Z /\
            ((exists msg, json_parse (text r) = inl msg
                          /\ result = Val (Some (repo, "Error")))
             \/ (exists v, json_parse (text r) = inr v /\ (forall m, v <> VDict m)
                   /\ exists e, result = Raised e /\ exn_type e = AttributeError)
             \/ (exists m, json_parse (text r) = inr (VDict m)
                   /\ (declared m "dependencies" = None
                       \/ declared m "devDependencies" = None)
                   /\ exists e, result = Raised e /\ exn_type e = TypeError)
             \/ (exists m deps dev, json_parse (text r) = inr (VDict m)
                   /\ declared m "dependencies" = Some deps
                   /\ declared m "devDependencies" = Some dev
                   /\ result
                      = Val (Some (repo,
                          if existsb (fun key => startswith key dep_prefix)
                               (dict_keys deps ++ dict_keys dev)
                          then "Has " ++ dep_prefix else "No " ++ dep_prefix)))))).
Proof.
  intros result. unfold result, probe, check_dep_in_repo, try_except, bind, requests_get.
  destruct (remote (manifest_url repo branch)) as [msg|r];
    [left; exists msg; split; reflexivity|].
  right. exists r. split; [reflexivity|]. cbv beta iota.
  destruct (status_code r =? 404)%Z eqn:E404;
    [left; bools_to_Z; split; [assumption | reflexivity]|].
  unfold raise_for_status.
  destruct ((400 <=? status_code r) && (status_code r <? 500))%Z eqn:E4;
    [right; left; bools_to_Z; split; [lia|split; [assumption | reflexivity]]|].
  destruct ((500 <=? status_code r) && (status_code r <? 600))%Z eqn:E5;
    [right; left; bools_to_Z; split; [lia|split; [assumption | reflexivity]]|].
  cbv beta iota. unfold ret at 1. cbv beta iota.
  destruct (status_code r =? 200)%Z eqn:E2;
    [|right; right; left; bools_to_Z; split; [lia|split; [assumption | reflexivity]]].
  right; right; right. split; [bools_to_Z; assumption|]. clear E404 E4 E5 E2.
  unfold json_loads. destruct (json_parse (text r)) as [msg|v];
    [left; exists msg; split; reflexivity|].
  right.
  destruct v as [| | | | |l|m];
    try (left; eexists; split; [reflexivity|];
         split; [intros m; discriminate|]; eexists; split; reflexivity).
  right. cbn [value_get bind ret]. unfold bind, ret.
  destruct (dict_get "dependencies" m) as [[| | | | |l|deps]|] eqn:Hd;
    destruct (dict_get "devDependencies" m) as [[| | | | |l'|dev]|] eqn:Hv;
    unfold unpack_into, raise, ret; cbv beta iota;
    try (left; exists m; split; [reflexivity|]; unfold declared; rewrite Hd, Hv;
         split; [(now left) || (now right)|]; eexists; split; reflexivity).
  all: right; exists m; eexists; eexists; split; [reflexivity|];
    unfold declared; rewrite Hd, Hv;
    split; [reflexivity|]; split; [reflexivity|].
  all: match goal with
       | |- context [existsb ?f (dict_keys (dict_update (dict_update [] ?a) ?b))] =>
           rewrite (existsb_same_elements f _ _ (merged_keys a b))
       end.
  all: match goal with |- context [existsb ?f ?l] => destruct (existsb f l) end;
    reflexivity.
Qed.

End ProbeOutcomes.

Ltac probe_ends remote json_parse repo dep_prefix branch :=
  destruct (probe_outcome remote json_parse repo dep_prefix branch)
    as [[msg [Hr E]]|[r [Hr [[Hs E]|[[Hs [Hn E]]|[[Hs [Hn E]]|[Hs [[msg [Hj E]]|[[v [Hj [Hv [e [E He]]]]]|[[m [Hj [Hd [e [E He]]]]]|[m [deps [dev [Hj [Hd [Hv E]]]]]]]]]]]]]]]].

Section ProbeEnds.

Variable remote : string -> HttpResult.
Variable json_parse : string -> string + Value.
Variables repo dep_prefix branch : string.

(** X4: the probe reports Error exactly when the request fails, when the
    answer has an error status other than 404, or when the answer has
    status 200 and a body that is not JSON. *)
Theorem probe_error_iff :
  probe remote json_parse repo dep_prefix branch = Val (Some (repo, "Error"))
  <-> (exists msg, remote (manifest_url repo branch) = Failed msg)
      \/ exists r, remote (manifest_url repo branch) = Returned r
           /\ (((400 <= status_code r < 600)%Z /\ status_code r <> 404%Z)
               \/ (status_code r = 200%Z
                   /\ exists msg, json_parse (text r) = inl msg)).
Proof.
  probe_ends remote json_parse repo dep_prefix branch; rewrite E; clear E.
  all: split;
    [ intros H
    | intros [[msg' H]|[r' [H [[H1 H2]|[H1 [msg' H2]]]]]];
      rewrite Hr in H; try discriminate H; injection H as <-;
      try lia; try congruence ].
  all: try discriminate H.
  all: try (destruct (existsb _ _); simpl in H; discriminate H).
  all: try (left; now exists msg).
  all: right; exists r; split; [exact Hr|]; [> now left | right; split; [exact Hs | now exists msg]].
Qed.

(** X5: the probe raises an AttributeError exactly when the answer has
    status 200 and a body that [json.loads] turns into a value that is
    not an object, and a TypeError exactly when the value is an object
    whose dependencies or devDependencies entry is not one; no exception
    of the requests and no JSONDecodeError ever leaves it. *)
Theorem probe_raises_on_misshapen_json :
  ((exists e, probe remote json_parse repo dep_prefix branch = Raised e
              /\ exn_type e = AttributeError)
   <-> exists r v, remote (manifest_url repo branch) = Returned r
         /\ status_code r = 200%Z
         /\ json_parse (text r) = inr v
         /\ forall m, v <> VDict m)
  /\ ((exists e, probe remote json_parse repo dep_prefix branch = Raised e
                 /\ exn_type e = TypeError)
      <-> exists r m, remote (manifest_url repo branch) = Returned r
            /\ status_code r = 200%Z
            /\ json_parse (text r) = inr (VDict m)
            /\ (declared m "dependencies" = None
                \/ declared m "devDependencies" = None))
  /\ (forall e, probe remote json_parse repo dep_prefix branch = Raised e ->
                exn_type e <> RequestException /\ exn_type e <> HTTPError
                /\ exn_type e <> JSONDecodeError).
Proof.
  probe_ends remote json_parse repo dep_prefix branch; rewrite E; clear E.
  all: split; [split|split; [split|]].
  all: try (intros [e' [H _]]; discriminate H).
  all: try (intros [e' [H _]]; destruct (existsb _ _); discriminate H).
  all: try (intros e' H; discriminate H).
  all: try (intros e' H; destruct (existsb _ _); discriminate H).
  all: try (intros [r' [x [H [H1 [H2 H3]]]]];
            rewrite Hr in H; try discriminate H; injection H as <-;
            first [ lia | congruence | idtac ]).
  all: try (intros [e' [H He']]; injection H as <-; congruence).
  all: try (intros e' H; injection H as <-; rewrite He; repeat split; discriminate).
  - intros _. exists r, v. auto.
  - exists e. split; [reflexivity | exact He].
  - intros _. exists r, m. auto.
  - exists e. split; [reflexivity | exact He].
  - exfalso. rewrite Hj in H2. injection H2 as <-. destruct H3; congruence.
Qed.

(** X6: the probe returns None, which its caller cannot unpack, exactly
    when the answer has a status outside 400..599 other than 200. *)
Theorem probe_none_iff :
  probe remote json_parse repo dep_prefix branch = Val None
  <-> exists r, remote (manifest_url repo branch) = Returned r
        /\ ~ (400 <= status_code r < 600)%Z /\ status_code r <> 200%Z.
Proof.
  probe_ends remote json_parse repo dep_prefix branch; rewrite E; clear E.
  all: split;
    [ intros H; try discriminate H;
      try (destruct (existsb _ _); discriminate H)
    | intros [r' [H [H1 H2]]];
      rewrite Hr in H; try discriminate H; injection H as <-;
      try lia; try congruence ].
  exists r. auto.
Qed.

End ProbeEnds.

(** ** The report, line by line *)

Lemma appends_for_each {A} (l : list A) (body : A -> M unit) (lines : A -> list string) :
  (forall x, In x l -> appends (body x) (Val tt) (lines x) []) ->
  appends (for_each l body) (Val tt) (List.concat (map lines l)) [].
Proof.
  induction l as [|x l IH]; intros H.
  - apply appends_ret.
  - cbn [for_each map List.concat].
    change (@nil string) with (@nil string ++ @nil string)%list.
    eapply appends_bind_val; [apply H; now left|].
    apply IH. intros y Hy. apply H. now right.
Qed.

Lemma filter_perm {A} (p : A -> bool) (l1 l2 : list A) :
  Permutation l1 l2 -> Permutation (filter p l1) (filter p l2).
Proof.
  induction 1 as [|x l1 l2 _ IH|x y l|l1 l2 l3 _ IH1 _ IH2]; simpl.
  - constructor.
  - destruct (p x); [now constructor | exact IH].
  - destruct (p x), (p y); try reflexivity. apply perm_swap.
  - now transitivity (filter p l2).
Qed.

Lemma empty_groups_first_seen (dep_prefix : string) :
  dict_keys (empty_groups dep_prefix) = first_seen (statuses dep_prefix).
Proof.
  unfold empty_groups, dict_of_list, dict_update, first_seen, statuses.
  cbn [fold_left fst snd]. now rewrite !dict_keys_set_add.
Qed.

Lemma group_lines_sorted (results : dict string) (status : string) :
  group_lines (sorted pair_lt results) status = group_lines results status.
Proof.
  unfold group_lines.
  assert (P : Permutation (map fst (filter (with_status status) (sorted pair_lt results)))
                (map fst (filter (with_status status) results))).
  { apply Permutation_map, filter_perm, Permutation_sym, sorted_perm. }
  destruct (map fst (filter (with_status status) (sorted pair_lt results))) as [|a l];
    destruct (map fst (filter (with_status status) results)) as [|b l'].
  - reflexivity.
  - apply Permutation_nil in P. discriminate.
  - apply Permutation_sym, Permutation_nil in P. discriminate.
  - now rewrite (sorted_of_perm str_lt str_lt_irrefl str_lt_trans str_lt_total _ _ P).
Qed.

Lemma appends_after_print {A} (line : string) (m : M A) (r : Res A)
    (out reqs : list string) :
  appends m r out reqs -> appends (print line ;;; m) r (line :: out) reqs.
Proof.
  intros H. apply (appends_bind_val (print line) (fun _ => m) tt r [line] [] out reqs);
    [apply appends_print | exact H].
Qed.

Lemma print_report_lines (dep_prefix : string) (all_results : dict (dict string)) :
  valid_results dep_prefix all_results ->
  appends (print_report dep_prefix all_results) (Val tt)
    ((nl ++ header dep_prefix) :: report_body dep_prefix all_results) [].
Proof.
  intros Hv. unfold print_report. apply appends_after_print.
  unfold report_body. apply appends_for_each.
  intros [org results] Hin. cbv beta iota.
  unfold org_lines. cbn [fst snd]. apply appends_after_print.
  assert (G : forall ks,
             appends
               (for_each
                  (map (fun k => (k, map fst (filter (with_status k)
                                                (sorted pair_lt results)))) ks)
                  (fun '(status, repos) =>
                     match repos with
                     | [] => ret tt
                     | _ =>
                         print ("  " ++ status ++ ":") ;;;
                         for_each (sorted str_lt repos)
                           (fun repo => print ("    " ++ repo))
                     end))
               (Val tt) (List.concat (map (group_lines results) ks)) []).
  { induction ks as [|k ks IH].
    - apply appends_ret.
    - cbn [map for_each List.concat].
      change (@nil string) with (@nil string ++ @nil string)%list.
      eapply appends_bind_val; [|exact IH].
      rewrite <- (group_lines_sorted results k). unfold group_lines.
      destruct (map fst (filter (with_status k) (sorted pair_lt results))) as [|a l];
        [apply appends_ret|].
      apply appends_after_print.
      clear. induction (sorted str_lt (a :: l)) as [|x xs IHx].
      + apply appends_ret.
      + cbn [map for_each]. apply appends_after_print. exact IHx. }
  intros w. rewrite bind_run.
  rewrite group_by_status_spec by (intros repo status; apply (Hv org results repo status Hin)).
  rewrite empty_groups_first_seen. apply G.
Qed.

(** ** How a scan ends *)

Lemma valid_results_set (dep_prefix org : string) (results : dict string)
    (all_results : dict (dict string)) :
  (forall repo status, In (repo, status) results -> In status (statuses dep_prefix)) ->
  valid_results dep_prefix all_results ->
  valid_results dep_prefix (dict_set org results all_results).
Proof.
  intros Hr Hv org' results' repo status Hin Hs.
  apply dict_set_in in Hin. destruct Hin as [E|Hin].
  - injection E as -> ->. now apply (Hr repo).
  - now apply (Hv org' results' repo).
Qed.

Section Ends.

Variable remote : string -> HttpResult.
Variable json_parse : string -> string + Value.
Variable as_completed : nat -> list string -> list string.
Variable fuel : nat.
Variables dep_prefix branch : string.

Lemma probe_raised_type (repo : string) (exn : Exn) :
  probe remote json_parse repo dep_prefix branch = Raised exn -> escapes exn.
Proof.
  probe_ends remote json_parse repo dep_prefix branch;
    rewrite E; intros H; try discriminate H;
    try (destruct (existsb _ _); discriminate H);
    injection H as <-; [left | right]; exact He.
Qed.

Lemma store_results_raised (order : list string) :
  forall (acc : dict string) (w w' : World) (e : Exn),
    fold_M store_result
      (map (fun repo => probe remote json_parse repo dep_prefix branch) order) acc w
    = (Raised e, w') ->
    escapes e.
Proof.
  induction order as [|repo order IH]; intros acc w w' e; cbn [map fold_M].
  - discriminate.
  - rewrite bind_run. unfold store_result at 1. rewrite bind_run.
    unfold future_result at 1.
    destruct (probe remote json_parse repo dep_prefix branch)
      as [[[repo' status]|]|e0|c|] eqn:E.
    + unfold ret at 1. apply IH.
    + unfold raise. intros H. injection H as <- _. now right.
    + intros H. injection H as <- _. exact (probe_raised_type repo e0 E).
    + discriminate.
    + discriminate.
Qed.

Lemma scan_org_raised (i : nat) (repos : list string) (w w' : World) (e : Exn) :
  scan_org remote json_parse as_completed i repos dep_prefix branch w = (Raised e, w') ->
  escapes e.
Proof.
  unfold scan_org. rewrite bind_run, submit_probes. apply store_results_raised.
Qed.

(** A scan ends with results that carry only the four statuses, with an
    AttributeError or a TypeError of a probe, or out of fuel; it only
    prints and requests. *)
Lemma scan_orgs_ends (orgs : list string) :
  forall (i : nat) (acc : dict (dict string)),
    valid_results dep_prefix acc ->
    exists r out reqs,
      appends (scan_orgs remote json_parse as_completed fuel i orgs dep_prefix branch acc)
        r out reqs
      /\ (r = OutOfFuel
          \/ (exists e, r = Raised e /\ escapes e)
          \/ exists res, r = Val res /\ valid_results dep_prefix res).
Proof.
  induction orgs as [|org rest IH]; intros i acc Hacc.
  { exists (Val acc), [], []. split; [apply appends_ret|]. right. right. eauto. }
  destruct (listing_runs remote fuel org) as [lout [lreqs [Hl [_ Hlr]]]].
  cbn [scan_orgs].
  destruct Hlr as [Ef|[repos Ev]].
  { rewrite Ef in Hl. do 3 eexists. split; [|now left].
    apply appends_after_print. now apply appends_bind_out_of_fuel. }
  rewrite Ev in Hl. destruct repos as [|repo repos].
  { destruct (IH (S i) acc Hacc) as [r [out [reqs [H Hr]]]].
    exists r. do 2 eexists. split; [|exact Hr].
    apply appends_after_print. eapply appends_bind_val; [exact Hl|].
    apply appends_after_print. exact H. }
  destruct (scan_org_cases remote json_parse as_completed dep_prefix branch i (repo :: repos))
    as [[Hall E]|[_ [e E]]].
  - destruct (IH (S i)
                (dict_set org
                   (collected (status_of remote json_parse dep_prefix branch)
                      (as_completed i (repo :: repos)) []) acc))
      as [r [out [reqs [H Hr]]]].
    { apply valid_results_set; [|exact Hacc]. intros r0 status Hin.
      now apply (collected_statuses remote json_parse dep_prefix branch _ r0 status Hall). }
    exists r. do 2 eexists. split; [|exact Hr].
    apply appends_after_print. eapply appends_bind_val; [exact Hl|].
    apply appends_after_print.
    eapply appends_bind_val; [apply appends_probed, E | exact H].
  - exists (Raised e). do 2 eexists. split.
    + apply appends_after_print. eapply appends_bind_val; [exact Hl|].
      apply appends_after_print. apply appends_bind_raised. apply appends_probed, E.
    + right. left. exists e. split; [reflexivity|].
      exact (scan_org_raised i (repo :: repos) world0 _ e (E world0)).
Qed.

End Ends.

Lemma report_runs (dep_prefix : string) (all_results : dict (dict string)) :
  valid_results dep_prefix all_results ->
  forall w,
    print_report dep_prefix all_results w
    = (Val tt, shown ((nl ++ header dep_prefix) :: report_body dep_prefix all_results) w)
    /\ save_report dep_prefix all_results w
       = (Val tt, saved (map with_nl (header dep_prefix :: report_body dep_prefix all_results)) w).
Proof.
  intros Hv.
  destruct (render_both dep_prefix all_results) as [r [body [_ [Hp Hs]]]].
  pose proof (print_report_lines dep_prefix all_results Hv world0) as Ha.
  rewrite Hp in Ha. injection Ha as -> Hb.
  intros w. rewrite Hp, Hs. rewrite Hb. split; reflexivity.
Qed.

(** X7: the report, as a list of lines.  When the results carry only the
    four statuses, the console report is the header line, then for each
    organization in the order of the results its heading and, for each
    status in the fixed order Has, No, No package.json, Error that at
    least one repository has, the status line followed by the sorted
    repositories; the file gets the same lines, the header without its
    leading newline, replacing what output.txt held. *)
Theorem report_layout (dep_prefix : string) (all_results : dict (dict string))
    (w : World) :
  valid_results dep_prefix all_results ->
  print_report dep_prefix all_results w
  = (Val tt,
     mkWorld
       (stdout w ++ (nl ++ header dep_prefix) :: report_body dep_prefix all_results)
       (requests w) (output_txt w))
  /\ save_report dep_prefix all_results w
     = (Val tt,
        mkWorld (stdout w) (requests w)
          (Some (map with_nl (header dep_prefix :: report_body dep_prefix all_results)))).
Proof.
  intros Hv. exact (report_runs dep_prefix all_results Hv w).
Qed.

Lemma report_layout_witness :
  print_report "ag-grid" acme_results world0
  = (Val tt,
     mkWorld
       [nl ++ "Final Results for 'ag-grid' (grouped by organization and status):";
        nl ++ "Organization: acme";
        "  Has ag-grid:"; "    acme/a";
        "  No package.json:"; "    acme/b";
        "  Error:"; "    acme/c"]
       [] None)
  /\ save_report "ag-grid" acme_results world0
     = (Val tt,
        mkWorld [] []
          (Some ["Final Results for 'ag-grid' (grouped by organization and status):" ++ nl;
                 nl ++ "Organization: acme" ++ nl;
                 "  Has ag-grid:" ++ nl; "    acme/a" ++ nl;
                 "  No package.json:" ++ nl; "    acme/b" ++ nl;
                 "  Error:" ++ nl; "    acme/c" ++ nl])).
Proof.
  apply (report_layout "ag-grid" acme_results world0).
  intros org results repo status Ho Hr.
  destruct Ho as [E|[]]. injection E as <- <-.
  simpl in Hr. simpl.
  destruct Hr as [E|[E|[E|[]]]]; injection E as <- <-; tauto.
Defined.

(** ** More on the probe *)

(** X8: however it ends, a probe makes exactly one request, for the
    package.json of the repository at the given branch, prints nothing
    and leaves output.txt alone; how it ends does not depend on the
    world it starts in. *)
Theorem probe_one_request (remote : string -> HttpResult)
    (json_parse : string -> string + Value) (repo dep_prefix branch : string)
    (w : World) :
  check_dep_in_repo remote json_parse repo dep_prefix branch w
  = (fst (check_dep_in_repo remote json_parse repo dep_prefix branch world0),
     mkWorld (stdout w)
       (requests w ++ ["https://raw.githubusercontent.com/" ++ repo ++ "/" ++ branch
                         ++ "/package.json"])
       (output_txt w)).
Proof. exact (probe_frame remote json_parse dep_prefix branch repo w). Qed.

Lemma startswith_shorter (key p q : string) :
  startswith key p = true -> startswith p q = true -> startswith key q = true.
Proof.
  rewrite !startswith_spec. intros [rest ->] [rest' ->].
  exists (rest' ++ rest). apply append_assoc.
Qed.

(** X9: shortening the prefix never loses a hit.  If the probe of a
    repository reports Has for a prefix, it reports Has for every prefix
    of that prefix. *)
Theorem shorter_prefix_keeps_hit (remote : string -> HttpResult)
    (json_parse : string -> string + Value) (repo branch p q : string) :
  startswith p q = true ->
  probe remote json_parse repo p branch = Val (Some (repo, "Has " ++ p)) ->
  probe remote json_parse repo q branch = Val (Some (repo, "Has " ++ q)).
Proof.
  intros Hq.
  probe_ends remote json_parse repo p branch; rewrite E; clear E; intros H;
    try discriminate H.
  destruct (existsb (fun key => startswith key p) (dict_keys deps ++ dict_keys dev))
    eqn:Ex; [clear H | simpl in H; discriminate H].
  assert (Ex' : existsb (fun key => startswith key q) (dict_keys deps ++ dict_keys dev)
                = true).
  { apply existsb_exists in Ex. destruct Ex as [key [Hin Hk]].
    apply existsb_exists. exists key. split; [exact Hin|].
    exact (startswith_shorter key p q Hk Hq). }
  rename r into r0, Hr into Hr0, Hs into Hs0, m into m0, Hj into Hj0, Hd into Hd0,
    Hv into Hv0, deps into deps0, dev into dev0.
  probe_ends remote json_parse repo q branch; rewrite E; clear E;
    rewrite Hr0 in Hr; try discriminate Hr; injection Hr as <-;
    try lia; try congruence.
  - exfalso. rewrite Hj0 in Hj. injection Hj as <-. destruct Hd; congruence.
  - rewrite Hj0 in Hj. injection Hj as <-.
    rewrite Hd0 in Hd. injection Hd as <-. rewrite Hv0 in Hv. injection Hv as <-.
    now rewrite Ex'.
Qed.

Lemma shorter_prefix_keeps_hit_witness :
  probe acme_remote JsonText.loads "acme/a" "ag-grid" "main"
  = Val (Some ("acme/a", "Has ag-grid")).
Proof.
  apply (shorter_prefix_keeps_hit acme_remote JsonText.loads "acme/a" "main"
           "ag-grid-community" "ag-grid"); reflexivity.
Defined.

(** ** How a run ends *)

Lemma valid_results_nil (dep_prefix : string) : valid_results dep_prefix [].
Proof. intros org results repo status []. Qed.

Section MainEnds.

Variable remote : string -> HttpResult.
Variable json_parse : string -> string + Value.
Variable as_completed : nat -> list string -> list string.
Variable fuel : nat.
Variables txt_file dep_prefix branch : string.

(** Every way a run can end. *)
Lemma main_runs (txt : option string) (w : World) :
  let run := main remote json_parse as_completed fuel txt_file txt dep_prefix branch w in
  (txt = None /\ run = (SysExit 1, printed ("File not found: " ++ txt_file) w))
  \/ (exists content, txt = Some content /\ org_names content = []
        /\ run = (SysExit 1, printed "No organizations found in the file." w))
  \/ exists content r out reqs,
       txt = Some content /\ org_names content <> []
       /\ appends (scan_orgs remote json_parse as_completed fuel 0 (org_names content)
                     dep_prefix branch []) r out reqs
       /\ ((r = OutOfFuel
            /\ run = (OutOfFuel,
                      mkWorld (stdout w ++ out) (requests w ++ reqs) (output_txt w)))
           \/ (exists e, r = Raised e /\ escapes e
                 /\ run = (Raised e,
                           mkWorld (stdout w ++ out) (requests w ++ reqs) (output_txt w)))
           \/ (exists res, r = Val res /\ valid_results dep_prefix res
                 /\ run = (Val tt,
                           mkWorld
                             (stdout w ++ out
                                ++ (nl ++ header dep_prefix) :: report_body dep_prefix res
                                ++ [nl ++ "Results saved to output.txt"])
                             (requests w ++ reqs)
                             (Some (map with_nl
                                      (header dep_prefix :: report_body dep_prefix res)))))).
Proof.
  intros run. subst run. destruct txt as [content|]; [|left; split; reflexivity].
  right. unfold main. fold (org_names content).
  destruct (org_names content) as [|org orgs] eqn:Eo;
    [left; exists content; split; [reflexivity|]; split; [exact Eo | reflexivity]|].
  right.
  destruct (scan_orgs_ends remote json_parse as_completed fuel dep_prefix branch
              (org :: orgs) 0 [] (valid_results_nil dep_prefix))
    as [r [out [reqs [Ha Hr]]]].
  exists content, r, out, reqs. rewrite Eo.
  split; [reflexivity|]. split; [discriminate|]. split; [exact Ha|].
  rewrite bind_run, Ha.
  destruct Hr as [->|[[e [-> He]]|[res [-> Hv]]]].
  - left. split; reflexivity.
  - right. left. exists e. split; [reflexivity|]. split; [exact He | reflexivity].
  - right. right. exists res. split; [reflexivity|]. split; [exact Hv|].
    rewrite bind_run.
    destruct (report_runs dep_prefix res Hv
                (mkWorld (stdout w ++ out) (requests w ++ reqs) (output_txt w)))
      as [Hp _].
    rewrite Hp. rewrite bind_run.
    match goal with
    | |- context [save_report dep_prefix res ?w1] =>
        destruct (report_runs dep_prefix res Hv w1) as [_ Hs]; rewrite Hs
    end.
    unfold print, saved, shown. cbn [stdout requests output_txt].
    now rewrite <- !app_assoc.
Qed.

(** X10: a run exits, with code 1, exactly when the file of
    organizations is missing or names no organization; it has then
    printed one line, made no request and left output.txt alone. *)
Theorem main_exits_iff_no_organization (txt : option string) (w : World) :
  let run := main remote json_parse as_completed fuel txt_file txt dep_prefix branch w in
  let no_organization :=
    txt = None \/ exists content, txt = Some content /\ org_names content = [] in
  ((exists code, fst run = SysExit code) <-> no_organization)
  /\ (no_organization ->
      run = (SysExit 1,
             mkWorld
               (stdout w ++ [match txt with
                             | None => "File not found: " ++ txt_file
                             | Some _ => "No organizations found in the file."
                             end])
               (requests w) (output_txt w))).
Proof.
  intros run no_organization. subst no_organization.
  destruct (main_runs txt w)
    as [[Et E]|[[content [Et [Eo E]]]|[content [r [out [reqs [Et [Eo [_ [[_ E]|[[e [_ [_ E]]]|[res [_ [_ E]]]]]]]]]]]]]];
    fold run in E; rewrite E; subst txt; cbn [fst].
  1: split; [split; [intros _; now left | intros _; now exists 1%Z]|reflexivity].
  1: split; [split; [intros _; right; now exists content | intros _; now exists 1%Z]
            |reflexivity].
  all: split;
    [split; [intros [code H]; discriminate H|]|];
    intros [H|[content' [H H']]]; try discriminate H;
    injection H as <-; contradiction.
Qed.

(** X11: what the script handles stays inside a run: no exception of
    the requests, no JSONDecodeError and no KeyError, of a record
    without full_name or of the grouping by status, ever ends it.  A run
    that does not end normally has not touched output.txt; a run that
    does has written it and printed, last, that it did. *)
Theorem main_handled_errors_stay_inside (txt : option string) (w : World) :
  let run := main remote json_parse as_completed fuel txt_file txt dep_prefix branch w in
  (forall e, fst run = Raised e ->
             exn_type e <> RequestException /\ exn_type e <> HTTPError
             /\ exn_type e <> JSONDecodeError /\ exn_type e <> KeyError)
  /\ (fst run <> Val tt -> output_txt (snd run) = output_txt w)
  /\ (fst run = Val tt ->
      exists lines chunks,
        stdout (snd run)
        = (stdout w ++ lines ++ [(nl ++ "Results saved to output.txt")%string])%list
        /\ output_txt (snd run) = Some chunks).
Proof.
  intros run.
  destruct (main_runs txt w)
    as [[_ E]|[[content [_ [_ E]]]|[content [r [out [reqs [_ [_ [_ [[_ E]|[[e [_ [He E]]]|[res [_ [_ E]]]]]]]]]]]]]];
    fold run in E; rewrite E; cbn [fst snd output_txt stdout].
  1-3: split; [intros e' H; discriminate H|]; split; [reflexivity | discriminate].
  - split; [|split; [reflexivity | discriminate]].
    intros e' H. injection H as <-.
    destruct He as [He|He]; rewrite He; repeat split; discriminate.
  - split; [intros e' H; discriminate H|]. split; [intros H; now destruct H|]. intros _.
    eexists (out ++ (nl ++ header dep_prefix)%string :: report_body dep_prefix res)%list.
    eexists. split; [|reflexivity].
    now rewrite <- !app_assoc.
Qed.

(** X12: a run whose scan returns ends normally: it prints, after the
    progress lines of the scan, the report of the results and the line
    about output.txt, and output.txt holds the report and nothing else. *)
Theorem main_reports_scan (content : string) (all_results : dict (dict string))
    (w : World) :
  org_names content <> [] ->
  let scan := scan_orgs remote json_parse as_completed fuel 0 (org_names content)
                dep_prefix branch [] w in
  fst scan = Val all_results ->
  main remote json_parse as_completed fuel txt_file (Some content) dep_prefix branch w
  = (Val tt,
     mkWorld
       (stdout (snd scan)
          ++ (nl ++ header dep_prefix) :: report_body dep_prefix all_results
          ++ [nl ++ "Results saved to output.txt"])
       (requests (snd scan))
       (Some (map with_nl (header dep_prefix :: report_body dep_prefix all_results)))).
Proof.
  intros Ho scan Hs. subst scan.
  destruct (main_runs (Some content) w)
    as [[Et E]|[[content' [Et [Eo E]]]|[content' [r [out [reqs [Et [Eo [Ha [[-> E]|[[e [-> [_ E]]]|[res [-> [_ E]]]]]]]]]]]]]];
    try discriminate Et; injection Et as <-; try contradiction;
    rewrite Ha in Hs; try discriminate Hs.
  injection Hs as <-. rewrite E, Ha. cbn [snd stdout requests].
  now rewrite <- !app_assoc.
Qed.

End MainEnds.

Lemma main_reports_scan_witness :
  main acme_remote JsonText.loads in_order 10 "orgs.txt" (Some ("acme" ++ nl ++ "empty"))
    "ag-grid" "main" world0
  = (Val tt,
     mkWorld
       [nl ++ "Fetching repositories for organization: acme";
        "Found 3 repositories. Checking for 'ag-grid'...";
        nl ++ "Fetching repositories for organization: empty";
        "Error fetching repos for empty: Read timed out.";
        "No repositories found for empty";
        nl ++ "Final Results for 'ag-grid' (grouped by organization and status):";
        nl ++ "Organization: acme";
        "  Has ag-grid:"; "    acme/a";
        "  No package.json:"; "    acme/b";
        "  Error:"; "    acme/c";
        nl ++ "Results saved to output.txt"]
       [listing_url "acme" 1; listing_url "acme" 2;
        manifest_url "acme/a" "main"; manifest_url "acme/b" "main";
        manifest_url "acme/c" "main"; listing_url "empty" 1]
       (Some ["Final Results for 'ag-grid' (grouped by organization and status):" ++ nl;
              nl ++ "Organization: acme" ++ nl;
              "  Has ag-grid:" ++ nl; "    acme/a" ++ nl;
              "  No package.json:" ++ nl; "    acme/b" ++ nl;
              "  Error:" ++ nl; "    acme/c" ++ nl])).
Proof.
  apply (main_reports_scan acme_remote JsonText.loads in_order 10 "orgs.txt" "ag-grid"
           "main" ("acme" ++ nl ++ "empty") acme_results world0).
  - vm_compute. discriminate.
  - vm_compute. reflexivity.
Defined.

(** ** The report of a run *)

Lemma is_heading_heading (org : string) : is_heading (heading org) = true.
Proof. apply startswith_spec. now exists org. Qed.

Lemma not_heading_is_heading (line : string) :
  not_heading line -> is_heading line = false.
Proof.
  intros H. destruct (is_heading line) eqn:E; [|reflexivity].
  apply startswith_spec in E. destruct E as [rest ->]. now destruct (H rest).
Qed.

Lemma filter_none_of {A} (p : A -> bool) (l : list A) :
  Forall (fun x => p x = false) l -> filter p l = [].
Proof.
  induction 1 as [|x l Hx _ IH]; [reflexivity|]. simpl. now rewrite Hx.
Qed.

Lemma group_lines_no_heading (results : dict string) (status : string) :
  Forall (fun line => is_heading line = false) (group_lines results status).
Proof.
  unfold group_lines. destruct (map fst (filter (with_status status) results)) as [|a l];
    constructor; [reflexivity|].
  apply Forall_forall. intros line H. apply in_map_iff in H.
  destruct H as [repo [<- _]]. reflexivity.
Qed.

Lemma report_body_headings (dep_prefix : string) (all_results : dict (dict string)) :
  filter is_heading (report_body dep_prefix all_results)
  = map heading (dict_keys all_results).
Proof.
  unfold report_body. induction all_results as [|[org results] rest IH]; [reflexivity|].
  cbn [map List.concat dict_keys fst]. rewrite filter_app. fold (dict_keys rest).
  rewrite IH. unfold org_lines. cbn [fst snd filter]. rewrite is_heading_heading.
  rewrite filter_none_of; [reflexivity|].
  induction (first_seen (statuses dep_prefix)) as [|k ks IHk]; [constructor|].
  cbn [map List.concat]. apply Forall_app. split; [apply group_lines_no_heading | exact IHk].
Qed.

Lemma group_lines_sorted_names (results : dict string) (status : string) :
  exists names,
    StronglySorted (ordered str_lt) names
    /\ Permutation names (map fst (filter (with_status status) results))
    /\ group_lines results status
       = match names with
         | [] => []
         | _ => ("  " ++ status ++ ":") :: map (fun repo => "    " ++ repo) names
         end.
Proof.
  exists (sorted str_lt (map fst (filter (with_status status) results))).
  split; [apply sorted_sorted;
            [apply str_lt_irrefl | apply str_lt_trans | apply str_lt_total]|].
  split; [apply Permutation_sym, sorted_perm|].
  unfold group_lines.
  destruct (map fst (filter (with_status status) results)) as [|a l] eqn:E;
    [reflexivity|].
  pose proof (sorted_perm str_lt (a :: l)) as P.
  destruct (sorted str_lt (a :: l)) as [|b l'] eqn:Es; [|reflexivity].
  apply Permutation_sym, Permutation_nil in P. discriminate P.
Qed.

Section ReportOrder.

Variable remote : string -> HttpResult.
Variable json_parse : string -> string + Value.
Variable fuel : nat.
Variables txt_file dep_prefix branch : string.

(** A run that ends normally, with the headings of what it printed. *)
Lemma main_normal_run (as_completed : nat -> list string -> list string)
    (txt : option string) (w : World) :
  let run := main remote json_parse as_completed fuel txt_file txt dep_prefix branch w in
  fst run = Val tt ->
  exists content all_results progress,
    txt = Some content
    /\ Forall not_heading progress
    /\ dict_keys all_results
       = first_seen (filter (has_repos remote fuel) (org_names content))
    /\ run = (Val tt,
              mkWorld
                (stdout w ++ progress
                   ++ (nl ++ header dep_prefix) :: report_body dep_prefix all_results
                   ++ [nl ++ "Results saved to output.txt"])
                (requests (snd run))
                (Some (map with_nl
                         (header dep_prefix :: report_body dep_prefix all_results)))).
Proof.
  intros run Hval.
  destruct (main_runs remote json_parse as_completed fuel txt_file dep_prefix branch txt w)
    as [[_ E]|[[content [_ [_ E]]]|[content [r [out [reqs [Et [_ [Ha [[_ E]|[[e [_ [_ E]]]|[res [Hr [_ E]]]]]]]]]]]]]];
    fold run in E; rewrite E in Hval; try discriminate Hval.
  destruct (scan_orgs_runs remote json_parse as_completed as_completed fuel dep_prefix
              branch (fun _ _ => Permutation_refl _) (org_names content) 0 [] []
              (Forall2_nil _))
    as [r1 [_ [out' [q1 [_ [H1 [_ [_ [Hnh Hk]]]]]]]]].
  pose proof (H1 world0) as E1. rewrite (Ha world0), Hr in E1.
  injection E1 as E1 E2 _. subst r1. cbn [app stdout world0] in E2. subst out'.
  exists content, res, out. split; [exact Et|]. split; [exact Hnh|].
  split; [exact (Hk res eq_refl)|]. rewrite E. reflexivity.
Qed.

(** C8: two runs on the same inputs and the same remote answers, whose
    probes complete in different orders, show the same console lines and
    leave the same output.txt, and one ends normally exactly when the
    other does.  What a run that ends normally printed is the progress of
    the scan, the report and the closing line, and output.txt holds the
    report.  The headings among the printed lines are those of the
    organizations of the file with a non-empty listing, in the order of
    the file; under each heading come the statuses in their fixed order,
    and under a status line the repositories with that status in
    ascending order. *)
Theorem report_independent_of_completion_order
    (s1 s2 : nat -> list string -> list string) (txt : option string) (w : World) :
  (forall i repos, Permutation (s1 i repos) repos) ->
  (forall i repos, Permutation (s2 i repos) repos) ->
  let run1 := main remote json_parse s1 fuel txt_file txt dep_prefix branch w in
  let run2 := main remote json_parse s2 fuel txt_file txt dep_prefix branch w in
  (stdout (snd run1) = stdout (snd run2)
   /\ output_txt (snd run1) = output_txt (snd run2)
   /\ (fst run1 = Val tt <-> fst run2 = Val tt))
  /\ (fst run1 = Val tt ->
      exists content all_results progress,
        let printed_lines :=
          (progress
             ++ (nl ++ header dep_prefix)%string :: report_body dep_prefix all_results
             ++ [(nl ++ "Results saved to output.txt")%string])%list in
        txt = Some content
        /\ stdout (snd run1) = (stdout w ++ printed_lines)%list
        /\ output_txt (snd run1)
           = Some (map with_nl (header dep_prefix :: report_body dep_prefix all_results))
        /\ filter is_heading printed_lines
           = map heading (first_seen (filter (has_repos remote fuel) (org_names content)))
        /\ report_body dep_prefix all_results
           = List.concat
               (map (fun entry =>
                       heading (fst entry)
                         :: List.concat (map (group_lines (snd entry))
                                           (first_seen (statuses dep_prefix))))
                  all_results)
        /\ forall org results status,
             In (org, results) all_results ->
             exists names,
               StronglySorted (ordered str_lt) names
               /\ Permutation names (map fst (filter (with_status status) results))
               /\ group_lines results status
                  = match names with
                    | [] => []
                    | _ => ("  " ++ status ++ ":")%string
                             :: map (fun repo => ("    " ++ repo)%string) names
                    end).
Proof.
  intros P1 P2 run1 run2.
  split; [exact (main_runs_agree remote json_parse fuel txt_file dep_prefix branch
                   s1 s2 txt w P1 P2)|].
  intros Hval.
  destruct (main_normal_run s1 txt w Hval)
    as [content [all_results [progress [Et [Hnh [Hk E]]]]]].
  exists content, all_results, progress. cbv zeta. fold run1 in E.
  split; [exact Et|]. split; [now rewrite E|]. split; [now rewrite E|].
  split; [|split; [reflexivity|]].
  - rewrite filter_app. cbn [filter].
    rewrite (filter_none_of is_heading progress)
      by (eapply Forall_impl; [|exact Hnh]; apply not_heading_is_heading).
    rewrite filter_app, report_body_headings, Hk. cbn [filter app].
    now rewrite app_nil_r.
  - intros org results status _. apply group_lines_sorted_names.
Qed.

End ReportOrder.

Lemma report_independent_of_completion_order_witness :
  let run1 := main acme_remote JsonText.loads in_order 10 "orgs.txt"
                (Some ("acme" ++ nl ++ "empty")) "ag-grid" "main" world0 in
  let run2 := main acme_remote JsonText.loads reversed 10 "orgs.txt"
                (Some ("acme" ++ nl ++ "empty")) "ag-grid" "main" world0 in
  (stdout (snd run1) = stdout (snd run2)
   /\ output_txt (snd run1) = output_txt (snd run2)
   /\ (fst run1 = Val tt <-> fst run2 = Val tt))
  /\ exists content all_results progress,
       let printed_lines :=
         (progress
            ++ (nl ++ header "ag-grid")%string :: report_body "ag-grid" all_results
            ++ [(nl ++ "Results saved to output.txt")%string])%list in
       Some ("acme" ++ nl ++ "empty") = Some content
       /\ stdout (snd run1) = (stdout world0 ++ printed_lines)%list
       /\ output_txt (snd run1)
          = Some (map with_nl (header "ag-grid" :: report_body "ag-grid" all_results))
       /\ filter is_heading printed_lines
          = map heading (first_seen (filter (has_repos acme_remote 10) (org_names content)))
       /\ report_body "ag-grid" all_results
          = List.concat
              (map (fun entry =>
                      heading (fst entry)
                        :: List.concat (map (group_lines (snd entry))
                                          (first_seen (statuses "ag-grid"))))
                 all_results)
       /\ forall org results status,
            In (org, results) all_results ->
            exists names,
              StronglySorted (ordered str_lt) names
              /\ Permutation names (map fst (filter (with_status status) results))
              /\ group_lines results status
                 = match names with
                   | [] => []
                   | _ => ("  " ++ status ++ ":")%string
                            :: map (fun repo => ("    " ++ repo)%string) names
                   end.
Proof.
  destruct (report_independent_of_completion_order acme_remote JsonText.loads 10
              "orgs.txt" "ag-grid" "main" in_order reversed
              (Some ("acme" ++ nl ++ "empty")) world0) as [Hsame Hreport].
  - intros i repos. unfold in_order. apply Permutation_refl.
  - intros i repos. unfold reversed. apply Permutation_sym, Permutation_rev.
  - split; [exact Hsame|]. apply Hreport. vm_compute. reflexivity.
Defined.

(** ** The file of organizations *)

Lemma lstrip_head (s : string) :
  lstrip s = EmptyString \/ exists c r, lstrip s = String c r /\ isspace c = false.
Proof.
  induction s as [|c r IH]; [now left|]. simpl.
  destruct (isspace c) eqn:Ec; [exact IH|]. right. now exists c, r.
Qed.

Lemma rstrip_idem (s : string) : rstrip (rstrip s) = rstrip s.
Proof.
  induction s as [|c r IH]; [reflexivity|]. simpl.
  destruct (isspace c && (rstrip r =? EmptyString)) eqn:E; [reflexivity|].
  simpl. now rewrite IH, E.
Qed.

Lemma rstrip_kept (c : ascii) (r : string) :
  isspace c = false -> rstrip (String c r) = String c (rstrip r).
Proof. intros H. simpl. now rewrite H. Qed.

Lemma lstrip_kept (c : ascii) (r : string) :
  isspace c = false -> lstrip (String c r) = String c r.
Proof. intros H. simpl. now rewrite H. Qed.

Lemma strip_idem (s : string) : strip (strip s) = strip s.
Proof.
  unfold strip. destruct (lstrip_head s) as [E|[c [r [E Hc]]]]; rewrite E.
  - reflexivity.
  - rewrite (rstrip_kept c r Hc), (lstrip_kept c _ Hc), (rstrip_kept c _ Hc).
    now rewrite rstrip_idem.
Qed.

Lemma lstrip_chars (s : string) (c : ascii) :
  In c (list_ascii_of_string (lstrip s)) -> In c (list_ascii_of_string s).
Proof.
  induction s as [|a r IH]; [trivial|]. simpl.
  destruct (isspace a); [intros H; right; now apply IH | trivial].
Qed.

Lemma rstrip_chars (s : string) (c : ascii) :
  In c (list_ascii_of_string (rstrip s)) -> In c (list_ascii_of_string s).
Proof.
  induction s as [|a r IH]; [trivial|]. simpl.
  destruct (isspace a && (rstrip r =? EmptyString)); [intros []|].
  simpl. intros [H|H]; [now left | right; now apply IH].
Qed.

Lemma rstrip_app_nl (s : string) : rstrip (s ++ nl) = rstrip s.
Proof.
  induction s as [|a r IH]; [reflexivity|]. simpl. now rewrite IH.
Qed.

Lemma strip_app_nl (s : string) : strip (s ++ nl) = strip s.
Proof.
  unfold strip. induction s as [|a r IH]; [reflexivity|]. simpl.
  destruct (isspace a); [exact IH|].
  exact (rstrip_app_nl (String a r)).
Qed.

Lemma readlines_line (s line : string) :
  In line (readlines s) ->
  exists body, (line = body ++ nl \/ line = body)
               /\ ~ In "010"%char (list_ascii_of_string body).
Proof.
  revert line. induction s as [|c r IH]; intros line; [intros []|]. simpl.
  destruct (Ascii.eqb c "010") eqn:Ec.
  - intros [<-|H]; [|now apply IH]. exists EmptyString. split; [now left | intros []].
  - apply Ascii.eqb_neq in Ec. destruct (readlines r) as [|l ls].
    + intros [<-|[]]. exists (String c EmptyString). split; [now right|].
      intros [H|[]]. now apply Ec.
    + intros [<-|H]; [|apply IH; now right].
      destruct (IH l (or_introl eq_refl)) as [body [Hl Hn]].
      exists (String c body). split.
      * destruct Hl as [->| ->]; [now left | now right].
      * intros [H|H]; [now apply Ec | now apply Hn].
Qed.

(** X13: the organizations a run scans are the lines of the file with
    the surrounding white space removed, blank lines left out: no name
    is empty, starts or ends with white space, or contains a newline. *)
Theorem org_names_trimmed (content org : string) :
  In org (org_names content) ->
  org <> EmptyString
  /\ strip org = org
  /\ ~ In "010"%char (list_ascii_of_string org)
  /\ exists line, In line (readlines content) /\ org = strip line.
Proof.
  unfold org_names. rewrite in_map_iff. intros [line [<- H]].
  apply filter_In in H. destruct H as [Hin Ht].
  split; [|split; [apply strip_idem|split; [|now exists line]]].
  - unfold truthy in Ht. intros E. rewrite E in Ht. discriminate.
  - destruct (readlines_line content line Hin) as [body [Hl Hn]].
    assert (E : strip line = strip body)
      by (destruct Hl as [->| ->]; [apply strip_app_nl | reflexivity]).
    rewrite E. intros H. apply Hn. unfold strip in H.
    now apply lstrip_chars, rstrip_chars.
Qed.

Lemma org_names_trimmed_witness :
  "acme" <> EmptyString
  /\ strip "acme" = "acme"
  /\ ~ In "010"%char (list_ascii_of_string "acme")
  /\ exists line,
      In line (readlines ("  acme " ++ nl ++ nl ++ "octo-org" ++ nl))
      /\ "acme" = strip line.
Proof.
  apply (org_names_trimmed ("  acme " ++ nl ++ nl ++ "octo-org" ++ nl) "acme").
  vm_compute. left. reflexivity.
Defined.

(** ** The organizations of the results *)

Lemma fold_add_key_nodup (l : list string) :
  forall ks, NoDup ks -> NoDup (fold_left add_key l ks).
Proof.
  induction l as [|x l IH]; intros ks H; [exact H|]. simpl. apply IH.
  unfold add_key. destruct (existsb (String.eqb x) ks) eqn:E; [exact H|].
  apply NoDup_app; [exact H | repeat constructor; intros [] |].
  intros y Hy [<-|[]].
  assert (T : existsb (String.eqb x) ks = true)
    by (apply existsb_exists; exists x; split; [exact Hy | apply String.eqb_refl]).
  congruence.
Qed.

Lemma fold_add_key_in (l : list string) :
  forall ks x, In x ks \/ In x l -> In x (fold_left add_key l ks).
Proof.
  induction l as [|y l IH]; intros ks x H; simpl.
  - now destruct H.
  - apply IH. unfold add_key.
    destruct (existsb (String.eqb y) ks) eqn:E.
    + destruct H as [H|[<-|H]]; [now left | left | now right].
      apply existsb_exists in E. destruct E as [z [Hz Ez]].
      apply String.eqb_eq in Ez. now subst z.
    + destruct H as [H|[<-|H]]; [left | left | now right];
        apply in_or_app; [now left | right; now left].
Qed.

(** X14: an organization has an entry in the results exactly when the
    file names it and its listing returned at least one repository; an
    organization named several times has one entry. *)
Theorem scanned_organizations_once (remote : string -> HttpResult)
    (json_parse : string -> string + Value)
    (as_completed : nat -> list string -> list string) (fuel : nat)
    (orgs : list string) (dep_prefix branch : string)
    (all_results : dict (dict string)) (w : World) :
  fst (scan_orgs remote json_parse as_completed fuel 0 orgs dep_prefix branch [] w)
  = Val all_results ->
  NoDup (dict_keys all_results)
  /\ forall org, In org (dict_keys all_results)
                 <-> In org orgs /\ has_repos remote fuel org = true.
Proof.
  intros H.
  rewrite (scan_orgs_keys remote json_parse fuel dep_prefix branch as_completed orgs
             all_results w H).
  unfold first_seen. split; [apply fold_add_key_nodup; constructor|].
  intros org. rewrite <- filter_In. split.
  - intros Hin. apply in_fold_add_key in Hin. now destruct Hin.
  - intros Hin. apply fold_add_key_in. now right.
Qed.

Lemma scanned_organizations_once_witness :
  NoDup (dict_keys acme_results)
  /\ forall org, In org (dict_keys acme_results)
                 <-> In org ["acme"; "empty"; "acme"]
                     /\ has_repos acme_remote 10 org = true.
Proof.
  apply (scanned_organizations_once acme_remote JsonText.loads in_order 10
           ["acme"; "empty"; "acme"] "ag-grid" "main" acme_results world0).
  vm_compute. reflexivity.
Defined.

(** ** The local checker *)

Lemma dict_update_keys {V} (items : list (string * V)) :
  forall d : dict V,
    dict_keys (dict_update d items) = fold_left add_key (dict_keys items) (dict_keys d).
Proof.
  induction items as [|[k v] items IH]; intros d; [reflexivity|].
  change (dict_update d ((k, v) :: items)) with (dict_update (dict_set k v d) items).
  rewrite IH, dict_keys_set_add. reflexivity.
Qed.

Lemma find_app {A} (p : A -> bool) (l1 l2 : list A) :
  find p (l1 ++ l2) = match find p l1 with Some x => Some x | None => find p l2 end.
Proof.
  induction l1 as [|x l1 IH]; [reflexivity|]. simpl. destruct (p x); [reflexivity | exact IH].
Qed.

Lemma find_fold_add_key (p : string -> bool) (l : list string) :
  forall ks, find p (fold_left add_key l ks) = find p (ks ++ l).
Proof.
  induction l as [|x l IH]; intros ks; [now rewrite app_nil_r|].
  cbn [fold_left]. rewrite IH. unfold add_key.
  destruct (existsb (String.eqb x) ks) eqn:E.
  - apply existsb_exists in E. destruct E as [y [Hy Ey]].
    apply String.eqb_eq in Ey. subst y.
    rewrite !find_app. destruct (find p ks) as [z|] eqn:F; [reflexivity|].
    simpl. now rewrite (find_none p ks F x Hy).
  - now rewrite <- app_assoc.
Qed.

Lemma merged_first_match (p : string -> bool) (deps dev : dict Value) :
  find p (dict_keys (dict_update (dict_update [] deps) dev))
  = find p (dict_keys deps ++ dict_keys dev).
Proof.
  rewrite !dict_update_keys. cbn [dict_keys map]. rewrite !find_fold_add_key.
  cbn [app]. rewrite !find_app. rewrite find_fold_add_key. reflexivity.
Qed.

Lemma find_existsb {A} (p : A -> bool) (l : list A) :
  existsb p l = match find p l with Some _ => true | None => false end.
Proof.
  induction l as [|x l IH]; [reflexivity|]. simpl. destruct (p x); [reflexivity | exact IH].
Qed.

Lemma find_first {A} (p : A -> bool) (l : list A) (x : A) :
  find p l = Some x ->
  exists before after,
    l = (before ++ x :: after)%list /\ p x = true
    /\ Forall (fun y => p y = false) before.
Proof.
  induction l as [|y l IH]; [discriminate|]. simpl.
  destruct (p y) eqn:E.
  - intros H. injection H as <-. exists [], l. repeat split; [exact E | constructor].
  - intros H. destruct (IH H) as [before [after [-> [Hx Hb]]]].
    exists (y :: before), after. repeat split; [exact Hx | now constructor].
Qed.

Lemma str_in_spec (keyword content : string) :
  LocalScan.str_in keyword content = true
  <-> exists a b, content = a ++ keyword ++ b.
Proof.
  induction content as [|c r IH].
  - simpl. rewrite orb_false_r. split.
    + intros H. apply (startswith_spec EmptyString keyword) in H.
      destruct H as [rest H]. exists EmptyString, rest. exact H.
    + intros [a [b H]]. destruct a; [|discriminate].
      apply (startswith_spec EmptyString keyword). now exists b.
  - cbn [LocalScan.str_in]. rewrite orb_true_iff, IH. split.
    + intros [H|[a [b ->]]].
      * apply (startswith_spec (String c r) keyword) in H.
        destruct H as [rest H]. exists EmptyString, rest. exact H.
      * now exists (String c a), b.
    + intros [a [b H]]. destruct a as [|c' a].
      * left. apply (startswith_spec (String c r) keyword). now exists b.
      * right. injection H as _ ->. now exists a, b.
Qed.

Section LocalChecks.

Variable fs : string -> LocalScan.FileState.
Variable json_parse : string -> string + Value.

Lemma manifest_check_runs (file_path dep_prefix : string) :
  let result := LocalScan.check_package_json fs json_parse file_path dep_prefix in
  (fs file_path = LocalScan.NoFile
   /\ result = LocalScan.Returns (false, "Invalid or missing " ++ file_path))
  \/ (fs file_path = LocalScan.Denied /\ result = LocalScan.Raises LocalScan.OSError)
  \/ (fs file_path = LocalScan.NotUtf8
      /\ result = LocalScan.Raises LocalScan.UnicodeDecodeError)
  \/ exists content, fs file_path = LocalScan.Text content /\
       ((exists msg, json_parse content = inl msg
                     /\ result = LocalScan.Returns (false, "Invalid or missing " ++ file_path))
        \/ (exists v, json_parse content = inr v /\ (forall m, v <> VDict m)
                      /\ result = LocalScan.Raises LocalScan.AttributeError)
        \/ (exists m, json_parse content = inr (VDict m)
                      /\ (declared m "dependencies" = None
                          \/ declared m "devDependencies" = None)
                      /\ result = LocalScan.Raises LocalScan.TypeError)
        \/ (exists m deps dev, json_parse content = inr (VDict m)
              /\ declared m "dependencies" = Some deps
              /\ declared m "devDependencies" = Some dev
              /\ result
                 = LocalScan.Returns
                     match find (fun key => startswith key dep_prefix)
                             (dict_keys deps ++ dict_keys dev) with
                     | Some key => (true, "Found " ++ key ++ " in " ++ file_path)
                     | None => (false, "No " ++ dep_prefix ++ " in " ++ file_path)
                     end)).
Proof.
  intros result. subst result.
  unfold LocalScan.check_package_json, LocalScan.json_load, LocalScan.read_text.
  destruct (fs file_path) as [| | |content];
    [left; split; reflexivity | right; left; split; reflexivity
    | right; right; left; split; reflexivity |].
  right; right; right. exists content. split; [reflexivity|].
  cbn [LocalScan.bind].
  destruct (json_parse content) as [msg|v];
    [left; exists msg; split; reflexivity|].
  right.
  destruct v as [| | | | |l|m];
    try (left; eexists; split; [reflexivity|];
         split; [intros m; discriminate | reflexivity]).
  right. cbn [LocalScan.bind LocalScan.value_get].
  destruct (dict_get "dependencies" m) as [[| | | | |l|deps]|] eqn:Hd;
    destruct (dict_get "devDependencies" m) as [[| | | | |l'|dev]|] eqn:Hv;
    cbn [LocalScan.bind LocalScan.unpack_into LocalScan.try_except existsb
           LocalScan.exn_eqb orb];
    try (left; exists m; split; [reflexivity|]; unfold declared; rewrite Hd, Hv;
         split; [(now left) || (now right) | reflexivity]).
  all: right; exists m; eexists; eexists; split; [reflexivity|];
    unfold declared; rewrite Hd, Hv;
    split; [reflexivity|]; split; [reflexivity|].
  all: match goal with
       | |- context [find ?f (dict_keys (dict_update (dict_update [] ?a) ?b))] =>
           rewrite (merged_first_match f a b)
       end.
  all: match goal with |- context [find ?f ?l] => destruct (find f l) end;
    reflexivity.
Qed.

End LocalChecks.

Ltac manifest_check_ends fs json_parse file_path dep_prefix :=
  destruct (manifest_check_runs fs json_parse file_path dep_prefix)
    as [[Hf E]|[[Hf E]|[[Hf E]|[content [Hf [[msg [Hj E]]|[[v [Hj [Hv E]]]|[[m [Hj [Hd E]]]|[m [deps [dev [Hj [Hd [Hv E]]]]]]]]]]]]]].

Section LocalFacts.

Variable fs : string -> LocalScan.FileState.
Variable json_parse : string -> string + Value.

(** X15: the manifest check answers Invalid or missing exactly when
    there is no file at the path or the text of the file is not JSON. *)
Theorem manifest_check_invalid_or_missing (file_path dep_prefix : string) :
  LocalScan.check_package_json fs json_parse file_path dep_prefix
  = LocalScan.Returns (false, "Invalid or missing " ++ file_path)
  <-> fs file_path = LocalScan.NoFile
      \/ exists content msg, fs file_path = LocalScan.Text content
                             /\ json_parse content = inl msg.
Proof.
  manifest_check_ends fs json_parse file_path dep_prefix; rewrite E; clear E.
  all: split;
    [ intros H
    | intros [H|[content' [msg' [H H']]]];
      rewrite Hf in H; try discriminate H; try (injection H as <-);
      try reflexivity; try congruence ].
  all: try discriminate H.
  all: try (destruct (find _ _); simpl in H; discriminate H).
  - now left.
  - right. now exists content, msg.
Qed.

(** X16: the manifest check raises an OSError exactly when the file
    cannot be opened, a UnicodeDecodeError exactly when it is not UTF-8,
    an AttributeError exactly when its text is JSON for a value that is
    not an object, and a TypeError exactly when the value is an object
    whose dependencies or devDependencies entry is not one; it never
    raises the two exceptions it handles. *)
Theorem manifest_check_raises_by_cause (file_path dep_prefix : string) :
  let result := LocalScan.check_package_json fs json_parse file_path dep_prefix in
  (result = LocalScan.Raises LocalScan.OSError <-> fs file_path = LocalScan.Denied)
  /\ (result = LocalScan.Raises LocalScan.UnicodeDecodeError
      <-> fs file_path = LocalScan.NotUtf8)
  /\ (result = LocalScan.Raises LocalScan.AttributeError
      <-> exists content v,
            fs file_path = LocalScan.Text content /\ json_parse content = inr v
            /\ forall m, v <> VDict m)
  /\ (result = LocalScan.Raises LocalScan.TypeError
      <-> exists content m,
            fs file_path = LocalScan.Text content
            /\ json_parse content = inr (VDict m)
            /\ (declared m "dependencies" = None
                \/ declared m "devDependencies" = None))
  /\ result <> LocalScan.Raises LocalScan.FileNotFoundError
  /\ result <> LocalScan.Raises LocalScan.JSONDecodeError.
Proof.
  intros result. subst result.
  manifest_check_ends fs json_parse file_path dep_prefix; rewrite E; clear E.
  all: repeat match goal with |- _ /\ _ => split | |- _ <-> _ => split end.
  all: try (intros H; discriminate H).
  all: try (intros H; destruct (find _ _); discriminate H).
  all: try (intros H; rewrite Hf in H; discriminate H).
  all: try (intros [c' [x [H [H2 H3]]]];
            rewrite Hf in H; try discriminate H; injection H as <-;
            first [ congruence | idtac ]).
  all: try (intros _; first [ exact Hf | reflexivity ]).
  all: try reflexivity.
  - intros _. exists content, v. auto.
  - intros _. exists content, m. auto.
  - exfalso. rewrite Hj in H2. injection H2 as <-. destruct H3; congruence.
Qed.

(** X17: on a manifest whose dependencies and devDependencies are
    objects or absent, the manifest check reports the first key that
    starts with the prefix, the keys of dependencies before those of
    devDependencies, each in the order of the file; it reports none
    when no key starts with the prefix. *)
Theorem manifest_check_first_match (file_path dep_prefix body : string)
    (manifest dependencies dev_dependencies : dict Value) :
  fs file_path = LocalScan.Text body ->
  json_parse body = inr (VDict manifest) ->
  declared manifest "dependencies" = Some dependencies ->
  declared manifest "devDependencies" = Some dev_dependencies ->
  LocalScan.check_package_json fs json_parse file_path dep_prefix
  = LocalScan.Returns
      match find (fun key => startswith key dep_prefix)
              (dict_keys dependencies ++ dict_keys dev_dependencies) with
      | Some key => (true, "Found " ++ key ++ " in " ++ file_path)
      | None => (false, "No " ++ dep_prefix ++ " in " ++ file_path)
      end.
Proof.
  intros Hf' Hj' Hd' Hv'.
  manifest_check_ends fs json_parse file_path dep_prefix; rewrite E; clear E;
    rewrite Hf' in Hf; try discriminate Hf; injection Hf as <-;
    rewrite Hj' in Hj; try discriminate Hj; injection Hj as <-.
  - now destruct (Hv manifest).
  - destruct Hd; congruence.
  - rewrite Hd' in Hd. injection Hd as <-. rewrite Hv' in Hv. injection Hv as <-.
    reflexivity.
Qed.

End LocalFacts.

Lemma manifest_check_first_match_witness :
  LocalScan.check_package_json demo_fs JsonText.loads "/app/package.json" "ag-grid"
  = LocalScan.Returns (true, "Found ag-grid-react in /app/package.json").
Proof.
  apply (manifest_check_first_match demo_fs JsonText.loads "/app/package.json" "ag-grid"
           (dq "{'dependencies':{'react':'18.2.0','ag-grid-react':'31.0.0'},'devDependencies':{'ag-grid-community':'31.0.0'}}")
           [("dependencies", VDict [("react", VStr "18.2.0"); ("ag-grid-react", VStr "31.0.0")]);
            ("devDependencies", VDict [("ag-grid-community", VStr "31.0.0")])]
           [("react", VStr "18.2.0"); ("ag-grid-react", VStr "31.0.0")]
           [("ag-grid-community", VStr "31.0.0")]);
    reflexivity.
Defined.

Section LocalAgreement.

Variable remote : string -> HttpResult.
Variable fs : string -> LocalScan.FileState.
Variable json_parse : string -> string + Value.

(** X18: the two scripts agree on a manifest.  When the raw host
    answers 200 with the text that the local file holds, the probe
    reports Has exactly when the manifest check finds a key, No exactly
    when it finds none, Error exactly when it answers Invalid or
    missing, and raises an AttributeError or a TypeError exactly when
    the manifest check raises the same. *)
Theorem local_check_agrees_with_probe (repo branch file_path dep_prefix : string)
    (response : Response) :
  remote (manifest_url repo branch) = Returned response ->
  status_code response = 200%Z ->
  fs file_path = LocalScan.Text (text response) ->
  let local := LocalScan.check_package_json fs json_parse file_path dep_prefix in
  let probed := probe remote json_parse repo dep_prefix branch in
  ((exists message, local = LocalScan.Returns (true, message))
   <-> probed = Val (Some (repo, "Has " ++ dep_prefix)))
  /\ (local = LocalScan.Returns (false, "No " ++ dep_prefix ++ " in " ++ file_path)
      <-> probed = Val (Some (repo, "No " ++ dep_prefix)))
  /\ (local = LocalScan.Returns (false, "Invalid or missing " ++ file_path)
      <-> probed = Val (Some (repo, "Error")))
  /\ (local = LocalScan.Raises LocalScan.AttributeError
      <-> exists e, probed = Raised e /\ exn_type e = AttributeError)
  /\ (local = LocalScan.Raises LocalScan.TypeError
      <-> exists e, probed = Raised e /\ exn_type e = TypeError).
Proof.
  intros Hr0 Hs0 Hf0 local probed. subst local probed.
  manifest_check_ends fs json_parse file_path dep_prefix; rewrite E; clear E;
    rewrite Hf0 in Hf; try discriminate Hf; injection Hf as <-.
  all: rename Hj into Hj0.
  all: try rename Hv into Hv0.
  all: try rename Hd into Hd0.
  all: try rename m into m0.
  all: try rename v into v0.
  all: try rename msg into msg0.
  all: try rename deps into deps0.
  all: try rename dev into dev0.
  all: probe_ends remote json_parse repo dep_prefix branch; rewrite E; clear E;
    rewrite Hr0 in Hr; try discriminate Hr; injection Hr as <-;
    try lia; try congruence.
  all: try (exfalso; rewrite Hj0 in Hj; injection Hj as <-;
            first [ now destruct (Hv0 m) | now destruct (Hv m0)
                  | destruct Hd0; congruence | destruct Hd; congruence ]).
  all: try (rewrite Hj0 in Hj; injection Hj as <-;
            rewrite Hd0 in Hd; injection Hd as <-;
            rewrite Hv0 in Hv; injection Hv as <-;
            rewrite find_existsb;
            destruct (find (fun key => startswith key dep_prefix)
                        (dict_keys deps0 ++ dict_keys dev0)) as [key|]).
  all: repeat split.
  all: intros H;
    first [ reflexivity
          | simpl in H; discriminate H
          | lazymatch type of H with
            | ex _ =>
                destruct H as [x H]; simpl in H;
                first [ discriminate H
                      | lazymatch type of H with
                        | _ /\ _ =>
                            destruct H as [H1 H2]; simpl in H1, H2;
                            first [ discriminate H1 | discriminate H2 | congruence ]
                        end ]
            end
          | eexists; reflexivity
          | eexists; split; [reflexivity | assumption] ].
Qed.

End LocalAgreement.

Lemma local_check_agrees_with_probe_witness :
  let local :=
    LocalScan.check_package_json
      (fun _ => LocalScan.Text (dq "{'dependencies':{'ag-grid-community':'1.0.0'}}"))
      JsonText.loads "package.json" "ag-grid" in
  let probed := probe acme_remote JsonText.loads "acme/a" "ag-grid" "main" in
  ((exists message, local = LocalScan.Returns (true, message))
   <-> probed = Val (Some ("acme/a", "Has " ++ "ag-grid")))
  /\ (local = LocalScan.Returns (false, "No " ++ "ag-grid" ++ " in " ++ "package.json")
      <-> probed = Val (Some ("acme/a", "No " ++ "ag-grid")))
  /\ (local = LocalScan.Returns (false, "Invalid or missing " ++ "package.json")
      <-> probed = Val (Some ("acme/a", "Error")))
  /\ (local = LocalScan.Raises LocalScan.AttributeError
      <-> exists e, probed = Raised e /\ exn_type e = AttributeError)
  /\ (local = LocalScan.Raises LocalScan.TypeError
      <-> exists e, probed = Raised e /\ exn_type e = TypeError).
Proof.
  apply (local_check_agrees_with_probe acme_remote
           (fun _ => LocalScan.Text (dq "{'dependencies':{'ag-grid-community':'1.0.0'}}"))
           JsonText.loads "acme/a" "main" "package.json" "ag-grid"
           (mkResponse 200 "OK" (dq "{'dependencies':{'ag-grid-community':'1.0.0'}}")
              (inl "Expecting value")));
    reflexivity.
Defined.

Section ContentCheck.

Variable fs : string -> LocalScan.FileState.

(** X19: the content check finds a file exactly when one of the keywords
    occurs in its text, and names the first such keyword of the list;
    otherwise its message does not depend on the keywords. *)
Theorem content_check_finds_substring (file_path content : string)
    (keywords : list string) :
  fs file_path = LocalScan.Text content ->
  exists found message,
    LocalScan.check_file_content fs file_path keywords
    = LocalScan.Returns (found, message)
    /\ (found = true
        <-> exists keyword before after,
              In keyword keywords /\ content = before ++ keyword ++ after)
    /\ (found = true ->
        exists earlier keyword later,
          keywords = (earlier ++ keyword :: later)%list
          /\ message = "Found " ++ keyword ++ " in " ++ file_path
          /\ (exists before after, content = before ++ keyword ++ after)
          /\ Forall (fun k => forall before after, content <> before ++ k ++ after)
               earlier)
    /\ (found = false -> message = "No ag-grid reference in " ++ file_path).
Proof.
  intros Hf. unfold LocalScan.check_file_content, LocalScan.read_text. rewrite Hf.
  cbn [LocalScan.bind].
  destruct (find (fun keyword => LocalScan.str_in keyword content) keywords)
    as [keyword|] eqn:F; cbn [LocalScan.try_except].
  - destruct (find_first _ _ _ F) as [earlier [later [Hk [Hin He]]]].
    apply str_in_spec in Hin.
    exists true, ("Found " ++ keyword ++ " in " ++ file_path).
    split; [reflexivity|]. split; [|split; [|discriminate]].
    + split; [intros _ | reflexivity].
      destruct Hin as [before [after Hc]]. exists keyword, before, after.
      split; [|exact Hc]. rewrite Hk. apply in_or_app. right. now left.
    + intros _. exists earlier, keyword, later.
      split; [exact Hk|]. split; [reflexivity|]. split; [exact Hin|].
      eapply Forall_impl; [|exact He]. intros k Hk' before after Hc.
      assert (T : LocalScan.str_in k content = true)
        by (apply str_in_spec; now exists before, after).
      congruence.
  - exists false, ("No ag-grid reference in " ++ file_path).
    split; [reflexivity|]. split; [|split; [discriminate | reflexivity]].
    split; [discriminate|]. intros [keyword [before [after [Hin Hc]]]].
    assert (T : LocalScan.str_in keyword content = true)
      by (apply str_in_spec; now exists before, after).
    rewrite (find_none _ _ F keyword Hin) in T. discriminate T.
Qed.

(** X20: the content check answers Could not read exactly when there is
    no file at the path or the file is not UTF-8, and the only exception
    that leaves it is the OSError of a file that cannot be opened. *)
Theorem content_check_unreadable (file_path : string) (keywords : list string) :
  (LocalScan.check_file_content fs file_path keywords
   = LocalScan.Returns (false, "Could not read " ++ file_path)
   <-> fs file_path = LocalScan.NoFile \/ fs file_path = LocalScan.NotUtf8)
  /\ (forall t,
        LocalScan.check_file_content fs file_path keywords = LocalScan.Raises t
        <-> fs file_path = LocalScan.Denied /\ t = LocalScan.OSError).
Proof.
  unfold LocalScan.check_file_content, LocalScan.read_text.
  destruct (fs file_path) as [| | |content]; cbn [LocalScan.bind].
  4: destruct (find (fun keyword => LocalScan.str_in keyword content) keywords).
  all: cbn [LocalScan.try_except existsb LocalScan.exn_eqb orb].
  all: split; [split | intros t; split].
  all: try (intros [H|H]; discriminate H).
  all: try (intros [H _]; discriminate H).
  all: try (intros H; simpl in H; discriminate H).
  all: try (intros _; (now left) || (now right)).
  all: try reflexivity.
  - intros H. injection H as <-. now split.
  - intros [_ ->]. reflexivity.
Qed.

End ContentCheck.

Lemma content_check_finds_substring_witness :
  exists found message,
    LocalScan.check_file_content demo_fs "/app/src/grid.ts" LocalScan.default_keywords
    = LocalScan.Returns (found, message)
    /\ (found = true
        <-> exists keyword before after,
              In keyword LocalScan.default_keywords
              /\ "import { Grid } from 'ag-grid-enterprise';" = before ++ keyword ++ after)
    /\ (found = true ->
        exists earlier keyword later,
          LocalScan.default_keywords = (earlier ++ keyword :: later)%list
          /\ message = "Found " ++ keyword ++ " in " ++ "/app/src/grid.ts"
          /\ (exists before after,
                "import { Grid } from 'ag-grid-enterprise';" = before ++ keyword ++ after)
          /\ Forall (fun k => forall before after,
                       "import { Grid } from 'ag-grid-enterprise';" <> before ++ k ++ after)
               earlier)
    /\ (found = false -> message = "No ag-grid reference in " ++ "/app/src/grid.ts").
Proof.
  apply (content_check_finds_substring demo_fs "/app/src/grid.ts"
           "import { Grid } from 'ag-grid-enterprise';" LocalScan.default_keywords).
  reflexivity.
Defined.

(** ** The scan of a project directory *)

Lemma fold_O_app {A B} (body : B -> A -> LocalScan.Outcome B) (l1 l2 : list A) :
  forall acc,
    LocalScan.fold_O body (l1 ++ l2) acc
    = LocalScan.bind (LocalScan.fold_O body l1 acc) (LocalScan.fold_O body l2).
Proof.
  induction l1 as [|x l1 IH]; intros acc; [reflexivity|].
  simpl. destruct (body acc x) as [acc'|t]; simpl; [apply IH | reflexivity].
Qed.

Lemma fold_O_concat {A B C} (body : B -> A -> LocalScan.Outcome B) (items : C -> list A)
    (l : list C) :
  forall acc,
    LocalScan.fold_O (fun acc c => LocalScan.fold_O body (items c) acc) l acc
    = LocalScan.fold_O body (List.concat (map items l)) acc.
Proof.
  induction l as [|c l IH]; intros acc; [reflexivity|].
  simpl. rewrite fold_O_app.
  destruct (LocalScan.fold_O body (items c) acc) as [acc'|t]; simpl;
    [apply IH | reflexivity].
Qed.

Lemma check_each_returns (check : string -> LocalScan.Outcome (bool * string))
    (files : list string) :
  forall results0 results,
    LocalScan.fold_O (LocalScan.check_and_append check) files results0
    = LocalScan.Returns results
    <-> exists new, results = (results0 ++ new)%list
                    /\ Forall2 (entry_of check) files new.
Proof.
  induction files as [|file rest IH]; intros results0 results.
  - cbn [LocalScan.fold_O]. split.
    + intros H. injection H as <-. exists []. split; [now rewrite app_nil_r | constructor].
    + intros [new [-> H]]. inversion H. now rewrite app_nil_r.
  - cbn [LocalScan.fold_O]. unfold LocalScan.check_and_append at 1.
    destruct (check file) as [[found message]|t] eqn:Ec; cbn [LocalScan.bind fst snd].
    + rewrite IH. split.
      * intros [new [-> H]]. exists ((file, found, message) :: new).
        split; [now rewrite <- app_assoc|]. constructor; [|exact H].
        split; [reflexivity | exact Ec].
      * intros [new [-> H]]. inversion H as [|f e fs' new' He Hr]; subst.
        destruct e as [[file' found'] message']. destruct He as [Hf Hc].
        cbn [fst snd] in Hf, Hc. subst file'.
        rewrite Ec in Hc. injection Hc as <- <-.
        exists new'. split; [now rewrite <- app_assoc | exact Hr].
    + split; [discriminate|]. intros [new [_ H]].
      inversion H as [|f e fs' new' He Hr]; subst. destruct He as [_ Hc].
      rewrite Ec in Hc. discriminate Hc.
Qed.

Lemma entry_of_functional (check : string -> LocalScan.Outcome (bool * string))
    (files : list string) (a : list LocalScan.Result) :
  Forall2 (entry_of check) files a ->
  forall b, Forall2 (entry_of check) files b -> a = b.
Proof.
  induction 1 as [|file e1 files a He1 _ IH]; intros b Hb.
  - now inversion Hb.
  - inversion Hb as [|f e2 fs' b' He2 Hr]; subst.
    destruct e1 as [[f1 found1] m1], e2 as [[f2 found2] m2].
    destruct He1 as [Hf1 Hc1], He2 as [Hf2 Hc2].
    cbn [fst snd] in Hf1, Hc1, Hf2, Hc2. subst f1 f2.
    rewrite Hc1 in Hc2. injection Hc2 as <- <-.
    f_equal. now apply IH.
Qed.

Section LocalScanFacts.

Variable fs : string -> LocalScan.FileState.
Variable json_parse : string -> string + Value.
Variable rglob : string -> string -> list string.

Lemma scan_returns (project_dir dep_prefix : string) (results : list LocalScan.Result) :
  LocalScan.scan_project_directory fs json_parse rglob project_dir dep_prefix
  = LocalScan.Returns results
  <-> exists manifests contents,
        results = (manifests ++ contents)%list
        /\ Forall2
             (entry_of (fun file =>
                          LocalScan.check_package_json fs json_parse file dep_prefix))
             (rglob project_dir "package.json") manifests
        /\ Forall2
             (entry_of (fun file =>
                          LocalScan.check_file_content fs file LocalScan.default_keywords))
             (List.concat (map (rglob project_dir) LocalScan.extensions)) contents.
Proof.
  unfold LocalScan.scan_project_directory.
  destruct (LocalScan.fold_O
              (LocalScan.check_and_append
                 (fun file => LocalScan.check_package_json fs json_parse file dep_prefix))
              (rglob project_dir "package.json") []) as [manifests|t] eqn:Em;
    cbn [LocalScan.bind].
  - rewrite (fold_O_concat
               (LocalScan.check_and_append
                  (fun file =>
                     LocalScan.check_file_content fs file LocalScan.default_keywords))
               (rglob project_dir) LocalScan.extensions).
    apply check_each_returns in Em. destruct Em as [new [-> Hm]]. cbn [app].
    rewrite check_each_returns. split.
    + intros [contents [-> Hc]]. now exists new, contents.
    + intros [manifests [contents [-> [Hm' Hc]]]].
      rewrite (entry_of_functional _ _ _ Hm _ Hm'). now exists contents.
  - split; [discriminate|]. intros [manifests [contents [_ [Hm _]]]]. exfalso.
    assert (E : LocalScan.fold_O
                  (LocalScan.check_and_append
                     (fun file => LocalScan.check_package_json fs json_parse file dep_prefix))
                  (rglob project_dir "package.json") []
                = LocalScan.Returns manifests)
      by (apply check_each_returns; now exists manifests).
    rewrite Em in E. discriminate E.
Qed.

(** X21: the scan returns one result per file, each with its file and
    what the check of it returned: first the package.json files checked
    as manifests, then the files matching *.html, *.js, *.jsx, *.ts and
    *.tsx in this order, checked for the two fixed keywords; within a
    pattern the files keep the order in which they were found. *)
Theorem scan_results_layout (project_dir dep_prefix : string)
    (results : list LocalScan.Result) :
  LocalScan.scan_project_directory fs json_parse rglob project_dir dep_prefix
  = LocalScan.Returns results
  <-> exists manifests contents,
        results = (manifests ++ contents)%list
        /\ Forall2
             (entry_of (fun file =>
                          LocalScan.check_package_json fs json_parse file dep_prefix))
             (rglob project_dir "package.json") manifests
        /\ Forall2
             (entry_of (fun file =>
                          LocalScan.check_file_content fs file
                            ["ag-grid-community"; "ag-grid-enterprise"]))
             (rglob project_dir "*.html" ++ rglob project_dir "*.js"
                ++ rglob project_dir "*.jsx" ++ rglob project_dir "*.ts"
                ++ rglob project_dir "*.tsx")
             contents.
Proof.
  rewrite scan_returns. cbn [LocalScan.extensions map List.concat].
  rewrite app_nil_r. reflexivity.
Qed.

(** X22: the prefix given to the scan reaches the manifests only.  Two
    scans of a directory with different prefixes return as many results
    and the same results for the files that are not package.json: those
    are always searched for the two fixed keywords. *)
Theorem content_results_ignore_prefix (project_dir prefix1 prefix2 : string)
    (results1 results2 : list LocalScan.Result) :
  LocalScan.scan_project_directory fs json_parse rglob project_dir prefix1
  = LocalScan.Returns results1 ->
  LocalScan.scan_project_directory fs json_parse rglob project_dir prefix2
  = LocalScan.Returns results2 ->
  List.length results1 = List.length results2
  /\ skipn (List.length (rglob project_dir "package.json")) results1
     = skipn (List.length (rglob project_dir "package.json")) results2.
Proof.
  intros H1 H2. apply scan_returns in H1, H2.
  destruct H1 as [m1 [c1 [-> [Hm1 Hc1]]]]. destruct H2 as [m2 [c2 [-> [Hm2 Hc2]]]].
  rewrite (entry_of_functional _ _ _ Hc1 _ Hc2).
  apply Forall2_length in Hm1, Hm2.
  split; [rewrite !length_app; congruence|].
  rewrite Hm1 at 1. rewrite Hm2. now rewrite !skipn_app, !skipn_all, !Nat.sub_diag.
Qed.

End LocalScanFacts.

Lemma content_results_ignore_prefix_witness :
  List.length
    [("/app/package.json", true, "Found ag-grid-react in /app/package.json");
     ("/app/index.html", false, "No ag-grid reference in /app/index.html");
     ("/app/logo.js", false, "Could not read /app/logo.js");
     ("/app/src/grid.ts", true, "Found ag-grid-enterprise in /app/src/grid.ts")]
  = List.length
      [("/app/package.json", true, "Found react in /app/package.json");
       ("/app/index.html", false, "No ag-grid reference in /app/index.html");
       ("/app/logo.js", false, "Could not read /app/logo.js");
       ("/app/src/grid.ts", true, "Found ag-grid-enterprise in /app/src/grid.ts")]
  /\ skipn (List.length (demo_rglob "/app" "package.json"))
       [("/app/package.json", true, "Found ag-grid-react in /app/package.json");
        ("/app/index.html", false, "No ag-grid reference in /app/index.html");
        ("/app/logo.js", false, "Could not read /app/logo.js");
        ("/app/src/grid.ts", true, "Found ag-grid-enterprise in /app/src/grid.ts")]
     = skipn (List.length (demo_rglob "/app" "package.json"))
         [("/app/package.json", true, "Found react in /app/package.json");
          ("/app/index.html", false, "No ag-grid reference in /app/index.html");
          ("/app/logo.js", false, "Could not read /app/logo.js");
          ("/app/src/grid.ts", true, "Found ag-grid-enterprise in /app/src/grid.ts")].
Proof.
  apply (content_results_ignore_prefix demo_fs JsonText.loads demo_rglob "/app"
           "ag-grid" "react");
    vm_compute; reflexivity.
Defined.

(** ** The run of the local checker *)

Lemma local_results_printed (results : list LocalScan.Result) :
  forall (found_any : bool) (out : list string),
    LocalScan.fold_C
      (fun (found_any : bool) (result : LocalScan.Result) =>
         let '(file_path, found, message) := result in
         if found
         then LocalScan.cbind (LocalScan.print ("[FOUND] " ++ message))
                (fun _ => LocalScan.cret true)
         else LocalScan.cbind (LocalScan.print ("[NOT FOUND] " ++ message))
                (fun _ => LocalScan.cret found_any))
      results found_any out
    = (LocalScan.Returns (found_any || existsb (fun result => snd (fst result)) results),
       (out ++ map result_line results)%list).
Proof.
  induction results as [|[[file_path found] message] results IH]; intros found_any out.
  - simpl. now rewrite orb_false_r, app_nil_r.
  - cbn [LocalScan.fold_C map existsb fst snd]. unfold LocalScan.cbind at 1.
    destruct found; unfold LocalScan.cbind at 1, LocalScan.print, LocalScan.cret at 1;
      rewrite IH; unfold result_line; cbn [fst snd]; rewrite <- app_assoc.
    + now rewrite orb_true_r.
    + reflexivity.
Qed.

(** X23: the local checker never exits and raises only what the scan
    raises.  For a path that does not exist it prints one line.  For
    one that does it prints that it scans, then, when the scan returns,
    the heading, one [FOUND] or [NOT FOUND] line per result in the
    order of the results, and last the warning when at least one result
    was found, the all-clear when none was. *)
Theorem local_main_output (fs : string -> LocalScan.FileState)
    (json_parse : string -> string + Value) (rglob : string -> string -> list string)
    (path_exists : string -> bool) (project_dir dep_prefix : string)
    (out : list string) :
  LocalScan.main fs json_parse rglob path_exists project_dir dep_prefix out
  = if path_exists project_dir then
      match LocalScan.scan_project_directory fs json_parse rglob project_dir dep_prefix with
      | LocalScan.Returns results =>
          (LocalScan.Returns tt,
           (out ++ ("Scanning " ++ project_dir ++ " for ag-grid usage...")%string
              :: (nl ++ "Results:")%string
              :: map result_line results
              ++ [summary_line (existsb (fun result => snd (fst result)) results)])%list)
      | LocalScan.Raises t =>
          (LocalScan.Raises t,
           (out ++ [("Scanning " ++ project_dir ++ " for ag-grid usage...")%string])%list)
      end
    else
      (LocalScan.Returns tt,
       (out ++ [("Error: Directory " ++ project_dir ++ " does not exist")%string])%list).
Proof.
  unfold LocalScan.main. destruct (path_exists project_dir); [|reflexivity].
  cbn [negb]. unfold LocalScan.cbind at 1, LocalScan.print at 1.
  unfold LocalScan.cbind at 1, LocalScan.lift.
  destruct (LocalScan.scan_project_directory fs json_parse rglob project_dir dep_prefix)
    as [results|t]; [|reflexivity].
  unfold LocalScan.cbind at 1, LocalScan.print at 1.
  unfold LocalScan.cbind at 1. rewrite local_results_printed. cbn [orb].
  unfold summary_line.
  destruct (existsb (fun result => snd (fst result)) results); cbn [negb];
    unfold LocalScan.print; rewrite <- !app_assoc; reflexivity.
Qed.
